(** * Bank reconciliation app: result sanitizer, review state, analytics, export

    A shallow embedding of the TypeScript sources

    - the reconciliation service ([reconcileFiles], the code after
      [JSON.parse]): module [Service];
    - [src/types.ts]: module [Types];
    - [src/components/Dashboard.tsx]: module [Dashboard];
    - [src/components/ReconciliationResults.tsx]: module [Review];
    - [src/utils/downloadUtils.ts]: modules [Download] and [Csv];
    - the other handlers of [ReconciliationResults.tsx]: module
      [ReviewActions];
    - the charts and the theme switch of [Dashboard.tsx]: modules [Charts]
      and [Theme];
    - [src/App.tsx]: module [App];
    - the top level of the reconciliation service: module [ServiceInit];

    followed by the properties proved about them.

    JavaScript numbers are IEEE 754 binary64 values and are modelled by
    Rocq's primitive [float]; JavaScript objects used as dictionaries are
    [gmap]s, and [Set<number>] is [gset nat].  The builtins the sources call
    ([parseFloat], [Intl.NumberFormat], [toLowerCase], [String]) are
    parameters of the definitions that use them, so what is proved holds for
    every host; module [Host] gives a reference [parseFloat] with which the
    examples are evaluated.  Module [Binary64] orders the binary64 numbers
    by integer keys, and modules [Spec], [ReviewSpec] and [DownloadSpec]
    hold the vocabulary of the statements. *)

From Stdlib Require Import ZArith Uint63 Floats Ascii String.
From stdpp Require Import gmap strings list fin_maps pretty sorting.

Open Scope float_scope.
Open Scope stdpp_scope.

(** A decimal literal denotes the nearest binary64 value, as it does in
    JavaScript and in JSON. *)
Set Warnings "-inexact-float".

(** ** JavaScript values and the host operations the sources rely on *)

Module Js.

(** What [JSON.parse] can return, plus [undefined], which reading a missing
    property yields. *)
#[warnings="-register-all"]
Inductive JsVal : Type :=
| JUndefined
| JNull
| JBool (b : bool)
| JNum (x : float)
| JStr (s : string)
| JArr (l : list JsVal)
| JObj (o : gmap string JsVal).

(** Exceptions.  [TypeError_read v k] is raised by [v.k] when [v] is
    [undefined] or [null]; [TypeError_call k] by [v.k(...)] when [v.k] is not
    callable; [HostError] stands for whatever a host builtin throws;
    [Error_failed] is the [new Error(`Reconciliation failed: ...`)] of the
    service's [catch] block. *)
Inductive Exn : Type :=
| TypeError_read (base : JsVal) (key : string)
| TypeError_call (key : string)
| HostError (msg : string)
| Error_failed (cause : Exn).

Inductive Result (A : Type) : Type :=
| Ok (a : A)
| Throw (e : Exn).
Arguments Ok {A} a.
Arguments Throw {A} e.

#[global] Instance Result_ret : MRet Result := fun A a => Ok a.
#[global] Instance Result_bind : MBind Result := fun A B f m =>
  match m with
  | Ok a => f a
  | Throw e => Throw e
  end.

Definition succeeds {A} (m : Result A) : bool :=
  match m with Ok _ => true | Throw _ => false end.

(** [Array.prototype.map] with a callback that may throw: elements are
    visited left to right and the first exception aborts the loop. *)
Fixpoint mapR {A B} (f : A -> Result B) (l : list A) : Result (list B) :=
  match l with
  | [] => Ok []
  | x :: l' => y ← f x; ys ← mapR f l'; mret (y :: ys)
  end.

(** ToBoolean. *)
Definition truthy (v : JsVal) : bool :=
  match v with
  | JUndefined | JNull => false
  | JBool b => b
  | JNum x => negb (is_nan x || is_zero x)
  | JStr s => negb (String.eqb s "")
  | JArr _ | JObj _ => true
  end.

(** [a || b]. *)
Definition jsOr (a b : JsVal) : JsVal := if truthy a then a else b.

Definition nullish (v : JsVal) : bool :=
  match v with JUndefined | JNull => true | _ => false end.

Definition chars (s : string) : list JsVal :=
  (fun c => JStr (String c EmptyString)) <$> String.list_ascii_of_string s.

Definition indexed (l : list JsVal) : gmap string JsVal :=
  list_to_map (imap (fun i x => (pretty i, x)) l).

(** The own enumerable properties of a value: what the object spread
    [{...v}] copies.  Spreading [undefined], [null], a number or a boolean
    copies nothing; arrays and strings contribute their index keys. *)
Definition ownProps (v : JsVal) : gmap string JsVal :=
  match v with
  | JObj o => o
  | JArr l => indexed l
  | JStr s => indexed (chars s)
  | _ => ∅
  end.

(** The property read [v.k], for the keys the program reads
    ([matchedTransactions], [summary], [bankTransaction], [amount], ...):
    none of them is defined on a builtin prototype, so the read is decided
    by the own properties, and a missing one reads as [undefined]. *)
Definition getProp (v : JsVal) (k : string) : Result JsVal :=
  if nullish v then Throw (TypeError_read v k)
  else Ok (default JUndefined (ownProps v !! k)).

(** The method call [v.map(f)]: only arrays have a callable [map]. *)
Definition callMap {B} (v : JsVal) (f : JsVal -> Result B) : Result (list B) :=
  match v with
  | JArr l => mapR f l
  | JUndefined | JNull => Throw (TypeError_read v "map")
  | _ => Throw (TypeError_call "map")
  end.

(** [Array.prototype.reduce((s, i) => s + g(i), 0)] on numbers. *)
Definition sumBy {A} (g : A -> float) (l : list A) : float :=
  fold_left (fun s i => s + g i) l 0.

End Js.
Export Js.

(** ** The reconciliation service: sanitization and recalculation *)

Module Service.

(** The object literal [{ ...t, amount: n }]: the copied properties other
    than [amount], and the number stored under [amount]. *)
Record Tx : Type := mkTx {
  others : gmap string JsVal;
  amount : float;
}.

(** The literal as a JavaScript object. *)
Definition txObject (t : Tx) : gmap string JsVal :=
  <["amount" := JNum (amount t)]> (others t).

(** The object literal [{ bankTransaction: ..., ledgerTransaction: ... }]. *)
Record Pair : Type := mkPair {
  bankTransaction : Tx;
  ledgerTransaction : Tx;
}.

(** The object literal [{ ...rawResult.summary, matchedCount: ..., ... }]:
    the copied properties other than the six recomputed ones, and the six
    recomputed ones.  The three counts are array lengths. *)
Record Summary : Type := mkSummary {
  passedThrough : gmap string JsVal;
  matchedCount : nat;
  unmatchedBankCount : nat;
  unmatchedLedgerCount : nat;
  matchedTotal : float;
  unmatchedBankTotal : float;
  unmatchedLedgerTotal : float;
}.

(** The returned object
    [{ summary, matchedTransactions, unmatchedBankTransactions,
       unmatchedLedgerEntries }]. *)
Record Sanitized : Type := mkSanitized {
  summary : Summary;
  matchedTransactions : list Pair;
  unmatchedBankTransactions : list Tx;
  unmatchedLedgerEntries : list Tx;
}.

Definition recomputed : list string :=
  ["matchedCount"; "unmatchedBankCount"; "unmatchedLedgerCount";
   "matchedTotal"; "unmatchedBankTotal"; "unmatchedLedgerTotal"].

Section Sanitizer.

(** The host's [parseFloat], applied to a JSON value.  It converts its
    argument to a string first, which can throw (an object carrying its own
    non-callable [toString]), hence the [Result]. *)
Variable parseFloat : JsVal -> Result float.

(** [const parseAmount = (val) => Math.abs(parseFloat(val) || 0)] *)
Definition parseAmount (val : JsVal) : Result float :=
  x ← parseFloat val;
  mret (abs (if truthy (JNum x) then x else 0)).

(** [{ ...t, amount: parseAmount(t.amount) }] *)
Definition withParsedAmount (t : JsVal) : Result Tx :=
  a ← getProp t "amount";
  n ← parseAmount a;
  mret (mkTx (delete "amount" (ownProps t)) n).

(** The callback of [matchedTransactions.map]. *)
Definition sanitizePair (p : JsVal) : Result Pair :=
  b ← getProp p "bankTransaction";
  bank ← withParsedAmount b;
  l ← getProp p "ledgerTransaction";
  ledger ← withParsedAmount l;
  mret (mkPair bank ledger).

(** [(rawResult.k || []).map(f)] *)
Definition collection {B} (rawResult : JsVal) (k : string)
    (f : JsVal -> Result B) : Result (list B) :=
  c ← getProp rawResult k;
  callMap (jsOr c (JArr [])) f.

(** The block "Sanitization & Recalculation". *)
Definition sanitize (rawResult : JsVal) : Result Sanitized :=
  matched ← collection rawResult "matchedTransactions" sanitizePair;
  bank ← collection rawResult "unmatchedBankTransactions" withParsedAmount;
  ledger ← collection rawResult "unmatchedLedgerEntries" withParsedAmount;
  s ← getProp rawResult "summary";
  mret (mkSanitized
    (mkSummary
       (foldr delete (ownProps s) recomputed)
       (length matched)
       (length bank)
       (length ledger)
       (sumBy (fun i => amount (bankTransaction i)) matched)
       (sumBy amount bank)
       (sumBy amount ledger))
    matched bank ledger).

(** The [try { ... } catch (error) { throw new Error(...) }] around the
    call and the sanitization; [parsed] is the outcome of awaiting the
    service and of [JSON.parse(response.text.trim())]. *)
Definition reconcileFiles (parsed : Result JsVal) : Result Sanitized :=
  match (rawResult ← parsed; sanitize rawResult) with
  | Ok r => Ok r
  | Throw e => Throw (Error_failed e)
  end.

End Sanitizer.

(** The summary literal as a JavaScript object. *)
Definition count (n : nat) : JsVal := JNum (of_uint63 (Uint63.of_Z (Z.of_nat n))).

Definition summaryObject (s : Summary) : gmap string JsVal :=
  <["unmatchedLedgerTotal" := JNum (unmatchedLedgerTotal s)]>
  (<["unmatchedBankTotal" := JNum (unmatchedBankTotal s)]>
  (<["matchedTotal" := JNum (matchedTotal s)]>
  (<["unmatchedLedgerCount" := count (unmatchedLedgerCount s)]>
  (<["unmatchedBankCount" := count (unmatchedBankCount s)]>
  (<["matchedCount" := count (matchedCount s)]> (passedThrough s)))))).

End Service.

(** ** A reference model of the host's [parseFloat]

    The properties below hold for every [parseFloat]; this model follows
    ECMAScript (trim leading white space, read the longest prefix that is a
    decimal literal, round to the nearest binary64 value, [NaN] when there
    is none) and is what the examples are evaluated with. *)

Module Host.

Definition isWhite (c : ascii) : bool :=
  let n := N_of_ascii c in
  ((9 <=? n) && (n <=? 13) || (n =? 32) || (n =? 160))%N.

Fixpoint skipWhite (s : string) : string :=
  match s with
  | String c s' => if isWhite c then skipWhite s' else s
  | EmptyString => s
  end.

Definition digitOf (c : ascii) : option Z :=
  let n := N_of_ascii c in
  if ((48 <=? n) && (n <=? 57))%N then Some (Z.of_N n - 48)%Z else None.

(** Reads a run of decimal digits: the number read so far, how many digits
    were read, and the rest of the text. *)
Fixpoint readDigits (s : string) (acc : Z) (n : Z) : Z * Z * string :=
  match s with
  | String c s' =>
      match digitOf c with
      | Some d => readDigits s' (10 * acc + d)%Z (n + 1)%Z
      | None => (acc, n, s)
      end
  | EmptyString => (acc, n, s)
  end.

Definition readSign (s : string) : bool * string :=
  match s with
  | String "-"%char s' => (true, s')
  | String "+"%char s' => (false, s')
  | _ => (false, s)
  end.

(** The exponent part, 0 when there is no well-formed one. *)
Definition readExponent (s : string) : Z :=
  match s with
  | String c s' =>
      if (Ascii.eqb c "e"%char || Ascii.eqb c "E"%char)%bool then
        let '(neg, s'') := readSign s' in
        let '(e, n, _) := readDigits s'' 0%Z 0%Z in
        if (n =? 0)%Z then 0%Z else if neg then (- e)%Z else e
      else 0%Z
  | EmptyString => 0%Z
  end.

(** [m * 10 ^ e10], rounded to nearest, ties to even: the quotient is
    computed with more than 64 significant bits and a sticky bit. *)
Definition decimalToSF (neg : bool) (m : Z) (e10 : Z) : spec_float :=
  if (m =? 0)%Z then S754_zero neg
  else
    let '(n, d) := if (0 <=? e10)%Z then (m * 10 ^ e10, 1)%Z
                   else (m, 10 ^ (- e10))%Z in
    let k := Z.max 0 (Z.log2 d + 70 - Z.log2 n) in
    let q := (n * 2 ^ k / d)%Z in
    let sticky := if ((n * 2 ^ k) mod d =? 0)%Z then 0%Z else 1%Z in
    binary_normalize prec emax (cond_Zopp neg (2 * q + sticky)) (- k - 1) neg.

Definition parseText (s : string) : float :=
  let '(neg, s1) := readSign (skipWhite s) in
  if String.prefix "Infinity" s1 then (if neg then neg_infinity else infinity)
  else
    let '(i, ni, s2) := readDigits s1 0%Z 0%Z in
    let '(f, nf, s3) :=
      match s2 with
      | String "."%char s2' => readDigits s2' i 0%Z
      | _ => (i, 0%Z, s2)
      end in
    if (ni + nf =? 0)%Z then nan
    else SF2Prim (decimalToSF neg f (readExponent s3 - nf)).

(** Whether [ToString] completes: it throws on an object that carries its
    own [toString] (which, coming from JSON, is not callable). *)
Fixpoint stringifiable (v : JsVal) : bool :=
  match v with
  | JObj o => match o !! "toString" with None => true | Some _ => false end
  | JArr l => forallb stringifiable l
  | _ => true
  end.

(** The number read from the text of [v].  A number prints so that it reads
    back as itself (and [-0] prints as [0]); an array prints as its elements
    joined by commas, so only its first element can be read. *)
Fixpoint leadingNumber (v : JsVal) : float :=
  match v with
  | JNum x => if is_zero x then 0 else x
  | JStr s => parseText s
  | JArr (e :: _) => leadingNumber e
  | _ => nan
  end.

Definition parseFloat (v : JsVal) : Result float :=
  if stringifiable v then Ok (leadingNumber v)
  else Throw (HostError "Cannot convert object to primitive value").

End Host.

(** ** [src/types.ts] *)

Module Types.

Inductive TxType : Type := credit | debit.

(** ['default' | 'investigating' | 'cleared' | 'reviewed'] *)
Inductive Status : Type := Default | Investigating | Cleared | Reviewed.

#[global] Instance Status_eq_dec : EqDecision Status.
Proof. solve_decision. Defined.

Record Transaction : Type := mkTransaction {
  date : string;
  description : string;
  amount : float;
  type : TxType;
  status : option Status;
}.

Record MatchedPair : Type := mkMatchedPair {
  bankTransaction : Transaction;
  ledgerTransaction : Transaction;
}.

Record Summary : Type := mkSummary {
  matchedCount : float;
  unmatchedBankCount : float;
  unmatchedLedgerCount : float;
  matchedTotal : float;
  unmatchedBankTotal : float;
  unmatchedLedgerTotal : float;
  ledgerBalance : float;
  bankBalance : float;
  asAtDate : string;
}.

Record ReconciliationResult : Type := mkResult {
  summary : Summary;
  matchedTransactions : list MatchedPair;
  unmatchedBankTransactions : list Transaction;
  unmatchedLedgerEntries : list Transaction;
}.

Record PdfExportConfig : Type := mkConfig {
  includeSummary : bool;
  includeMatches : bool;
  includeUnmatchedBank : bool;
  includeUnmatchedLedger : bool;
  onlySelectedItems : bool;
}.

End Types.

(** ** [src/components/Dashboard.tsx] *)

Module Dashboard.
Import Types.

(** [Array.prototype.sort(comparefn)].  The sort is stable, and an element
    [x] is moved behind an element [y] only when [comparefn(x, y) > 0]
    (a [NaN] result counts as [+0]).  With a consistent comparator every
    stable sort returns the same array; insertion from the right is the
    simplest one. *)
Section Sort.
Context {A : Type}.
Variable comparefn : A -> A -> float.

Fixpoint insert (x : A) (l : list A) : list A :=
  match l with
  | [] => [x]
  | y :: l' => if 0 <? comparefn x y then y :: insert x l' else x :: l
  end.

Definition sort (l : list A) : list A := foldr insert [] l.

End Sort.

(** [[...unmatchedBankTransactions, ...unmatchedLedgerEntries]
      .sort((a, b) => b.amount - a.amount).slice(0, 5)] *)
Definition topUnmatched (result : ReconciliationResult) : list Transaction :=
  take 5 (sort (fun a b => amount b - amount a)
            (unmatchedBankTransactions result ++ unmatchedLedgerEntries result)).

(** The "Total Variance" row: green background when
    [Math.abs(summary.bankBalance - summary.ledgerBalance) < 0.01], red
    otherwise; the figure shown is the difference itself. *)
Inductive Highlight : Type := Green | Red.

Definition varianceHighlight (s : Summary) : Highlight :=
  if abs (bankBalance s - ledgerBalance s) <? 0.01 then Green else Red.

Definition totalVariance (s : Summary) : float :=
  bankBalance s - ledgerBalance s.

End Dashboard.

(** ** [src/components/ReconciliationResults.tsx]: the review state *)

Module Review.
Import Types.

(** ['all' | Transaction['status']] *)
Inductive StatusFilter : Type := all | only (s : Status).

Inductive Collection : Type := bank | ledger.

(** The four pieces of React state the handlers read and write. *)
Record State : Type := mkState {
  selectedBankIndices : gset nat;
  selectedLedgerIndices : gset nat;
  bankStatuses : gmap nat Status;
  ledgerStatuses : gmap nat Status;
}.

(** A call of one of the four state setters. *)
Inductive Update : Type :=
| setSelectedBankIndices (s : gset nat)
| setSelectedLedgerIndices (s : gset nat)
| setBankStatuses (m : gmap nat Status)
| setLedgerStatuses (m : gmap nat Status).

Definition apply (st : State) (u : Update) : State :=
  match u with
  | setSelectedBankIndices s =>
      mkState s (selectedLedgerIndices st) (bankStatuses st) (ledgerStatuses st)
  | setSelectedLedgerIndices s =>
      mkState (selectedBankIndices st) s (bankStatuses st) (ledgerStatuses st)
  | setBankStatuses m =>
      mkState (selectedBankIndices st) (selectedLedgerIndices st) m (ledgerStatuses st)
  | setLedgerStatuses m =>
      mkState (selectedBankIndices st) (selectedLedgerIndices st) (bankStatuses st) m
  end.

(** The state of the next render: the setter calls of one handler run are
    applied together, in order. *)
Definition commit (st : State) (us : list Update) : State :=
  fold_left apply us st.

(** [s.includes(sub)] *)
Definition includes (s sub : string) : bool :=
  match String.index 0 sub s with Some _ => true | None => false end.

Section Filter.

(** [String.prototype.toLowerCase] and [String(n)] for a number [n]. *)
Variable toLowerCase : string -> string.
Variable numberToString : float -> string.

Definition matchesSearch (searchTerm : string) (tx : Transaction) : bool :=
  String.eqb searchTerm ""
  || includes (toLowerCase (description tx)) (toLowerCase searchTerm)
  || includes (date tx) searchTerm
  || includes (numberToString (amount tx)) searchTerm.

(** [statuses[idx] || 'default'] compared with the filter. *)
Definition matchesStatus (statusFilter : StatusFilter)
    (statuses : gmap nat Status) (idx : nat) : bool :=
  match statusFilter with
  | all => true
  | only s => bool_decide (default Default (statuses !! idx) = s)
  end.

(** [filteredUnmatchedBank] and [filteredUnmatchedLedger]:
    [txs.map((tx, idx) => ({ tx, idx })).filter(...)] *)
Definition filteredUnmatched (searchTerm : string) (statusFilter : StatusFilter)
    (statuses : gmap nat Status) (txs : list Transaction)
    : list (Transaction * nat) :=
  filter (fun i => matchesSearch searchTerm i.1 && matchesStatus statusFilter statuses i.2)
         (imap (fun idx tx => (tx, idx)) txs).

End Filter.

(** [toggleBankSelection] / [toggleLedgerSelection] *)
Definition toggle (s : gset nat) (idx : nat) : gset nat :=
  if bool_decide (idx ∈ s) then s ∖ {[idx]} else s ∪ {[idx]}.

Definition toggleBankSelection (st : State) (idx : nat) : list Update :=
  [setSelectedBankIndices (toggle (selectedBankIndices st) idx)].

Definition toggleLedgerSelection (st : State) (idx : nat) : list Update :=
  [setSelectedLedgerIndices (toggle (selectedLedgerIndices st) idx)].

(** The body shared by [selectAllUnmatchedBank] and
    [selectAllUnmatchedLedger]: [selected.size === filtered.length &&
    filtered.length > 0 ? new Set() : new Set(filtered.map(i => i.idx))]. *)
Definition selectAll (selected : gset nat) (filtered : list (Transaction * nat))
    : gset nat :=
  if (size selected =? length filtered)%nat && (0 <? length filtered)%nat then ∅
  else list_to_set (snd <$> filtered).

Definition selectAllUnmatchedBank (st : State)
    (filteredUnmatchedBank : list (Transaction * nat)) : list Update :=
  [setSelectedBankIndices (selectAll (selectedBankIndices st) filteredUnmatchedBank)].

Definition selectAllUnmatchedLedger (st : State)
    (filteredUnmatchedLedger : list (Transaction * nat)) : list Update :=
  [setSelectedLedgerIndices (selectAll (selectedLedgerIndices st) filteredUnmatchedLedger)].

(** [clearSingleBankStatus] / [clearSingleLedgerStatus] *)
Definition clearSingleBankStatus (st : State) (idx : nat) : list Update :=
  [setBankStatuses (delete idx (bankStatuses st))].

Definition clearSingleLedgerStatus (st : State) (idx : nat) : list Update :=
  [setLedgerStatuses (delete idx (ledgerStatuses st))].

(** One turn of the [forEach] loop of [applyBulkStatus]:
    [if (status === 'default') delete next[idx]; else next[idx] = status]. *)
Definition tag (status : Status) (idx : nat) (next : gmap nat Status)
    : gmap nat Status :=
  match status with
  | Default => delete idx next
  | _ => <[idx := status]> next
  end.

(** The loop over a [Set], visited in the order [order] lists it. *)
Definition tagAll (status : Status) (order : list nat) (statuses : gmap nat Status)
    : gmap nat Status :=
  fold_left (fun next idx => tag status idx next) order statuses.

(** [applyBulkStatus(type, status)]: the copy [next] of the status map is
    updated for every selected index, then handed to the setter, and the
    selection is replaced by an empty set. *)
Definition applyBulkStatus (st : State) (type : Collection) (status : Status)
    : list Update :=
  match type with
  | bank =>
      [setBankStatuses
         (tagAll status (elements (selectedBankIndices st)) (bankStatuses st));
       setSelectedBankIndices ∅]
  | ledger =>
      [setLedgerStatuses
         (tagAll status (elements (selectedLedgerIndices st)) (ledgerStatuses st));
       setSelectedLedgerIndices ∅]
  end.

End Review.

(** ** [src/utils/downloadUtils.ts]: the sections of the PDF report *)

Module Download.
Import Types.

(** A cell handed to [autoTable]. *)
Inductive Cell : Type :=
| Text (s : string)
| Number (n : float).

(** One numbered section: the heading written with [doc.text] and the
    table drawn under it. *)
Record Section_ : Type := mkSection {
  heading : string;
  head : list string;
  body : list (list Cell);
}.

(** [array.filter((_, i) => keep(i))] *)
Definition filterByIndex {A} (keep : nat -> bool) (l : list A) : list A :=
  fst <$> filter (fun x => keep x.2) (imap (fun i x => (x, i)) l).

Section Pdf.

(** [new Intl.NumberFormat('en-GH', { minimumFractionDigits: 2,
    maximumFractionDigits: 2 }).format] *)
Variable formatNumber : float -> string.

Definition formatCurrencyForPdf (amount : float) : string :=
  "GHS " +:+ formatNumber amount.

Definition executiveSummary (config : PdfExportConfig) (s : Summary)
    : list Section_ :=
  if includeSummary config then
    [mkSection "1. Executive Summary"
       ["Metric"; "Transaction Count"; "Net Value (GHS)"]
       [[Text "Successfully Matched"; Number (matchedCount s);
         Text (formatCurrencyForPdf (matchedTotal s))];
        [Text "Outstanding Bank Items"; Number (unmatchedBankCount s);
         Text (formatCurrencyForPdf (unmatchedBankTotal s))];
        [Text "Outstanding Ledger Items"; Number (unmatchedLedgerCount s);
         Text (formatCurrencyForPdf (unmatchedLedgerTotal s))]]]
  else [].

Definition matchRow (p : MatchedPair) : list Cell :=
  [Text (date (bankTransaction p)); Text (description (bankTransaction p));
   Text (date (ledgerTransaction p)); Text (description (ledgerTransaction p));
   Text (formatCurrencyForPdf (amount (bankTransaction p)))].

Definition verifiedMatches (config : PdfExportConfig)
    (matched : list MatchedPair) : list Section_ :=
  if includeMatches config && (0 <? length matched)%nat then
    [mkSection ("2. Verified Matches (" +:+ pretty (length matched) +:+ ")")
       ["Bank Date"; "Statement Narrative"; "Ledger Date";
        "Internal Reference"; "Amount"]
       (matchRow <$> matched)]
  else [].

Definition txRow (tx : Transaction) : list Cell :=
  [Text (date tx); Text (description tx);
   Text (formatCurrencyForPdf (amount tx))].

(** [config.onlySelectedItems && selected ? txs.filter((_, i) =>
    selected.has(i)) : txs]; the selection parameters are optional, and a
    [Set], even an empty one, is truthy. *)
Definition exported (config : PdfExportConfig) (selected : option (gset nat))
    (txs : list Transaction) : list Transaction :=
  match onlySelectedItems config, selected with
  | true, Some sel => filterByIndex (fun i => bool_decide (i ∈ sel)) txs
  | _, _ => txs
  end.

Definition unmatchedSection (included : bool) (name : string)
    (columns : list string) (config : PdfExportConfig)
    (list_ : list Transaction) : list Section_ :=
  if included then
    if (0 <? length list_)%nat then
      [mkSection
         (name +:+ " (" +:+ pretty (length list_) +:+ ")"
               +:+ (if onlySelectedItems config then " [Filtered]" else ""))
         columns
         (txRow <$> list_)]
    else []
  else [].

(** The sections [generatePdf] writes, in the order it writes them. *)
Definition generatePdf (result : ReconciliationResult)
    (config : PdfExportConfig)
    (selectedBankIndices selectedLedgerIndices : option (gset nat))
    : list Section_ :=
  executiveSummary config (summary result)
  ++ verifiedMatches config (matchedTransactions result)
  ++ unmatchedSection (includeUnmatchedBank config)
       "3. Unmatched Bank Items"
       ["Date"; "Transaction Description"; "Value"] config
       (exported config selectedBankIndices (unmatchedBankTransactions result))
  ++ unmatchedSection (includeUnmatchedLedger config)
       "4. Unmatched Ledger Entries"
       ["Date"; "General Ledger Description"; "Value"] config
       (exported config selectedLedgerIndices (unmatchedLedgerEntries result)).

End Pdf.

End Download.

(** ** Binary64 numbers as integers *)

Module Binary64.
Local Open Scope Z_scope.

Definition emin : Z := SpecFloat.emin prec emax.

(** An order embedding of the valid numbers into the integers: a finite
    number is written as a multiple of [2 ^ emin], and the infinities lie
    beyond every finite number. *)
Definition key (x : spec_float) : Z :=
  match x with
  | S754_zero _ | S754_nan => 0
  | S754_infinity s => cond_Zopp s (2 ^ (emax - emin))
  | S754_finite s m e => cond_Zopp s (Zpos m * 2 ^ (e - emin))
  end.

Definition is_number (x : spec_float) : bool :=
  match x with S754_nan => false | _ => true end.

(** The embedding, for primitive floats. *)
Definition rank (x : float) : Z := key (Prim2SF x).

End Binary64.

(** ** The vocabulary of the specification *)

Module Spec.
Import Service.

(** What [v.k] reads when [v] is neither [undefined] nor [null]. *)
Definition field (v : JsVal) (k : string) : JsVal :=
  default JUndefined (ownProps v !! k).

(** The raw collection stored under [k]: an absent (or falsy) one counts as
    the empty sequence. *)
Definition rawCollection (rawResult : JsVal) (k : string) : list JsVal :=
  match jsOr (field rawResult k) (JArr []) with
  | JArr l => l
  | _ => []
  end.

(** "abs(coerced-to-number-or-zero)": a failed coercion ([NaN]) counts
    as 0, then the absolute value is taken. *)
Definition absOrZero (x : float) : float :=
  abs (if is_nan x then 0 else x).

(** The sanitized transaction [t] carries the coerced amount of the raw
    transaction-like value [v]. *)
Definition coerces (parseFloat : JsVal -> Result float) (v : JsVal) (t : Tx)
    : Prop :=
  exists x, parseFloat (field v "amount") = Ok x /\ amount t = absOrZero x.

(** Every property of [v] other than [amount] is found unchanged in the
    sanitized transaction [t]. *)
Definition framed (v : JsVal) (t : Tx) : Prop :=
  forall k, k <> "amount" -> txObject t !! k = ownProps v !! k.

(** The conditions under which nothing in the sanitizer throws: the raw
    value and every element it visits can be read from, every collection
    is absent (or falsy) or an array, and [parseFloat] returns on every
    amount. *)
Definition txOk (parseFloat : JsVal -> Result float) (v : JsVal) : bool :=
  negb (nullish v) && succeeds (parseFloat (field v "amount")).

Definition pairOk (parseFloat : JsVal -> Result float) (p : JsVal) : bool :=
  negb (nullish p)
  && txOk parseFloat (field p "bankTransaction")
  && txOk parseFloat (field p "ledgerTransaction").

Definition collectionOk (ok : JsVal -> bool) (c : JsVal) : bool :=
  match jsOr c (JArr []) with
  | JArr l => forallb ok l
  | _ => false
  end.

Definition wellFormed (parseFloat : JsVal -> Result float) (raw : JsVal) : bool :=
  negb (nullish raw)
  && collectionOk (pairOk parseFloat) (field raw "matchedTransactions")
  && collectionOk (txOk parseFloat) (field raw "unmatchedBankTransactions")
  && collectionOk (txOk parseFloat) (field raw "unmatchedLedgerEntries").

(** The amount of the raw value [v] did not parse and was replaced by 0. *)
Definition recovered (parseFloat : JsVal -> Result float) (v : JsVal) (t : Tx)
    : Prop :=
  parseFloat (field v "amount") = Ok nan -> amount t = 0.

(** The counts and totals of a run, [None] when it threw. *)
Definition figures (m : Result Sanitized)
    : option (nat * float * nat * float * nat * float) :=
  match m with
  | Ok r =>
      Some (matchedCount (summary r), matchedTotal (summary r),
            unmatchedBankCount (summary r), unmatchedBankTotal (summary r),
            unmatchedLedgerCount (summary r), unmatchedLedgerTotal (summary r))
  | Throw _ => None
  end.

(** The sum of a sequence of numbers, taken from left to right: 0 for the
    empty sequence, and for a sequence that ends in [x] the sum of what
    precedes [x], plus [x].  Addition of binary64 numbers is not
    associative, so the order is part of the notion. *)
Definition total (l : list float) : float :=
  foldr (fun x s => s + x) 0 (reverse l).

(** The coerced amount of the raw transaction-like value [v], when
    [parseFloat] returns on its [amount]. *)
Definition coercedAmount (parseFloat : JsVal -> Result float) (v : JsVal)
    : option float :=
  match parseFloat (field v "amount") with
  | Ok x => Some (absOrZero x)
  | Throw _ => None
  end.

(** The total of the coerced amounts of a sequence of raw values. *)
Definition rawTotal (parseFloat : JsVal -> Result float) (l : list JsVal)
    : option float :=
  total <$> mapM (coercedAmount parseFloat) l.

(** The bank legs of the raw matched pairs. *)
Definition rawBankLegs (rawResult : JsVal) : list JsVal :=
  (fun p => field p "bankTransaction")
  <$> rawCollection rawResult "matchedTransactions".

End Spec.

(** ** The vocabulary of the review workflow *)

Module ReviewSpec.
Import Types Review.

Definition statusesOf (c : Collection) (st : State) : gmap nat Status :=
  match c with bank => bankStatuses st | ledger => ledgerStatuses st end.

Definition selectedOf (c : Collection) (st : State) : gset nat :=
  match c with
  | bank => selectedBankIndices st
  | ledger => selectedLedgerIndices st
  end.

Definition other (c : Collection) : Collection :=
  match c with bank => ledger | ledger => bank end.

Definition setStatuses (c : Collection) : gmap nat Status -> Update :=
  match c with bank => setBankStatuses | ledger => setLedgerStatuses end.

Definition setSelected (c : Collection) : gset nat -> Update :=
  match c with
  | bank => setSelectedBankIndices
  | ledger => setSelectedLedgerIndices
  end.

(** The entry a bulk action leaves for a selected index: none for
    ['default'], the status otherwise. *)
Definition entryFor (status : Status) : option Status :=
  match status with Default => None | _ => Some status end.

(** [selectAllVisible] as the specification words it: the selection is
    cleared when it equals the visible set and is not empty, and becomes the
    visible set otherwise. *)
Definition selectAllVisible (selected : gset nat) (visibleIndices : list nat)
    : gset nat :=
  if bool_decide (selected = list_to_set visibleIndices /\ selected <> ∅) then ∅
  else list_to_set visibleIndices.

(** The handler that selects all visible rows of a collection. *)
Definition selectAllOf (c : Collection) (st : State)
    (filtered : list (Transaction * nat)) : list Update :=
  match c with
  | bank => selectAllUnmatchedBank st filtered
  | ledger => selectAllUnmatchedLedger st filtered
  end.

End ReviewSpec.

(** ** The vocabulary of the export *)

Module DownloadSpec.

(** The items of [l] whose position in [l] (counted from 0) belongs to
    [selected], in the order of [l]. *)
Definition atSelectedPositions {A} (selected : gset nat) (l : list A) : list A :=
  omap (fun i => if bool_decide (i ∈ selected) then l !! i else None)
       (seq 0 (length l)).

End DownloadSpec.

(** ** Concrete inputs *)

Module Scenario.

Definition obj (l : list (string * JsVal)) : JsVal := JObj (list_to_map l).

Definition tx (d desc : string) (a : JsVal) (ty : string) : JsVal :=
  obj [("date", JStr d); ("description", JStr desc); ("amount", a);
       ("type", JStr ty)].

(** The end-to-end scenario of the specification. *)
Definition endToEnd : JsVal :=
  obj [("matchedTransactions",
        JArr [obj [("bankTransaction",
                    tx "2024-03-05" "Acme" (JStr "3500.00") "credit");
                   ("ledgerTransaction",
                    tx "2024-03-05" "Acme Corp" (JNum (-3500)) "debit")]]);
       ("unmatchedBankTransactions",
        JArr [tx "2024-03-10" "Fee" (JNum 25) "debit"]);
       ("unmatchedLedgerEntries", JArr []);
       ("summary",
        obj [("ledgerBalance", JNum 7079.5); ("bankBalance", JNum 7079.5);
             ("asAtDate", JStr "2024-03-31")])].

(** A matched pair whose two legs disagree, amounts that do not parse, and a
    summary that carries stale counts. *)
Definition untidy : JsVal :=
  obj [("matchedTransactions",
        JArr [obj [("bankTransaction", tx "2024-01-02" "Rent" (JNum 100) "debit");
                   ("ledgerTransaction", tx "2024-01-03" "Rent Jan" (JNum 90) "credit")];
              obj [("bankTransaction", tx "2024-01-04" "Cash" (JStr "n/a") "debit");
                   ("ledgerTransaction", obj [("date", JStr "2024-01-04")])]]);
       ("unmatchedLedgerEntries",
        JArr [tx "2024-01-09" "Refund" (JNum (-12.5)) "debit";
              obj [("description", JStr "No amount")]]);
       ("summary",
        obj [("ledgerBalance", JNum 10); ("matchedCount", JNum 99)])].

(** A matched pair without its bank leg; the other collections are absent. *)
Definition missingLeg : JsVal :=
  obj [("matchedTransactions",
        JArr [obj [("ledgerTransaction",
                    tx "2024-03-05" "Acme Corp" (JNum 3500) "debit")]])].

(** A matched pair with neither leg; the other collections are absent. *)
Definition emptyPair : JsVal :=
  obj [("matchedTransactions", JArr [obj []])].

(** Two unmatched bank items. *)
Definition fee : Types.Transaction :=
  Types.mkTransaction "2024-03-10" "Fee" 25 Types.debit None.

Definition transfer : Types.Transaction :=
  Types.mkTransaction "2024-03-12" "Transfer" 400 Types.credit None.

(** Nothing but the closing balances. *)
Definition balancesOnly : JsVal :=
  obj [("summary",
        obj [("ledgerBalance", JNum 7079.5); ("bankBalance", JNum 7079.5);
             ("asAtDate", JStr "2024-03-31")])].

End Scenario.

(** ** [src/utils/downloadUtils.ts]: the CSV report and the file names *)

Module Csv.
Import Types.

Definition quote : ascii := "034"%char.

Definition newline : string := String "010"%char EmptyString.

(** The [replace] of [toCsvRow]: every double quote is written twice. *)
Fixpoint doubleQuotes (s : string) : string :=
  match s with
  | EmptyString => EmptyString
  | String c s' =>
      if Ascii.eqb c quote then String quote (String quote (doubleQuotes s'))
      else String c (doubleQuotes s')
  end.

(** An element of the [(string | number)[]] handed to [toCsvRow]. *)
Inductive Field : Type :=
| Str (s : string)
| Num (n : float).

(** The character class [[a-z0-9]] under the flag [i]: the ASCII letters
    and digits. *)
Definition isAlnum (c : ascii) : bool :=
  let n := N_of_ascii c in
  ((48 <=? n) && (n <=? 57) || (65 <=? n) && (n <=? 90)
   || (97 <=? n) && (n <=? 122))%N.

(** [s.replace(/[^a-z0-9]/gi, '_')] *)
Fixpoint replaceNonAlnum (s : string) : string :=
  match s with
  | EmptyString => EmptyString
  | String c s' =>
      String (if isAlnum c then c else "_"%char) (replaceNonAlnum s')
  end.

Section Host.

(** [String(n)] for a number [n], and [String.prototype.toLowerCase]. *)
Variable numberToString : float -> string.
Variable toLowerCase : string -> string.

(** [String(val)] *)
Definition text (val : Field) : string :=
  match val with
  | Str s => s
  | Num n => numberToString n
  end.

(** [toCsvRow]: every value is turned into text, its double quotes are
    doubled, it is put between double quotes, and the results are joined
    with commas. *)
Definition toCsvRow (arr : list Field) : string :=
  String.concat ","
    (map (fun val => String quote (doubleQuotes (text val)) +:+ String quote "")
         arr).

(** The text [generateCsv] puts in the blob; [now] is
    [new Date().toLocaleString()]. *)
Definition csvContent (now : string) (result : ReconciliationResult)
    (companyName : string) : string :=
  let s := summary result in
  (if String.eqb companyName "" then ""
   else "Company Name," +:+ companyName +:+ newline)
  +:+ "Reconciliation Report" +:+ newline
  +:+ "Generated on," +:+ now +:+ newline +:+ newline
  +:+ "Summary" +:+ newline
  +:+ toCsvRow [Str "Metric"; Str "Transaction Count"; Str "Net Value (GHS)"]
  +:+ newline
  +:+ toCsvRow [Str "Successfully Matched"; Num (matchedCount s);
                Num (matchedTotal s)]
  +:+ newline
  +:+ toCsvRow [Str "Outstanding Bank Items"; Num (unmatchedBankCount s);
                Num (unmatchedBankTotal s)]
  +:+ newline
  +:+ toCsvRow [Str "Outstanding Ledger Items"; Num (unmatchedLedgerCount s);
                Num (unmatchedLedgerTotal s)]
  +:+ newline +:+ newline.

(** [companyName
      ? companyName.replace(/[^a-z0-9]/gi, '_').toLowerCase() + '_' : ''] *)
Definition safeCompanyName (companyName : string) : string :=
  if String.eqb companyName "" then ""
  else toLowerCase (replaceNonAlnum companyName) +:+ "_".

(** The names under which [generateCsv] and [generatePdf] save their
    report; [today] is [new Date().toISOString().split('T')[0]]. *)
Definition csvFileName (today companyName : string) : string :=
  safeCompanyName companyName +:+ "reconciliation_report_" +:+ today +:+ ".csv".

Definition pdfFileName (today companyName : string) : string :=
  safeCompanyName companyName +:+ "reconciliation_report_" +:+ today +:+ ".pdf".

End Host.

End Csv.

(** ** [src/components/ReconciliationResults.tsx]: the other handlers *)

Module ReviewActions.
Import Types Review.

(** [hasSelection] *)
Definition hasSelection (st : State) : bool :=
  (0 <? size (selectedBankIndices st))%nat
  || (0 <? size (selectedLedgerIndices st))%nat.

(** The Reset button of the bulk bar:
    [if (selectedBankIndices.size > 0) applyBulkStatus('bank', 'default');
     if (selectedLedgerIndices.size > 0) applyBulkStatus('ledger', 'default')].
    Both calls read the state of the render the button belongs to. *)
Definition resetSelected (st : State) : list Update :=
  (if (0 <? size (selectedBankIndices st))%nat
   then applyBulkStatus st bank Default else [])
  ++ (if (0 <? size (selectedLedgerIndices st))%nat
      then applyBulkStatus st ledger Default else []).

(** [handlePdfExport]: [generatePdf(result, companyName, exportConfig,
    selectedBankIndices, selectedLedgerIndices)] *)
Definition handlePdfExport (formatNumber : float -> string) (st : State)
    (result : ReconciliationResult) (exportConfig : PdfExportConfig)
    : list Download.Section_ :=
  Download.generatePdf formatNumber result exportConfig
    (Some (selectedBankIndices st)) (Some (selectedLedgerIndices st)).

End ReviewActions.

(** ** [src/components/Dashboard.tsx]: the two charts *)

Module Charts.
Import Types.

Record Datum : Type := mkDatum {
  label : string;
  value : float;
  color : string;
}.

(** [donutData] and [barData] *)
Definition donutData (s : Summary) : list Datum :=
  [mkDatum "Matched" (matchedCount s) "#22c55e";
   mkDatum "Unmatched (Bank)" (unmatchedBankCount s) "#f97316";
   mkDatum "Unmatched (Ledger)" (unmatchedLedgerCount s) "#eab308"].

Definition barData (s : Summary) : list Datum :=
  [mkDatum "Matched" (matchedTotal s) "#22c55e";
   mkDatum "Bank" (unmatchedBankTotal s) "#f97316";
   mkDatum "Ledger" (unmatchedLedgerTotal s) "#eab308"].

(** [{ ...item, percentage, startAngle, endAngle }] *)
Record Segment : Type := mkSegment {
  item : Datum;
  percentage : float;
  startAngle : float;
  endAngle : float;
}.

(** The [map] of [DonutChart], with the running [cumulative] made
    explicit. *)
Fixpoint segmentsFrom (total cumulative : float) (data : list Datum)
    : list Segment :=
  match data with
  | [] => []
  | item :: rest =>
      let percentage := value item / total in
      let startAngle := (cumulative / total) * 360 in
      let cumulative := cumulative + value item in
      let endAngle := (cumulative / total) * 360 in
      mkSegment item percentage startAngle endAngle
      :: segmentsFrom total cumulative rest
  end.

(** [DonutChart]: [None] stands for the placeholder shown when
    [total === 0]; otherwise the total and the segments. *)
Definition donutChart (data : list Datum) : option (float * list Segment) :=
  let total := sumBy value data in
  if total =? 0 then None else Some (total, segmentsFrom total 0 data).

(** [Math.max]: [NaN] as soon as an argument is [NaN]; otherwise the
    largest argument, [+0] counting as larger than [-0]; [-Infinity]
    without arguments. *)
Fixpoint maxFrom (highest : float) (numbers : list float) : float :=
  match numbers with
  | [] => highest
  | number :: rest =>
      if is_nan number then nan
      else if is_zero number && negb (get_sign number)
              && is_zero highest && get_sign highest
      then maxFrom number rest
      else if highest <? number then maxFrom number rest
      else maxFrom highest rest
  end.

Definition mathMax (numbers : list float) : float :=
  maxFrom neg_infinity numbers.

(** [BarChart]: [Math.max(...data.map(d => d.value), 1)] and
    [(item.value / maxValue) * 100]. *)
Definition maxValue (data : list Datum) : float :=
  mathMax ((value <$> data) ++ [1]).

Definition barHeight (data : list Datum) (item : Datum) : float :=
  (value item / maxValue data) * 100.

End Charts.

(** ** [ThemeToggle] *)

Module Theme.

(** The initial [isDark]: the saved theme if there is one, dark
    otherwise. *)
Definition initialIsDark (localStorage : gmap string string) : bool :=
  match localStorage !! "theme" with
  | Some saved => if String.eqb saved "" then true else String.eqb saved "dark"
  | None => true
  end.

(** The effect run after every change of [isDark]. *)
Definition persist (isDark : bool) (localStorage : gmap string string)
    : gmap string string :=
  <["theme" := if isDark then "dark" else "light"]> localStorage.

End Theme.

(** ** [src/App.tsx] *)

Module App.

Definition COMPANY_NAME_STORAGE_KEY : string := "reconciliation_company_name".

(** [localStorage.getItem(COMPANY_NAME_STORAGE_KEY) || ''] *)
Definition initialCompanyName (localStorage : gmap string string) : string :=
  default "" (localStorage !! COMPANY_NAME_STORAGE_KEY).

(** [localStorage.setItem(COMPANY_NAME_STORAGE_KEY, companyName)] *)
Definition persistCompanyName (companyName : string)
    (localStorage : gmap string string) : gmap string string :=
  <[COMPANY_NAME_STORAGE_KEY := companyName]> localStorage.

(** [getProgressMessage] *)
Definition getProgressMessage (val : float) : string :=
  if val <? 20 then "Initializing secure environment..."
  else if val <? 40 then "Analyzing document structure..."
  else if val <? 60 then "Extracting financial data..."
  else if val <? 80 then "AI Pattern matching..."
  else "Finalizing reconciliation report...".

(** [Math.min]: [NaN] as soon as an argument is [NaN]; otherwise the
    smallest argument, [-0] counting as smaller than [+0]; [Infinity]
    without arguments. *)
Fixpoint minFrom (lowest : float) (numbers : list float) : float :=
  match numbers with
  | [] => lowest
  | number :: rest =>
      if is_nan number then nan
      else if is_zero number && get_sign number
              && is_zero lowest && negb (get_sign lowest)
      then minFrom number rest
      else if number <? lowest then minFrom number rest
      else minFrom lowest rest
  end.

Definition mathMin (numbers : list float) : float := minFrom infinity numbers.

(** The updater handed to [setProgress] every 100 ms while loading;
    [random] is the value [Math.random()] returns. *)
Definition tick (random prev : float) : float :=
  if 98 <=? prev then prev
  else
    let increment :=
      if prev <? 40 then 4.0
      else if prev <? 70 then 1.5
      else if prev <? 90 then 0.5
      else 0.1 in
    let increment := increment + (random - 0.5) * 0.2 in
    mathMin [prev + increment; 98].

Section Handlers.

(** The uploaded files and the reconciliation result are opaque here. *)
Context {File Result_ : Type}.

Record State : Type := mkState {
  companyName : string;
  asAtDate : string;
  bankStatement : option File;
  ledger : option File;
  result : option Result_;
  isLoading : bool;
  error : option string;
  progress : float;
}.

(** A call of one of the state setters. *)
Inductive Update : Type :=
| setCompanyName (v : string)
| setAsAtDate (v : string)
| setBankStatement (v : option File)
| setLedger (v : option File)
| setResult (v : option Result_)
| setIsLoading (v : bool)
| setError (v : option string)
| setProgress (v : float).

Definition apply (st : State) (u : Update) : State :=
  match u with
  | setCompanyName v =>
      mkState v (asAtDate st) (bankStatement st) (ledger st) (result st)
        (isLoading st) (error st) (progress st)
  | setAsAtDate v =>
      mkState (companyName st) v (bankStatement st) (ledger st) (result st)
        (isLoading st) (error st) (progress st)
  | setBankStatement v =>
      mkState (companyName st) (asAtDate st) v (ledger st) (result st)
        (isLoading st) (error st) (progress st)
  | setLedger v =>
      mkState (companyName st) (asAtDate st) (bankStatement st) v (result st)
        (isLoading st) (error st) (progress st)
  | setResult v =>
      mkState (companyName st) (asAtDate st) (bankStatement st) (ledger st) v
        (isLoading st) (error st) (progress st)
  | setIsLoading v =>
      mkState (companyName st) (asAtDate st) (bankStatement st) (ledger st)
        (result st) v (error st) (progress st)
  | setError v =>
      mkState (companyName st) (asAtDate st) (bankStatement st) (ledger st)
        (result st) (isLoading st) v (progress st)
  | setProgress v =>
      mkState (companyName st) (asAtDate st) (bankStatement st) (ledger st)
        (result st) (isLoading st) (error st) v
  end.

Definition commit (st : State) (us : list Update) : State :=
  fold_left apply us st.

(** [err instanceof Error ? err.message : 'An unknown error ...'] *)
Variable errorText : Exn -> string.

(** [handleReconcile].  [outcome] is what awaiting the two
    [fileToGenerativePart] calls and [reconcileFiles] yields; it is not
    consulted when a file is missing. *)
Definition handleReconcile (st : State) (outcome : Result Result_)
    : list Update :=
  match bankStatement st, ledger st with
  | Some _, Some _ =>
      [setIsLoading true; setError None; setResult None]
      ++ match outcome with
         | Ok reconciliationResult =>
             [setProgress 100; setResult (Some reconciliationResult);
              setIsLoading false]
         | Throw err => [setError (Some (errorText err)); setIsLoading false]
         end
  | _, _ =>
      [setError (Some "Please upload both a bank statement and a general ledger.")]
  end.

(** [handleLoadSampleData]; the two files are those [generateSampleData]
    builds. *)
Definition handleLoadSampleData (st : State) (bankFile ledgerFile : File)
    : list Update :=
  [setBankStatement (Some bankFile); setLedger (Some ledgerFile)]
  ++ (if String.eqb (companyName st) "" then [setCompanyName "Sample Logistics Ltd."]
      else [])
  ++ [setAsAtDate "2024-03-31"; setError None].

(** What [renderContent] shows. *)
Inductive View : Type :=
| ProgressView (progress : float) (message : string)
| ResultsView (result : Result_) (companyName : string)
| FormView (error : option string).

Definition renderContent (st : State) : View :=
  if isLoading st then ProgressView (progress st) (getProgressMessage (progress st))
  else match result st with
       | Some r => ResultsView r (companyName st)
       | None => FormView (error st)
       end.

End Handlers.

End App.

(** ** The reconciliation service: loading the module *)

Module ServiceInit.

(** What evaluating the module's top level yields: the client built with
    [process.env.API_KEY || 'FAKE_API_KEY_FOR_DEVELOPMENT'], or the error
    thrown by the guard in front of it. *)
Inductive Load : Type :=
| Loaded (apiKey : JsVal)
| Failed (message : string).

(** [if (!process.env.API_KEY || 'FAKE_API_KEY_FOR_DEVELOPMENT')
      throw new Error(...);
     const ai = new GoogleGenAI({ apiKey: process.env.API_KEY || ... })] *)
Definition load (API_KEY : JsVal) : Load :=
  if truthy (jsOr (JBool (negb (truthy API_KEY)))
                  (JStr "FAKE_API_KEY_FOR_DEVELOPMENT"))
  then Failed "API_KEY environment variable is not set"
  else Loaded (jsOr API_KEY (JStr "FAKE_API_KEY_FOR_DEVELOPMENT")).

End ServiceInit.

(** ** More vocabulary of the review workflow *)

Module ReviewActionsSpec.
Import Types Review ReviewSpec.

(** The handler that toggles a row of a collection. *)
Definition toggleOf (c : Collection) (st : State) (idx : nat) : list Update :=
  match c with
  | bank => toggleBankSelection st idx
  | ledger => toggleLedgerSelection st idx
  end.

(** The handler behind the badge of a row of a collection. *)
Definition clearSingleOf (c : Collection) (st : State) (idx : nat)
    : list Update :=
  match c with
  | bank => clearSingleBankStatus st idx
  | ledger => clearSingleLedgerStatus st idx
  end.

(** The unmatched rows of a collection. *)
Definition rowsOf (c : Collection) (result : ReconciliationResult)
    : list Transaction :=
  match c with
  | bank => unmatchedBankTransactions result
  | ledger => unmatchedLedgerEntries result
  end.

(** The status a row is shown with: [statuses[idx] || 'default']. *)
Definition shown (statuses : gmap nat Status) (idx : nat) : Status :=
  default Default (statuses !! idx).

End ReviewActionsSpec.

(** ** Reading a CSV row back *)

Module CsvSpec.
Import Csv.

(** Where a reader of quoted fields stands: before the first field, inside
    a field, behind a quote met inside a field (the first of a doubled
    quote or the end of the field), behind a comma. *)
Inductive Mode : Type := Start | Inside | Pending | AfterComma.

(** Puts [c] in front of the field being read. *)
Definition push (c : ascii) (fields : list string) : option (list string) :=
  match fields with
  | [] => None
  | f :: fs => Some (String c f :: fs)
  end.

(** Reads a row of quoted, comma-separated fields, doubled quotes standing
    for one quote.  The first field of the result is the rest of the field
    being read, if there is one. *)
Fixpoint readRow (mode : Mode) (s : string) : option (list string) :=
  match s with
  | EmptyString =>
      match mode with
      | Start => Some []
      | Pending => Some [EmptyString]
      | Inside | AfterComma => None
      end
  | String c s' =>
      match mode with
      | Start | AfterComma =>
          if Ascii.eqb c quote then readRow Inside s' else None
      | Inside =>
          if Ascii.eqb c quote then readRow Pending s'
          else readRow Inside s' ≫= push c
      | Pending =>
          if Ascii.eqb c quote then readRow Inside s' ≫= push quote
          else if Ascii.eqb c ","%char
               then cons EmptyString <$> readRow AfterComma s'
               else None
      end
  end.

(** The characters a sanitized company name is made of. *)
Definition isSafe (c : ascii) : bool :=
  let n := N_of_ascii c in
  ((48 <=? n) && (n <=? 57) || (97 <=? n) && (n <=? 122) || (n =? 95))%N.

(** [toLowerCase] on ASCII text. *)
Definition lowerAscii (c : ascii) : ascii :=
  let n := N_of_ascii c in
  if ((65 <=? n) && (n <=? 90))%N then ascii_of_N (n + 32) else c.

Fixpoint asciiToLower (s : string) : string :=
  match s with
  | EmptyString => EmptyString
  | String c s' => String (lowerAscii c) (asciiToLower s')
  end.

Definition isAscii (s : string) : Prop :=
  Forall (fun c => (N_of_ascii c < 128)%N) (String.list_ascii_of_string s).

End CsvSpec.

(** ** Bounded binary64 numbers *)

Module Bounded.

(** A number that is neither [NaN] nor infinite. *)
Definition bounded_number (x : spec_float) : bool :=
  match x with S754_zero _ | S754_finite _ _ _ => true | _ => false end.

End Bounded.

(** ** The returned object as a JavaScript value *)

Module Returned.
Import Service.

Definition txValue (t : Tx) : JsVal := JObj (txObject t).

Definition pairValue (p : Pair) : JsVal :=
  JObj (<["ledgerTransaction" := txValue (ledgerTransaction p)]>
       (<["bankTransaction" := txValue (bankTransaction p)]> ∅)).

Definition resultValue (r : Sanitized) : JsVal :=
  JObj (<["unmatchedLedgerEntries" := JArr (txValue <$> unmatchedLedgerEntries r)]>
       (<["unmatchedBankTransactions" :=
            JArr (txValue <$> unmatchedBankTransactions r)]>
       (<["matchedTransactions" := JArr (pairValue <$> matchedTransactions r)]>
       (<["summary" := JObj (summaryObject (summary r))]> ∅)))).

End Returned.

(** ** More concrete inputs *)

Module Sample.
Import Types.

(** A review in which the second bank item is under investigation and
    nothing is selected. *)
Definition review : Review.State :=
  Review.mkState ∅ ∅ {[1%nat := Investigating]} ∅.

(** Two unmatched bank items and nothing else. *)
Definition result : ReconciliationResult :=
  mkResult (mkSummary 0 2 0 0 425 0 0 0 "2024-03-31") []
    [Scenario.fee; Scenario.transfer] [].

Definition selectedOnly : PdfExportConfig := mkConfig true true true true true.

Definition everything : PdfExportConfig := mkConfig true true true true false.

(** The first section of the report for [result]. *)
Definition summarySection : Download.Section_ :=
  Download.mkSection "1. Executive Summary"
    ["Metric"; "Transaction Count"; "Net Value (GHS)"]
    [[Download.Text "Successfully Matched"; Download.Number 0;
      Download.Text "GHS 0.00"];
     [Download.Text "Outstanding Bank Items"; Download.Number 2;
      Download.Text "GHS 0.00"];
     [Download.Text "Outstanding Ledger Items"; Download.Number 0;
      Download.Text "GHS 0.00"]].

(** Three matched pairs and one unmatched item on either side. *)
Definition counts : list Charts.Datum :=
  Charts.donutData (mkSummary 3 1 1 0 0 0 0 0 "2024-03-31").

End Sample.

(** * Properties *)

(** ** Facts about binary64 arithmetic *)

Lemma is_zero_abs x : is_zero x = true -> abs x = 0.
Proof.
  intros H. apply Prim2SF_inj. rewrite abs_spec.
  unfold is_zero in H. rewrite FloatAxioms.eqb_spec in H.
  destruct (Prim2SF x) as [s|s| |s m e]; try destruct s; try discriminate H;
    reflexivity.
Qed.

Lemma abs_nonneg x : is_nan x = false -> (0 <=? abs x) = true.
Proof.
  intros H. rewrite leb_spec, abs_spec.
  unfold is_nan in H. rewrite FloatAxioms.eqb_spec in H.
  destruct (Prim2SF x) as [s|s| |s m e]; try destruct s; try discriminate H;
    reflexivity.
Qed.

Lemma abs_is_nan x : is_nan (abs x) = is_nan x.
Proof.
  unfold is_nan. rewrite !FloatAxioms.eqb_spec, abs_spec.
  destruct (Prim2SF x) as [s|s| |s m e]; try reflexivity.
  - by destruct s.
  - unfold SFeqb, SFabs, SFcompare.
    rewrite Z.compare_refl, Pos.compare_cont_refl. by destruct s.
Qed.

Lemma nonneg_is_number x : (0 <=? x) = true -> is_nan x = false.
Proof.
  rewrite leb_spec. unfold is_nan. rewrite FloatAxioms.eqb_spec.
  destruct (Prim2SF x) as [s|s| |s m e]; try destruct s; try discriminate;
    intros _; try reflexivity.
  all: unfold SFeqb, SFcompare;
    by rewrite Z.compare_refl, Pos.compare_cont_refl.
Qed.

Lemma absOrZero_nonneg x : (0 <=? Spec.absOrZero x) = true.
Proof.
  unfold Spec.absOrZero. destruct (is_nan x) eqn:E.
  - reflexivity.
  - by apply abs_nonneg.
Qed.

(** The comparison of two numbers agrees with the comparison of their
    integer keys, and so does the sign of their rounded difference: the
    difference of two distinct numbers is a non-zero multiple of
    [2 ^ emin], which rounding cannot turn into a zero. *)

Section FloatOrder.
Import Binary64.
Local Open Scope Z_scope.

Lemma digits2_size m : digits2_pos m = Pos.size m.
Proof. induction m; simpl; congruence. Qed.

Lemma digits2_bounds m :
  2 ^ (Zpos (digits2_pos m) - 1) <= Zpos m < 2 ^ Zpos (digits2_pos m).
Proof.
  rewrite digits2_size. split.
  - pose proof (Pos.size_le m) as H.
    assert (H' : 2 ^ Zpos (Pos.size m) <= 2 * Zpos m).
    { rewrite <- Pos2Z.inj_pow. apply Pos2Z.pos_le_pos in H. lia. }
    replace (Zpos (Pos.size m)) with (Z.succ (Zpos (Pos.size m) - 1)) in H' by lia.
    rewrite Z.pow_succ_r in H' by lia. lia.
  - pose proof (Pos.size_gt m) as H. rewrite <- Pos2Z.inj_pow. lia.
Qed.

Lemma shr_1_m mrs : 0 <= shr_m mrs -> shr_m (shr_1 mrs) = Z.div2 (shr_m mrs).
Proof. destruct mrs as [[|[p|p|]|p] r s]; simpl; try done; lia. Qed.

Lemma pow2_xO p : 2 ^ Zpos p~0 = 2 ^ Zpos p * 2 ^ Zpos p.
Proof. change (Zpos p~0) with (2 * Zpos p). apply Z.pow_twice_r. Qed.

Lemma pow2_xI p : 2 ^ Zpos p~1 = 2 * (2 ^ Zpos p * 2 ^ Zpos p).
Proof.
  change (Zpos p~1) with (1 + 2 * Zpos p).
  rewrite Z.pow_add_r by lia. rewrite Z.pow_1_r, Z.pow_twice_r. done.
Qed.

Lemma iter_shr_m p mrs :
  0 <= shr_m mrs -> shr_m (SpecFloat.iter_pos shr_1 p mrs) = shr_m mrs / 2 ^ Zpos p.
Proof.
  revert mrs. induction p as [p IH|p IH|]; intros mrs Hm; simpl.
  - assert (H1 : 0 <= shr_m (shr_1 mrs)).
    { rewrite shr_1_m by done. rewrite Z.div2_div. apply Z.div_pos; lia. }
    assert (H2 : 0 <= shr_m (SpecFloat.iter_pos shr_1 p (shr_1 mrs))).
    { rewrite IH by done. apply Z.div_pos; lia. }
    rewrite IH, IH, shr_1_m by done. rewrite Z.div2_div.
    rewrite !Z.div_div by lia. by rewrite pow2_xI.
  - assert (H2 : 0 <= shr_m (SpecFloat.iter_pos shr_1 p mrs)).
    { rewrite IH by done. apply Z.div_pos; lia. }
    rewrite IH, IH by done. rewrite Z.div_div by lia. by rewrite pow2_xO.
  - rewrite shr_1_m by done. rewrite Z.div2_div. done.
Qed.



Lemma fexp_ge_emin e : emin <= fexp prec emax e.
Proof. unfold fexp, emin. lia. Qed.

(** Shifting a positive mantissa to its canonical exponent leaves a positive
    mantissa, provided the exponent is not below [emin]. *)
Lemma shr_fexp_pos m e l :
  emin <= e ->
  exists m' r s e',
    shr_fexp prec emax (Zpos m) e l = (Build_shr_record (Zpos m') r s, e')
    /\ emin <= e'.
Proof.
  intros He. unfold shr_fexp, shr.
  set (mrs := shr_record_of_loc (Zpos m) l).
  assert (Hmrs : shr_m mrs = Zpos m) by (by destruct l as [|[]]).
  cbn [Zdigits2].
  destruct (fexp prec emax (Zpos (digits2_pos m) + e) - e) as [|n|n] eqn:En.
  - destruct mrs as [mm r s]. simpl in Hmrs. subst mm. by exists m, r, s, e.
  - assert (Hn : Zpos n = Zpos (digits2_pos m) - prec).
    { unfold fexp, emin in *. lia. }
    pose proof (iter_shr_m n mrs ltac:(lia)) as Hit. rewrite Hmrs in Hit.
    pose proof (digits2_bounds m) as [Hlo _].
    assert (Hpos : 0 < Zpos m / 2 ^ Zpos n).
    { apply Z.div_str_pos. split; [lia|].
      eapply Z.le_trans; [|exact Hlo].
      apply Z.pow_le_mono_r; [lia|]. rewrite Hn. unfold prec, FloatOps.prec. lia. }
    destruct (SpecFloat.iter_pos shr_1 n mrs) as [mm r s]. simpl in Hit.
    destruct mm as [|mm|mm]; try lia.
    exists mm, r, s, (e + Zpos n). split; [done|lia].
  - destruct mrs as [mm r s]. simpl in Hmrs. subst mm. by exists m, r, s, e.
Qed.

Lemma round_nearest_even_pos m l :
  exists m', round_nearest_even (Zpos m) l = Zpos m'.
Proof.
  destruct l as [|[]]; cbn [round_nearest_even].
  - by exists m.
  - destruct (Z.even (Zpos m)); [by exists m|by exists (m + 1)%positive].
  - by exists m.
  - by exists (m + 1)%positive.
Qed.

(** Rounding a positive mantissa never yields a zero or a NaN. *)
Lemma binary_round_aux_sign sx m e l :
  emin <= e ->
  (exists m' e', binary_round_aux prec emax sx (Zpos m) e l = S754_finite sx m' e')
  \/ binary_round_aux prec emax sx (Zpos m) e l = S754_infinity sx.
Proof.
  intros He. unfold binary_round_aux.
  destruct (shr_fexp_pos m e l He) as (m1 & r1 & s1 & e1 & -> & He1).
  cbn [shr_m].
  destruct (round_nearest_even_pos m1 (loc_of_shr_record {| shr_m := Zpos m1; shr_r := r1; shr_s := s1 |}))
    as (m2 & ->).
  destruct (shr_fexp_pos m2 e1 loc_Exact He1) as (m3 & r3 & s3 & e3 & -> & He3).
  cbn [shr_m]. destruct (e3 <=? _); eauto.
Qed.

Lemma shl_align_exp m e e' :
  emin <= e -> emin <= e' -> emin <= snd (shl_align m e e').
Proof. intros. unfold shl_align. by destruct (e' - e). Qed.

Lemma binary_round_sign sx m e :
  emin <= e ->
  (exists m' e', binary_round prec emax sx m e = S754_finite sx m' e')
  \/ binary_round prec emax sx m e = S754_infinity sx.
Proof.
  intros He. unfold binary_round.
  pose proof (shl_align_exp m e (fexp prec emax (Zpos (digits2_pos m) + e)) He
                (fexp_ge_emin _)) as H.
  destruct (shl_align _ _ _) as [mz ez]. by apply binary_round_aux_sign.
Qed.

(** The sign of a rounded integer multiple of [2 ^ e] is the sign of the
    integer. *)
Lemma binary_normalize_pos z e :
  emin <= e ->
  SFltb (S754_zero false) (binary_normalize prec emax z e false) = (0 <? z).
Proof.
  intros He. destruct z as [|m|m]; simpl; [done| |].
  - by destruct (binary_round_sign false m e He) as [(m' & e' & ->)| ->].
  - by destruct (binary_round_sign true m e He) as [(m' & e' & ->)| ->].
Qed.

Lemma iter_xO_value d m : Zpos (Pos.iter xO m d) = Zpos m * 2 ^ Zpos d.
Proof.
  induction d as [|d IH] using Pos.peano_ind.
  - simpl. lia.
  - rewrite Pos.iter_succ, Pos2Z.inj_xO, IH, Pos2Z.inj_succ.
    rewrite Z.pow_succ_r by lia. lia.
Qed.

Lemma shl_align_value m e ez :
  ez <= e -> Zpos (fst (shl_align m e ez)) = Zpos m * 2 ^ (e - ez).
Proof.
  intros Hle. unfold shl_align. destruct (ez - e) as [|d|d] eqn:Ed.
  - replace (e - ez) with 0 by lia. simpl. lia.
  - lia.
  - simpl. rewrite iter_xO_value. f_equal. f_equal. lia.
Qed.

Lemma bounded_facts m e :
  bounded prec emax m e = true ->
  emin <= e <= emax - prec
  /\ Zpos (digits2_pos m) <= prec
  /\ (emin < e -> Zpos (digits2_pos m) = prec).
Proof.
  unfold bounded, canonical_mantissa, fexp, emin.
  intros [H1 H2]%andb_prop. apply Z.eqb_eq in H1. apply Z.leb_le in H2.
  lia.
Qed.

Lemma key_finite_bounds m e :
  bounded prec emax m e = true ->
  0 < Zpos m * 2 ^ (e - emin) < 2 ^ (emax - emin).
Proof.
  intros (He & Hd & _)%bounded_facts.
  pose proof (digits2_bounds m) as [_ Hm].
  assert (0 < 2 ^ (e - emin)) by (apply Z.pow_pos_nonneg; lia).
  split; [lia|].
  apply Z.lt_le_trans with (2 ^ prec * 2 ^ (e - emin)).
  - apply Z.mul_lt_mono_pos_r; [done|].
    eapply Z.lt_le_trans; [exact Hm|]. apply Z.pow_le_mono_r; lia.
  - rewrite <- Z.pow_add_r by (unfold prec, FloatOps.prec; lia).
    apply Z.pow_le_mono_r; lia.
Qed.

Lemma compare_finite_key m1 e1 m2 e2 :
  bounded prec emax m1 e1 = true -> bounded prec emax m2 e2 = true ->
  match e1 ?= e2 with
  | Eq => Pos.compare_cont Eq m1 m2
  | Lt => Lt
  | Gt => Gt
  end = (Zpos m1 * 2 ^ (e1 - emin) ?= Zpos m2 * 2 ^ (e2 - emin)).
Proof.
  intros (He1 & Hd1 & Hn1)%bounded_facts (He2 & Hd2 & Hn2)%bounded_facts.
  pose proof (digits2_bounds m1) as [Hlo1 Hhi1].
  pose proof (digits2_bounds m2) as [Hlo2 Hhi2].
  assert (Hstep : forall ma ea mb eb,
            emin <= ea -> ea < eb ->
            Zpos ma < 2 ^ prec -> 2 ^ (prec - 1) <= Zpos mb ->
            Zpos ma * 2 ^ (ea - emin) < Zpos mb * 2 ^ (eb - emin)).
  { intros ma ea mb eb Hea Hlt Hma Hmb.
    replace (eb - emin) with ((eb - ea) + (ea - emin)) by lia.
    rewrite Z.pow_add_r by lia.
    assert (0 < 2 ^ (ea - emin)) by (apply Z.pow_pos_nonneg; lia).
    assert (2 ^ 1 <= 2 ^ (eb - ea)) by (apply Z.pow_le_mono_r; lia).
    assert (2 ^ prec = 2 ^ (prec - 1) * 2 ^ 1).
    { rewrite <- Z.pow_add_r by (unfold prec, FloatOps.prec; lia).
      f_equal; lia. }
    rewrite Z.mul_assoc. apply Z.mul_lt_mono_pos_r; [done|]. nia. }
  assert (Hp1 : Zpos m1 < 2 ^ prec).
  { eapply Z.lt_le_trans; [exact Hhi1|]. apply Z.pow_le_mono_r; lia. }
  assert (Hp2 : Zpos m2 < 2 ^ prec).
  { eapply Z.lt_le_trans; [exact Hhi2|]. apply Z.pow_le_mono_r; lia. }
  destruct (Z.compare_spec e1 e2) as [->|Hlt|Hgt].
  - assert (0 < 2 ^ (e2 - emin)) by (apply Z.pow_pos_nonneg; lia).
    change (Pos.compare_cont Eq m1 m2) with (Zpos m1 ?= Zpos m2).
    apply Zmult_compare_compat_r. lia.
  - symmetry. apply Z.compare_lt_iff. apply Hstep; try lia.
    rewrite <- Hn2 by lia. done.
  - symmetry. apply Z.compare_gt_iff. apply Hstep; try lia.
    rewrite <- Hn1 by lia. done.
Qed.

Lemma SFcompare_key x y :
  SpecFloat.valid_binary prec emax x = true ->
  SpecFloat.valid_binary prec emax y = true ->
  is_number x = true -> is_number y = true ->
  SFcompare x y = Some (key x ?= key y).
Proof.
  intros Hx Hy Nx Ny.
  assert (Hinf : 0 < 2 ^ (emax - emin)) by (by apply Z.pow_pos_nonneg).
  destruct x as [sx|sx| |sx mx ex], y as [sy|sy| |sy my ey];
    try discriminate; cbn [SpecFloat.valid_binary] in Hx, Hy;
    try pose proof (key_finite_bounds _ _ Hx) as Kx;
    try pose proof (key_finite_bounds _ _ Hy) as Ky;
    cbn [SFcompare key]; f_equal;
    try (destruct sx); try (destruct sy); cbn [cond_Zopp];
    try (symmetry;
         first [ apply Z.compare_eq_iff; lia
               | apply Z.compare_lt_iff; lia
               | apply Z.compare_gt_iff; lia ]).
  - rewrite Z.compare_opp.
    rewrite (Z.compare_antisym (Zpos mx * _) (Zpos my * _)).
    rewrite <- (compare_finite_key _ _ _ _ Hx Hy).
    by destruct (ex ?= ey).
  - apply (compare_finite_key _ _ _ _ Hx Hy).
Qed.

Lemma ltb_scale a b p : 0 < p -> (0 <? b - a) = (a * p <? b * p).
Proof.
  intros Hp. destruct (Z.ltb_spec 0 (b - a)), (Z.ltb_spec (a * p) (b * p));
    try done; nia.
Qed.

Lemma cond_Zopp_mul s a p : cond_Zopp s a * p = cond_Zopp s (a * p).
Proof. destruct s; simpl; lia. Qed.

(** The sign of a difference: [y - x] is positive exactly when [x] is below
    [y]. *)
Lemma SFsub_pos x y :
  SpecFloat.valid_binary prec emax x = true ->
  SpecFloat.valid_binary prec emax y = true ->
  is_number x = true -> is_number y = true ->
  SFltb (S754_zero false) (SFsub prec emax y x) = (key x <? key y).
Proof.
  intros Hx Hy Nx Ny.
  assert (Hinf : 0 < 2 ^ (emax - emin)) by (by apply Z.pow_pos_nonneg).
  destruct x as [sx|sx| |sx mx ex], y as [sy|sy| |sy my ey];
    try discriminate; cbn [SpecFloat.valid_binary] in Hx, Hy;
    try pose proof (key_finite_bounds _ _ Hx) as Kx;
    try pose proof (key_finite_bounds _ _ Hy) as Ky;
    cbn [SFsub key];
    try (try (destruct sx); try (destruct sy);
         cbn [cond_Zopp negb SFltb SFcompare]; symmetry;
         first [ apply Z.ltb_lt; lia | apply Z.ltb_ge; lia ]).
  apply bounded_facts in Hx as (Hex & _), Hy as (Hey & _).
  rewrite binary_normalize_pos by lia.
  rewrite !shl_align_value by lia.
  rewrite (ltb_scale _ _ (2 ^ (Z.min ey ex - emin)))
    by (apply Z.pow_pos_nonneg; lia).
  rewrite !cond_Zopp_mul, <- !Z.mul_assoc, <- !Z.pow_add_r by lia.
  by replace (ex - Z.min ey ex + (Z.min ey ex - emin)) with (ex - emin) by lia;
     replace (ey - Z.min ey ex + (Z.min ey ex - emin)) with (ey - emin) by lia.
Qed.


Lemma is_nan_number x : is_nan x = false -> is_number (Prim2SF x) = true.
Proof.
  unfold is_nan. rewrite FloatAxioms.eqb_spec.
  by destruct (Prim2SF x).
Qed.

Lemma ltb_rank x y :
  is_nan x = false -> is_nan y = false -> (x <? y)%float = (rank x <? rank y).
Proof.
  intros Hx%is_nan_number Hy%is_nan_number.
  rewrite ltb_spec. unfold SFltb, rank.
  rewrite (SFcompare_key _ _ (Prim2SF_valid x) (Prim2SF_valid y) Hx Hy).
  unfold Z.ltb. by destruct (_ ?= _).
Qed.

Lemma leb_rank x y :
  is_nan x = false -> is_nan y = false -> (x <=? y)%float = (rank x <=? rank y).
Proof.
  intros Hx%is_nan_number Hy%is_nan_number.
  rewrite leb_spec. unfold SFleb, rank.
  rewrite (SFcompare_key _ _ (Prim2SF_valid x) (Prim2SF_valid y) Hx Hy).
  unfold Z.leb. by destruct (_ ?= _).
Qed.

Lemma eqb_rank x y :
  is_nan x = false -> is_nan y = false -> (x =? y)%float = (rank x =? rank y).
Proof.
  intros Hx%is_nan_number Hy%is_nan_number.
  rewrite FloatAxioms.eqb_spec. unfold SFeqb, rank.
  rewrite (SFcompare_key _ _ (Prim2SF_valid x) (Prim2SF_valid y) Hx Hy).
  destruct (Z.compare_spec (key (Prim2SF x)) (key (Prim2SF y)));
    symmetry; [apply Z.eqb_eq|apply Z.eqb_neq|apply Z.eqb_neq]; lia.
Qed.

Lemma sub_pos_rank x y :
  is_nan x = false -> is_nan y = false ->
  (0 <? y - x)%float = (rank x <? rank y).
Proof.
  intros Hx%is_nan_number Hy%is_nan_number.
  rewrite ltb_spec, sub_spec.
  apply (SFsub_pos _ _ (Prim2SF_valid x) (Prim2SF_valid y) Hx Hy).
Qed.

Lemma sub_self_not_pos x : (0 <? x - x)%float = false.
Proof.
  destruct (is_nan x) eqn:E.
  - rewrite ltb_spec, sub_spec. unfold is_nan in E.
    rewrite FloatAxioms.eqb_spec in E.
    destruct (Prim2SF x) as [s|s| |s m e]; try destruct s; try discriminate E;
      try reflexivity.
    all: unfold SFeqb, SFcompare in E;
      rewrite Z.compare_refl, Pos.compare_cont_refl in E; discriminate E.
  - rewrite sub_pos_rank by done. apply Z.ltb_irrefl.
Qed.

Lemma number_is_nan x : is_number (Prim2SF x) = true -> is_nan x = false.
Proof.
  intros H. unfold is_nan. rewrite FloatAxioms.eqb_spec. unfold SFeqb.
  rewrite (SFcompare_key _ _ (Prim2SF_valid x) (Prim2SF_valid x) H H).
  by rewrite Z.compare_refl.
Qed.

Lemma eqb_true_rank x y :
  (x =? y)%float = true ->
  is_nan x = false /\ is_nan y = false /\ rank x = rank y.
Proof.
  rewrite FloatAxioms.eqb_spec. intros H.
  assert (Hx : is_number (Prim2SF x) = true).
  { by destruct (Prim2SF x). }
  assert (Hy : is_number (Prim2SF y) = true).
  { by destruct (Prim2SF x), (Prim2SF y). }
  repeat split; try by apply number_is_nan.
  unfold SFeqb in H.
  rewrite (SFcompare_key _ _ (Prim2SF_valid x) (Prim2SF_valid y) Hx Hy) in H.
  apply Z.compare_eq. by destruct (_ ?= _).
Qed.

End FloatOrder.


(** ** The sanitizer *)

Section SanitizerFacts.
Import Service Spec.

Variable parseFloat : JsVal -> Result float.

Lemma bind_Ok {A B} (m : Result A) (f : A -> Result B) (r : B) :
  m ≫= f = Ok r -> exists a, m = Ok a /\ f a = Ok r.
Proof. destruct m as [a|e]; [exists a; split; [done|assumption] | discriminate]. Qed.

Lemma mapR_Ok {A B} (f : A -> Result B) l k :
  mapR f l = Ok k <-> Forall2 (fun x y => f x = Ok y) l k.
Proof.
  split.
  - revert k. induction l as [|x l IH]; intros k H; simpl in H.
    + injection H as <-. constructor.
    + apply bind_Ok in H as (y & Hy & H).
      apply bind_Ok in H as (ys & Hys & H).
      injection H as <-. constructor; auto.
  - induction 1 as [|x y l k Hxy _ IH]; simpl; [done|].
    rewrite Hxy. simpl. rewrite IH. done.
Qed.

Lemma getProp_Ok v k a :
  getProp v k = Ok a ->
  nullish v = false /\ a = default JUndefined (ownProps v !! k).
Proof.
  unfold getProp. destruct (nullish v); [discriminate|].
  intros [= <-]. done.
Qed.

Lemma collection_Ok {B} raw k (f : JsVal -> Result B) out :
  collection raw k f = Ok out ->
  nullish raw = false /\ Forall2 (fun x y => f x = Ok y) (rawCollection raw k) out.
Proof.
  unfold collection, rawCollection, field. intros H.
  apply bind_Ok in H as (c & Hc & H).
  apply getProp_Ok in Hc as [Hn ->]. split; [done|].
  destruct (jsOr _ _) eqn:E; simpl in H; try discriminate H.
  by apply mapR_Ok.
Qed.

Lemma parseAmount_Ok a n :
  parseAmount parseFloat a = Ok n ->
  exists x, parseFloat a = Ok x /\ n = absOrZero x.
Proof.
  unfold parseAmount. intros H. apply bind_Ok in H as (x & Hx & H).
  exists x. split; [done|]. injection H as <-.
  unfold absOrZero. simpl. destruct (is_nan x) eqn:En; simpl; [done|].
  destruct (is_zero x) eqn:Ez; simpl; [|done].
  by rewrite is_zero_abs.
Qed.

Lemma withParsedAmount_Ok v t :
  withParsedAmount parseFloat v = Ok t ->
  nullish v = false /\ others t = delete "amount" (ownProps v)
  /\ coerces parseFloat v t.
Proof.
  unfold withParsedAmount. intros H.
  apply bind_Ok in H as (a & Ha & H). apply getProp_Ok in Ha as [Hn ->].
  apply bind_Ok in H as (n & Hp & H). injection H as <-.
  apply parseAmount_Ok in Hp as (x & Hx & ->).
  repeat split; [done|]. by exists x.
Qed.

Lemma sanitizePair_Ok p out :
  sanitizePair parseFloat p = Ok out ->
  nullish p = false
  /\ withParsedAmount parseFloat (field p "bankTransaction") = Ok (bankTransaction out)
  /\ withParsedAmount parseFloat (field p "ledgerTransaction") = Ok (ledgerTransaction out).
Proof.
  unfold sanitizePair. intros H.
  apply bind_Ok in H as (b & Hb & H). apply getProp_Ok in Hb as [Hn ->].
  apply bind_Ok in H as (bk & Hbk & H).
  apply bind_Ok in H as (l & Hl & H). apply getProp_Ok in Hl as [_ ->].
  apply bind_Ok in H as (lg & Hlg & H). injection H as <-. done.
Qed.

(** What a successful run of [sanitize] returns. *)
Lemma sanitize_Ok raw r :
  sanitize parseFloat raw = Ok r ->
  nullish raw = false
  /\ Forall2 (fun x y => sanitizePair parseFloat x = Ok y)
       (rawCollection raw "matchedTransactions") (matchedTransactions r)
  /\ Forall2 (fun x y => withParsedAmount parseFloat x = Ok y)
       (rawCollection raw "unmatchedBankTransactions") (unmatchedBankTransactions r)
  /\ Forall2 (fun x y => withParsedAmount parseFloat x = Ok y)
       (rawCollection raw "unmatchedLedgerEntries") (unmatchedLedgerEntries r)
  /\ summary r =
       mkSummary
         (foldr delete (ownProps (default JUndefined (ownProps raw !! "summary")))
            recomputed)
         (length (matchedTransactions r))
         (length (unmatchedBankTransactions r))
         (length (unmatchedLedgerEntries r))
         (sumBy (fun i => amount (bankTransaction i)) (matchedTransactions r))
         (sumBy amount (unmatchedBankTransactions r))
         (sumBy amount (unmatchedLedgerEntries r)).
Proof.
  unfold sanitize. intros H.
  apply bind_Ok in H as (m & Hm & H). apply collection_Ok in Hm as [Hn Hm].
  apply bind_Ok in H as (b & Hb & H). apply collection_Ok in Hb as [_ Hb].
  apply bind_Ok in H as (l & Hl & H). apply collection_Ok in Hl as [_ Hl].
  apply bind_Ok in H as (s & Hs & H). apply getProp_Ok in Hs as [_ ->].
  injection H as <-. simpl. done.
Qed.

End SanitizerFacts.

Section SanitizerProperties.
Import Service Spec.

Variable parseFloat : JsVal -> Result float.

Lemma total_nil : total [] = 0.
Proof. reflexivity. Qed.

Lemma total_snoc l x : total (l ++ [x]) = total l + x.
Proof. unfold total. by rewrite reverse_snoc. Qed.

Lemma sumBy_from {A} (g : A -> float) (l : list A) (start : float) :
  fold_left (fun s i => s + g i) l start
  = foldr (fun x s => s + x) start (reverse (g <$> l)).
Proof.
  revert start. induction l as [|i l IH]; intros start; [done|].
  cbn [fold_left]. rewrite IH, fmap_cons, reverse_cons, foldr_app. done.
Qed.

Lemma sumBy_total {A} (g : A -> float) (l : list A) :
  sumBy g l = total (g <$> l).
Proof. apply sumBy_from. Qed.

Lemma coerces_coercedAmount raws txs :
  Forall2 (coerces parseFloat) raws txs ->
  mapM (coercedAmount parseFloat) raws = Some (amount <$> txs).
Proof.
  intros H. apply mapM_Some. apply Forall2_fmap_r.
  eapply Forall2_impl; [exact H|]. intros v t (x & Hx & Ht).
  unfold coercedAmount. rewrite Hx. f_equal. symmetry. exact Ht.
Qed.

Lemma sanitize_bank_legs raw r :
  sanitize parseFloat raw = Ok r ->
  Forall2 (coerces parseFloat) (rawBankLegs raw)
    (bankTransaction <$> matchedTransactions r).
Proof.
  intros H. apply sanitize_Ok in H as (_ & Hm & _).
  unfold rawBankLegs. apply Forall2_fmap.
  eapply Forall2_impl; [exact Hm|]. intros p out Hp.
  apply sanitizePair_Ok in Hp as (_ & H1 & _).
  by apply withParsedAmount_Ok in H1 as (_ & _ & H1).
Qed.

Lemma sanitize_unmatched raw r :
  sanitize parseFloat raw = Ok r ->
  Forall2 (coerces parseFloat)
    (rawCollection raw "unmatchedBankTransactions") (unmatchedBankTransactions r)
  /\ Forall2 (coerces parseFloat)
       (rawCollection raw "unmatchedLedgerEntries") (unmatchedLedgerEntries r).
Proof.
  intros H. apply sanitize_Ok in H as (_ & _ & Hb & Hl & _).
  split; (eapply Forall2_impl; [eassumption|]); intros v t Hvt;
    by apply withParsedAmount_Ok in Hvt as (_ & _ & Hvt).
Qed.

(** C1.  Whenever the sanitizer accepts a raw input, the three counts of the
    returned summary are the lengths of the three sanitized collections,
    which are the lengths of the raw ones; [matchedTotal] is the sum, from
    left to right, of the bank legs' amounts of the sanitized matched
    pairs, and the two unmatched totals are the sums of the amounts of
    their sanitized collections; and each total is the sum of the coerced
    amounts of the raw values it comes from: the bank legs of the raw
    matched pairs, the raw unmatched bank transactions and the raw
    unmatched ledger entries. *)
Theorem summary_recomputed raw r :
  sanitize parseFloat raw = Ok r ->
  (matchedCount (summary r) = length (matchedTransactions r)
   /\ unmatchedBankCount (summary r) = length (unmatchedBankTransactions r)
   /\ unmatchedLedgerCount (summary r) = length (unmatchedLedgerEntries r))
  /\ (matchedCount (summary r)
      = length (rawCollection raw "matchedTransactions")
      /\ unmatchedBankCount (summary r)
         = length (rawCollection raw "unmatchedBankTransactions")
      /\ unmatchedLedgerCount (summary r)
         = length (rawCollection raw "unmatchedLedgerEntries"))
  /\ (matchedTotal (summary r)
      = total ((fun p => amount (bankTransaction p)) <$> matchedTransactions r)
      /\ unmatchedBankTotal (summary r)
         = total (amount <$> unmatchedBankTransactions r)
      /\ unmatchedLedgerTotal (summary r)
         = total (amount <$> unmatchedLedgerEntries r))
  /\ (rawTotal parseFloat (rawBankLegs raw) = Some (matchedTotal (summary r))
      /\ rawTotal parseFloat (rawCollection raw "unmatchedBankTransactions")
         = Some (unmatchedBankTotal (summary r))
      /\ rawTotal parseFloat (rawCollection raw "unmatchedLedgerEntries")
         = Some (unmatchedLedgerTotal (summary r))).
Proof.
  intros H.
  pose proof (sanitize_bank_legs raw r H) as Hlegs.
  destruct (sanitize_unmatched raw r H) as [Hbank Hledger].
  apply sanitize_Ok in H as (_ & Hm & Hb & Hl & ->).
  cbn [summary matchedCount unmatchedBankCount unmatchedLedgerCount
       matchedTotal unmatchedBankTotal unmatchedLedgerTotal].
  rewrite !sumBy_total.
  split; [done|]. split.
  { by rewrite (Forall2_length _ _ _ Hm), (Forall2_length _ _ _ Hb),
      (Forall2_length _ _ _ Hl). }
  split; [done|].
  unfold rawTotal.
  rewrite (coerces_coercedAmount _ _ Hlegs), (coerces_coercedAmount _ _ Hbank),
    (coerces_coercedAmount _ _ Hledger).
  cbn [fmap option_fmap option_map]. by rewrite <- list_fmap_compose.
Qed.

Lemma coerces_nonneg v t : coerces parseFloat v t -> (0 <=? amount t) = true.
Proof. intros (x & _ & ->). apply absOrZero_nonneg. Qed.

Lemma sanitize_coerces raw r :
  sanitize parseFloat raw = Ok r ->
  Forall2 (fun p out =>
             coerces parseFloat (field p "bankTransaction") (bankTransaction out)
             /\ coerces parseFloat (field p "ledgerTransaction") (ledgerTransaction out))
    (rawCollection raw "matchedTransactions") (matchedTransactions r)
  /\ Forall2 (coerces parseFloat)
       (rawCollection raw "unmatchedBankTransactions") (unmatchedBankTransactions r)
  /\ Forall2 (coerces parseFloat)
       (rawCollection raw "unmatchedLedgerEntries") (unmatchedLedgerEntries r).
Proof.
  intros H. apply sanitize_Ok in H as (_ & Hm & Hb & Hl & _).
  assert (Hc : forall l k,
             Forall2 (fun x y => withParsedAmount parseFloat x = Ok y) l k ->
             Forall2 (coerces parseFloat) l k).
  { intros l k Hlk. eapply Forall2_impl; [exact Hlk|]. intros x y Hxy.
    by apply withParsedAmount_Ok in Hxy as (_ & _ & Hxy). }
  split; [|split]; [|by apply Hc..].
  eapply Forall2_impl; [exact Hm|]. intros p out Hp.
  apply sanitizePair_Ok in Hp as (_ & H1 & H2).
  apply withParsedAmount_Ok in H1 as (_ & _ & H1).
  by apply withParsedAmount_Ok in H2 as (_ & _ & H2).
Qed.

(** C4.  In a sanitized result every transaction, in the two legs of the
    matched pairs and in the two unmatched collections, carries the
    absolute value of what [parseFloat] makes of the raw amount, with [NaN]
    replaced by 0 first; every sanitized amount is at least 0. *)
Theorem amounts_coerced raw r :
  sanitize parseFloat raw = Ok r ->
  Forall2 (fun p out =>
             coerces parseFloat (field p "bankTransaction") (bankTransaction out)
             /\ coerces parseFloat (field p "ledgerTransaction") (ledgerTransaction out))
    (rawCollection raw "matchedTransactions") (matchedTransactions r)
  /\ Forall2 (coerces parseFloat)
       (rawCollection raw "unmatchedBankTransactions") (unmatchedBankTransactions r)
  /\ Forall2 (coerces parseFloat)
       (rawCollection raw "unmatchedLedgerEntries") (unmatchedLedgerEntries r)
  /\ Forall (fun out => (0 <=? amount (bankTransaction out)) = true
                        /\ (0 <=? amount (ledgerTransaction out)) = true)
       (matchedTransactions r)
  /\ Forall (fun t => (0 <=? amount t) = true) (unmatchedBankTransactions r)
  /\ Forall (fun t => (0 <=? amount t) = true) (unmatchedLedgerEntries r).
Proof.
  intros H. destruct (sanitize_coerces raw r H) as (Hm & Hb & Hl).
  repeat split; try done.
  - eapply Forall2_Forall_r; [exact Hm|]. apply Forall_forall.
    intros p _ out [H1 H2]. split; eauto using coerces_nonneg.
  - eapply Forall2_Forall_r; [exact Hb|]. apply Forall_forall.
    intros v _ t Hvt. eauto using coerces_nonneg.
  - eapply Forall2_Forall_r; [exact Hl|]. apply Forall_forall.
    intros v _ t Hvt. eauto using coerces_nonneg.
Qed.

Lemma withParsedAmount_framed v t :
  withParsedAmount parseFloat v = Ok t -> framed v t.
Proof.
  intros H k Hk. apply withParsedAmount_Ok in H as (_ & Ho & _).
  unfold txObject. rewrite Ho.
  rewrite lookup_insert_ne by done. by rewrite lookup_delete_ne.
Qed.

Lemma lookup_foldr_delete {V} (m : gmap string V) ks k :
  k ∉ ks -> foldr delete m ks !! k = m !! k.
Proof.
  induction ks as [|k' ks IH]; simpl; [done|].
  intros Hk. apply not_elem_of_cons in Hk as [Hne Hk].
  rewrite lookup_delete_ne by done. auto.
Qed.

Lemma summaryObject_passedThrough s k :
  k ∉ recomputed -> summaryObject s !! k = passedThrough s !! k.
Proof.
  intros Hk. unfold summaryObject, recomputed in *.
  repeat (rewrite lookup_insert_ne; [|intros <-; apply Hk; set_solver]).
  done.
Qed.

(** C10.  Sanitization changes nothing but amounts: each sanitized
    collection has the length and the order of the raw one, every property
    of a transaction other than [amount] is the raw one, and every property
    of the summary other than the six recomputed ones, [ledgerBalance],
    [bankBalance] and [asAtDate] among them, is the raw one. *)
Theorem sanitize_frame raw r :
  sanitize parseFloat raw = Ok r ->
  Forall2 (fun p out =>
             framed (field p "bankTransaction") (bankTransaction out)
             /\ framed (field p "ledgerTransaction") (ledgerTransaction out))
    (rawCollection raw "matchedTransactions") (matchedTransactions r)
  /\ Forall2 framed
       (rawCollection raw "unmatchedBankTransactions") (unmatchedBankTransactions r)
  /\ Forall2 framed
       (rawCollection raw "unmatchedLedgerEntries") (unmatchedLedgerEntries r)
  /\ length (matchedTransactions r)
     = length (rawCollection raw "matchedTransactions")
  /\ length (unmatchedBankTransactions r)
     = length (rawCollection raw "unmatchedBankTransactions")
  /\ length (unmatchedLedgerEntries r)
     = length (rawCollection raw "unmatchedLedgerEntries")
  /\ (forall k, k ∉ recomputed ->
        summaryObject (summary r) !! k = ownProps (field raw "summary") !! k)
  /\ (forall k, k ∈ ["ledgerBalance"; "bankBalance"; "asAtDate"] ->
        summaryObject (summary r) !! k = ownProps (field raw "summary") !! k).
Proof.
  intros H. apply sanitize_Ok in H as (_ & Hm & Hb & Hl & Hs).
  assert (Hf : forall l k,
             Forall2 (fun x y => withParsedAmount parseFloat x = Ok y) l k ->
             Forall2 framed l k).
  { intros l k Hlk. eapply Forall2_impl; [exact Hlk|].
    apply withParsedAmount_framed. }
  assert (Hk : forall k, k ∉ recomputed ->
        summaryObject (summary r) !! k = ownProps (field raw "summary") !! k).
  { intros k Hk. rewrite summaryObject_passedThrough by done.
    rewrite Hs. cbn [passedThrough]. by apply lookup_foldr_delete. }
  split; [|split; [|split; [|split; [|split; [|split; [|split]]]]]].
  - eapply Forall2_impl; [exact Hm|]. intros p out Hp.
    apply sanitizePair_Ok in Hp as (_ & H1 & H2).
    split; by apply withParsedAmount_framed.
  - by apply Hf.
  - by apply Hf.
  - symmetry. by eapply Forall2_length.
  - symmetry. by eapply Forall2_length.
  - symmetry. by eapply Forall2_length.
  - exact Hk.
  - intros k Hin. apply Hk. unfold recomputed.
    rewrite !elem_of_cons, elem_of_nil in Hin. rewrite !not_elem_of_cons.
    destruct Hin as [->|[->|[->|[]]]]; repeat split; (done || apply not_elem_of_nil).
Qed.

Lemma succeeds_withParsedAmount v :
  succeeds (withParsedAmount parseFloat v) = txOk parseFloat v.
Proof.
  unfold withParsedAmount, txOk, getProp, field, parseAmount.
  destruct (nullish v); simpl; [done|]. by destruct (parseFloat _).
Qed.

Lemma succeeds_sanitizePair p :
  succeeds (sanitizePair parseFloat p) = pairOk parseFloat p.
Proof.
  unfold sanitizePair, pairOk, getProp.
  destruct (nullish p); simpl; [done|].
  rewrite <- !succeeds_withParsedAmount. unfold field.
  destruct (withParsedAmount parseFloat (default JUndefined (ownProps p !! "bankTransaction")));
    simpl; [|done].
  by destruct (withParsedAmount parseFloat (default JUndefined (ownProps p !! "ledgerTransaction"))).
Qed.

Lemma succeeds_mapR {A B} (f : A -> Result B) l :
  succeeds (mapR f l) = forallb (fun x => succeeds (f x)) l.
Proof.
  induction l as [|x l IH]; simpl; [done|].
  destruct (f x); simpl; [|done]. rewrite <- IH. by destruct (mapR f l).
Qed.

Lemma succeeds_collection {B} raw k (f : JsVal -> Result B) ok :
  (forall x, succeeds (f x) = ok x) ->
  nullish raw = false ->
  succeeds (collection raw k f) = collectionOk ok (field raw k).
Proof.
  intros Hf Hn. unfold collection, getProp, collectionOk, field.
  rewrite Hn. simpl.
  destruct (jsOr _ _); simpl; try done.
  rewrite succeeds_mapR. induction l as [|x l IH]; simpl; [done|].
  by rewrite Hf, IH.
Qed.

(** The sanitizer throws exactly on the raw values that are not
    [wellFormed]. *)
Lemma succeeds_sanitize raw :
  succeeds (sanitize parseFloat raw) = wellFormed parseFloat raw.
Proof.
  unfold wellFormed. destruct (nullish raw) eqn:Hn.
  - unfold sanitize, collection, getProp. by rewrite Hn.
  - rewrite <- (succeeds_collection raw "matchedTransactions" _ _ succeeds_sanitizePair Hn).
    rewrite <- (succeeds_collection raw "unmatchedBankTransactions" _ _ succeeds_withParsedAmount Hn).
    rewrite <- (succeeds_collection raw "unmatchedLedgerEntries" _ _ succeeds_withParsedAmount Hn).
    unfold sanitize.
    destruct (collection raw "matchedTransactions" _); simpl; [|done].
    destruct (collection raw "unmatchedBankTransactions" _); simpl; [|done].
    destruct (collection raw "unmatchedLedgerEntries" _); simpl; [|done].
    unfold getProp. by rewrite Hn.
Qed.

Lemma coerces_recovered v t : coerces parseFloat v t -> recovered parseFloat v t.
Proof.
  intros (x & Hx & Ht) Hnan. rewrite Hnan in Hx. injection Hx as <-.
  rewrite Ht. reflexivity.
Qed.

(** C2, as amended.  On a raw response that is well formed (it is not
    [null]; each collection is absent, falsy or an array; no element of an
    unmatched collection, no matched pair and no leg of a matched pair is
    [null] or missing; [parseFloat] returns on every amount) neither the
    sanitizer nor [reconcileFiles] throws, and every amount that does not
    parse, a missing one included, is recovered as 0. *)
Theorem well_formed_never_raises raw :
  wellFormed parseFloat raw = true ->
  exists r,
    sanitize parseFloat raw = Ok r
    /\ reconcileFiles parseFloat (Ok raw) = Ok r
    /\ Forall2 (fun p out =>
                  recovered parseFloat (field p "bankTransaction") (bankTransaction out)
                  /\ recovered parseFloat (field p "ledgerTransaction") (ledgerTransaction out))
         (rawCollection raw "matchedTransactions") (matchedTransactions r)
    /\ Forall2 (recovered parseFloat)
         (rawCollection raw "unmatchedBankTransactions") (unmatchedBankTransactions r)
    /\ Forall2 (recovered parseFloat)
         (rawCollection raw "unmatchedLedgerEntries") (unmatchedLedgerEntries r).
Proof.
  intros Hw. rewrite <- succeeds_sanitize in Hw.
  destruct (sanitize parseFloat raw) as [r|e] eqn:Hs; [|discriminate Hw].
  exists r. split; [done|]. split.
  { unfold reconcileFiles. simpl. by rewrite Hs. }
  destruct (sanitize_coerces raw r Hs) as (Hm & Hb & Hl).
  split; [|split].
  - eapply Forall2_impl; [exact Hm|]. intros p out [H1 H2].
    split; by apply coerces_recovered.
  - eapply Forall2_impl; [exact Hb|]. apply coerces_recovered.
  - eapply Forall2_impl; [exact Hl|]. apply coerces_recovered.
Qed.

Lemma collection_absent {B} raw k (f : JsVal -> Result B) :
  nullish raw = false -> ownProps raw !! k = None -> collection raw k f = Ok [].
Proof.
  intros Hn Hk. unfold collection, getProp. rewrite Hn, Hk. reflexivity.
Qed.

Lemma rawCollection_absent raw k :
  ownProps raw !! k = None -> rawCollection raw k = [].
Proof. intros Hk. unfold rawCollection, field. by rewrite Hk. Qed.

(** C7, as amended.  For a raw input that is not [null], the step that
    reads one of the three top-level collections returns the empty
    sequence, without throwing, when that collection is absent; the
    sanitizer throws only when
    the step of one of the three collections does, so never because of an
    absent one; in its result each absent collection is empty and an absent
    summary passes nothing through; and when all four are absent it returns
    the empty result. *)
Theorem absent_collections_are_empty raw :
  nullish raw = false ->
  (ownProps raw !! "matchedTransactions" = None ->
     collection raw "matchedTransactions" (sanitizePair parseFloat) = Ok [])
  /\ (ownProps raw !! "unmatchedBankTransactions" = None ->
      collection raw "unmatchedBankTransactions" (withParsedAmount parseFloat)
      = Ok [])
  /\ (ownProps raw !! "unmatchedLedgerEntries" = None ->
      collection raw "unmatchedLedgerEntries" (withParsedAmount parseFloat)
      = Ok [])
  /\ succeeds (sanitize parseFloat raw)
     = succeeds (collection raw "matchedTransactions" (sanitizePair parseFloat))
       && succeeds (collection raw "unmatchedBankTransactions" (withParsedAmount parseFloat))
       && succeeds (collection raw "unmatchedLedgerEntries" (withParsedAmount parseFloat))
  /\ (forall r, sanitize parseFloat raw = Ok r ->
       (ownProps raw !! "matchedTransactions" = None -> matchedTransactions r = [])
       /\ (ownProps raw !! "unmatchedBankTransactions" = None ->
           unmatchedBankTransactions r = [])
       /\ (ownProps raw !! "unmatchedLedgerEntries" = None ->
           unmatchedLedgerEntries r = [])
       /\ (ownProps raw !! "summary" = None -> passedThrough (summary r) = ∅))
  /\ (ownProps raw !! "matchedTransactions" = None ->
      ownProps raw !! "unmatchedBankTransactions" = None ->
      ownProps raw !! "unmatchedLedgerEntries" = None ->
      ownProps raw !! "summary" = None ->
      sanitize parseFloat raw
      = Ok (mkSanitized (mkSummary ∅ 0 0 0 0 0 0) [] [] [])).
Proof.
  intros Hn. split; [|split; [|split; [|split; [|split]]]].
  - by apply collection_absent.
  - by apply collection_absent.
  - by apply collection_absent.
  - rewrite succeeds_sanitize. unfold wellFormed. rewrite Hn. simpl.
    by rewrite !(succeeds_collection raw _ _ _ succeeds_withParsedAmount Hn),
      (succeeds_collection raw _ _ _ succeeds_sanitizePair Hn).
  - intros r Hr. apply sanitize_Ok in Hr as (_ & Hm & Hb & Hl & Hs).
    repeat split; intros Hk.
    + rewrite (rawCollection_absent _ _ Hk) in Hm. by apply Forall2_nil_inv_l in Hm.
    + rewrite (rawCollection_absent _ _ Hk) in Hb. by apply Forall2_nil_inv_l in Hb.
    + rewrite (rawCollection_absent _ _ Hk) in Hl. by apply Forall2_nil_inv_l in Hl.
    + rewrite Hs, Hk. reflexivity.
  - intros Hm Hb Hl Hs. unfold sanitize.
    rewrite !collection_absent by done. simpl.
    unfold getProp. rewrite Hn, Hs. reflexivity.
Qed.

End SanitizerProperties.

(** ** The reference [parseFloat] *)

Example parseFloat_decimal :
  Host.parseFloat (JStr "3500.00") = Ok 3500
  /\ Host.parseFloat (JStr "0.1") = Ok 0.1
  /\ Host.parseFloat (JStr "4999.98") = Ok 4999.98
  /\ Host.parseFloat (JStr ".5") = Ok 0.5
  /\ Host.parseFloat (JStr "-12.5") = Ok (-12.5).
Proof. repeat split; vm_compute; reflexivity. Qed.

Example parseFloat_prefix :
  Host.parseFloat (JStr "  12.5e1xyz") = Ok 125
  /\ Host.parseFloat (JStr "1e") = Ok 1
  /\ Host.parseFloat (JStr "GHS 25") = Ok nan
  /\ Host.parseFloat (JStr ".") = Ok nan
  /\ Host.parseFloat (JStr "") = Ok nan.
Proof. repeat split; vm_compute; reflexivity. Qed.

Example parseFloat_rounding :
  Host.parseFloat (JStr "9007199254740993") = Ok 9007199254740992
  /\ Host.parseFloat (JStr "1.7976931348623157e308") = Ok 1.7976931348623157e308
  /\ Host.parseFloat (JStr "-1e400") = Ok neg_infinity
  /\ Host.parseFloat (JStr "5e-324") = Ok 5e-324
  /\ Host.parseFloat (JStr "2.5e-324") = Ok 5e-324
  /\ Host.parseFloat (JStr "2.4e-324") = Ok 0.
Proof. repeat split; vm_compute; reflexivity. Qed.

Example parseFloat_other_values :
  Host.parseFloat JUndefined = Ok nan
  /\ Host.parseFloat JNull = Ok nan
  /\ Host.parseFloat (JBool true) = Ok nan
  /\ Host.parseFloat (JNum (-0)) = Ok 0
  /\ Host.parseFloat (JNum (-3500)) = Ok (-3500)
  /\ Host.parseFloat (JArr [JStr "7.25"; JNull]) = Ok 7.25
  /\ Host.parseFloat (JObj ∅) = Ok nan
  /\ Host.parseFloat (JObj {["toString" := JNum 1]})
     = Throw (HostError "Cannot convert object to primitive value").
Proof. repeat split; vm_compute; reflexivity. Qed.

(** It returns on every value that is not an object or an array. *)
Lemma parseFloat_primitive v :
  match v with JArr _ | JObj _ => False | _ => True end ->
  succeeds (Host.parseFloat v) = true.
Proof. by destruct v. Qed.

(** ** The sanitizer on concrete inputs *)

Section SanitizerExamples.
Import Service Spec.

(** The end-to-end scenario of the specification. *)
Example endToEnd_figures :
  figures (sanitize Host.parseFloat Scenario.endToEnd)
  = Some (1%nat, 3500, 1%nat, 25, 0%nat, 0).
Proof. vm_compute. reflexivity. Qed.

(** The matched total adds the bank legs (100 and 0), not the ledger legs
    (90 and 0); the stale [matchedCount] of the raw summary is replaced. *)
Example untidy_figures :
  figures (sanitize Host.parseFloat Scenario.untidy)
  = Some (2%nat, 100, 0%nat, 0, 2%nat, 12.5).
Proof. vm_compute. reflexivity. Qed.

(** What the sanitizer does with raw values that are not objects, and with
    a collection that is not an array. *)
Example sanitize_odd_inputs :
  sanitize Host.parseFloat JNull
  = Throw (TypeError_read JNull "matchedTransactions")
  /\ figures (sanitize Host.parseFloat (JNum 5))
     = Some (0%nat, 0, 0%nat, 0, 0%nat, 0)
  /\ sanitize Host.parseFloat
       (Scenario.obj [("unmatchedBankTransactions", JStr "none")])
     = Throw (TypeError_call "map")
  /\ sanitize Host.parseFloat
       (Scenario.obj [("unmatchedLedgerEntries", JArr [JNull])])
     = Throw (TypeError_read JNull "amount")
  /\ figures (sanitize Host.parseFloat
                (Scenario.obj [("unmatchedLedgerEntries", JArr [JStr "12"; JNum 7])]))
     = Some (0%nat, 0, 0%nat, 0, 2%nat, 0).
Proof. repeat split; vm_compute; reflexivity. Qed.

Lemma summary_recomputed_witness :
  exists r,
    sanitize Host.parseFloat Scenario.untidy = Ok r
    /\ matchedCount (summary r) = 2%nat
    /\ matchedTotal (summary r) = 100
    /\ rawTotal Host.parseFloat (rawBankLegs Scenario.untidy)
       = Some (matchedTotal (summary r))
    /\ unmatchedLedgerTotal (summary r) = 12.5
    /\ rawTotal Host.parseFloat
         (rawCollection Scenario.untidy "unmatchedLedgerEntries")
       = Some (unmatchedLedgerTotal (summary r)).
Proof.
  eexists. split; [vm_compute; reflexivity|].
  split; [vm_compute; reflexivity|]. split; [vm_compute; reflexivity|].
  edestruct (summary_recomputed Host.parseFloat Scenario.untidy)
    as (_ & _ & _ & Hm & _ & Hl); [vm_compute; reflexivity|].
  split; [exact Hm|]. split; [vm_compute; reflexivity|exact Hl].
Defined.

Lemma amounts_coerced_witness :
  exists r,
    sanitize Host.parseFloat Scenario.untidy = Ok r
    /\ Forall (fun t => (0 <=? amount t) = true) (unmatchedLedgerEntries r).
Proof.
  eexists. split.
  - vm_compute. reflexivity.
  - apply (amounts_coerced Host.parseFloat Scenario.untidy).
    vm_compute. reflexivity.
Defined.

Lemma sanitize_frame_witness :
  exists r,
    sanitize Host.parseFloat Scenario.endToEnd = Ok r
    /\ length (unmatchedBankTransactions r)
       = length (rawCollection Scenario.endToEnd "unmatchedBankTransactions").
Proof.
  eexists. split.
  - vm_compute. reflexivity.
  - apply (sanitize_frame Host.parseFloat Scenario.endToEnd).
    vm_compute. reflexivity.
Defined.

Lemma well_formed_never_raises_witness :
  wellFormed Host.parseFloat Scenario.untidy = true
  /\ exists r, sanitize Host.parseFloat Scenario.untidy = Ok r.
Proof.
  split.
  - vm_compute. reflexivity.
  - destruct (well_formed_never_raises Host.parseFloat Scenario.untidy)
      as (r & Hr & _).
    + vm_compute. reflexivity.
    + exists r. exact Hr.
Defined.

(** C2 fails as stated: a response object whose matched pair lacks its
    bank leg makes the sanitizer throw, and [reconcileFiles] hands the
    failure to its caller. *)
Lemma missing_leg_is_escalated :
  wellFormed Host.parseFloat Scenario.missingLeg = false
  /\ sanitize Host.parseFloat Scenario.missingLeg
     = Throw (TypeError_read JUndefined "amount")
  /\ reconcileFiles Host.parseFloat (Ok Scenario.missingLeg)
     = Throw (Error_failed (TypeError_read JUndefined "amount")).
Proof. repeat split; vm_compute; reflexivity. Qed.

Lemma absent_collections_are_empty_witness :
  nullish Scenario.balancesOnly = false
  /\ succeeds (sanitize Host.parseFloat Scenario.balancesOnly) = true.
Proof.
  split; [reflexivity|].
  destruct (absent_collections_are_empty Host.parseFloat Scenario.balancesOnly)
    as (Hm & Hb & Hl & -> & _); [reflexivity|].
  rewrite Hm, Hb, Hl by (vm_compute; reflexivity).
  reflexivity.
Defined.

(** C7 fails as stated: in this raw input three of the four top-level
    collections are absent, and the sanitizer throws. *)
Lemma absent_collections_may_raise :
  ownProps Scenario.emptyPair !! "unmatchedBankTransactions" = None
  /\ ownProps Scenario.emptyPair !! "unmatchedLedgerEntries" = None
  /\ ownProps Scenario.emptyPair !! "summary" = None
  /\ sanitize Host.parseFloat Scenario.emptyPair
     = Throw (TypeError_read JUndefined "amount").
Proof. repeat split; vm_compute; reflexivity. Qed.

End SanitizerExamples.

(** ** The review state *)

Section ReviewFacts.
Import Types Review ReviewSpec.

Lemma elem_of_pair (i i1 i2 : nat) :
  i ∈ ({[i1; i2]} : gset nat) <-> i = i1 \/ i = i2.
Proof. rewrite elem_of_union, !elem_of_singleton. done. Qed.

Lemma tag_lookup status idx (m : gmap nat Status) i :
  tag status idx m !! i = if decide (i = idx) then entryFor status else m !! i.
Proof.
  destruct (decide (i = idx)) as [->|Hne].
  - destruct status; simpl; by rewrite ?lookup_delete_eq, ?lookup_insert_eq.
  - destruct status; simpl; by rewrite ?lookup_delete_ne, ?lookup_insert_ne.
Qed.

Lemma tagAll_lookup status order (m : gmap nat Status) i :
  tagAll status order m !! i
  = if decide (i ∈ order) then entryFor status else m !! i.
Proof.
  unfold tagAll. revert m. induction order as [|idx order IH]; intros m; simpl.
  - destruct (decide (i ∈ [])) as [Hin|_]; [by apply elem_of_nil in Hin|done].
  - rewrite IH, tag_lookup.
    destruct (decide (i ∈ order)) as [Hin|Hnin].
    + rewrite decide_True; [done|]. by apply list_elem_of_further.
    + destruct (decide (i = idx)) as [->|Hne].
      * rewrite decide_True; [done|]. apply list_elem_of_here.
      * rewrite decide_False; [done|].
        intros [?|?]%elem_of_cons; contradiction.
Qed.

(** The order in which the [Set] is visited does not matter. *)
Lemma tagAll_order status order1 order2 (m : gmap nat Status) :
  (forall i, i ∈ order1 <-> i ∈ order2) ->
  tagAll status order1 m = tagAll status order2 m.
Proof.
  intros H. apply map_eq. intros i. rewrite !tagAll_lookup.
  destruct (decide (i ∈ order1)) as [H1|H1], (decide (i ∈ order2)) as [H2|H2];
    try done; exfalso; apply H in H1 || apply H in H2; contradiction.
Qed.

Lemma applyBulkStatus_updates st c status :
  applyBulkStatus st c status
  = [setStatuses c (tagAll status (elements (selectedOf c st)) (statusesOf c st));
     setSelected c ∅].
Proof. by destruct c. Qed.

Lemma commit_bulk st c m :
  statusesOf c (commit st [setStatuses c m; setSelected c ∅]) = m
  /\ selectedOf c (commit st [setStatuses c m; setSelected c ∅]) = ∅
  /\ statusesOf (other c) (commit st [setStatuses c m; setSelected c ∅])
     = statusesOf (other c) st
  /\ selectedOf (other c) (commit st [setStatuses c m; setSelected c ∅])
     = selectedOf (other c) st.
Proof. by destruct c. Qed.

Lemma commit_select st c s :
  statusesOf c (commit st [setSelected c s]) = statusesOf c st
  /\ selectedOf c (commit st [setSelected c s]) = s.
Proof. by destruct c. Qed.

Lemma bulk_lookup st c status i :
  statusesOf c (commit st (applyBulkStatus st c status)) !! i
  = if decide (i ∈ selectedOf c st) then entryFor status else statusesOf c st !! i.
Proof.
  rewrite applyBulkStatus_updates.
  destruct (commit_bulk st c
    (tagAll status (elements (selectedOf c st)) (statusesOf c st))) as (-> & _).
  rewrite tagAll_lookup.
  destruct (decide (i ∈ elements (selectedOf c st))) as [H|H];
    rewrite elem_of_elements in H.
  - by rewrite decide_True.
  - by rewrite decide_False.
Qed.

(** C5.  A bulk action on a collection writes the status map once, with
    every selected index untagged (for ['default']) or set to the status,
    and every other index as it was; it then empties the selection of that
    collection and leaves the other collection alone.  The map written does
    not depend on the order in which the selection is visited.  Tagging
    [i1] and [i2] as cleared and then as default leaves neither of them in
    the map, and every other index as it was at the start. *)
Theorem bulk_status st c status :
  (exists next,
     applyBulkStatus st c status = [setStatuses c next; setSelected c ∅]
     /\ (forall i, next !! i
                   = if decide (i ∈ selectedOf c st) then entryFor status
                     else statusesOf c st !! i)
     /\ (forall order, (forall i, i ∈ order <-> i ∈ selectedOf c st) ->
           tagAll status order (statusesOf c st) = next)
     /\ statusesOf c (commit st (applyBulkStatus st c status)) = next
     /\ selectedOf c (commit st (applyBulkStatus st c status)) = ∅
     /\ statusesOf (other c) (commit st (applyBulkStatus st c status))
        = statusesOf (other c) st
     /\ selectedOf (other c) (commit st (applyBulkStatus st c status))
        = selectedOf (other c) st)
  /\ (forall i1 i2,
       let st1 := commit st [setSelected c {[i1; i2]}] in
       let st2 := commit st1 (applyBulkStatus st1 c Cleared) in
       let st3 := commit st2 [setSelected c {[i1; i2]}] in
       let st4 := commit st3 (applyBulkStatus st3 c Default) in
       statusesOf c st2 !! i1 = Some Cleared
       /\ statusesOf c st2 !! i2 = Some Cleared
       /\ statusesOf c st4 !! i1 = None
       /\ statusesOf c st4 !! i2 = None
       /\ (forall i, i <> i1 -> i <> i2 ->
             statusesOf c st4 !! i = statusesOf c st !! i)
       /\ selectedOf c st4 = ∅).
Proof.
  split.
  - exists (tagAll status (elements (selectedOf c st)) (statusesOf c st)).
    rewrite applyBulkStatus_updates.
    destruct (commit_bulk st c
      (tagAll status (elements (selectedOf c st)) (statusesOf c st)))
      as (H1 & H2 & H3 & H4).
    repeat split; try done.
    + intros i. rewrite tagAll_lookup.
      destruct (decide (i ∈ elements (selectedOf c st))) as [H|H];
        rewrite elem_of_elements in H.
      * by rewrite decide_True.
      * by rewrite decide_False.
    + intros order Ho. apply tagAll_order. intros i.
      rewrite Ho. by rewrite elem_of_elements.
  - intros i1 i2 st1 st2 st3 st4.
    assert (Hsel1 : selectedOf c st1 = {[i1; i2]}) by apply commit_select.
    assert (Hsel3 : selectedOf c st3 = {[i1; i2]}) by apply commit_select.
    assert (Hst1 : statusesOf c st1 = statusesOf c st) by apply commit_select.
    assert (Hst3 : statusesOf c st3 = statusesOf c st2) by apply commit_select.
    assert (H2 : forall i, statusesOf c st2 !! i
               = if decide (i ∈ ({[i1; i2]} : gset nat)) then Some Cleared
                 else statusesOf c st !! i).
    { intros i. unfold st2. rewrite bulk_lookup, Hsel1, Hst1. done. }
    assert (H4 : forall i, statusesOf c st4 !! i
               = if decide (i ∈ ({[i1; i2]} : gset nat)) then None
                 else statusesOf c st2 !! i).
    { intros i. unfold st4. rewrite bulk_lookup, Hsel3, Hst3. done. }
    repeat split.
    + rewrite H2, decide_True; [done|apply elem_of_pair; auto].
    + rewrite H2, decide_True; [done|apply elem_of_pair; auto].
    + rewrite H4, decide_True; [done|apply elem_of_pair; auto].
    + rewrite H4, decide_True; [done|apply elem_of_pair; auto].
    + intros i Hi1 Hi2.
      assert (Hi : i ∉ ({[i1; i2]} : gset nat)).
      { rewrite elem_of_pair. intros [?|?]; contradiction. }
      by rewrite H4, decide_False, H2, decide_False.
    + unfold st4. rewrite applyBulkStatus_updates. apply commit_bulk.
Qed.

Section Visible.

Variable toLowerCase : string -> string.
Variable numberToString : float -> string.

Lemma imap_indices (txs : list Transaction) (n : nat) :
  (imap (fun idx tx => (tx, (n + idx)%nat)) txs).*2 = seq n (length txs).
Proof.
  revert n. induction txs as [|tx txs IH]; intros n; simpl; [done|].
  rewrite Nat.add_0_r. f_equal.
  rewrite <- (IH (S n)). f_equal. apply imap_ext. intros i x _. simpl.
  f_equal. lia.
Qed.

(** The visible rows carry pairwise distinct indices. *)
Lemma filteredUnmatched_NoDup term sf statuses txs :
  NoDup (filteredUnmatched toLowerCase numberToString term sf statuses txs).*2.
Proof.
  unfold filteredUnmatched.
  eapply sublist_NoDup; [|apply fmap_sublist, sublist_filter].
  change (imap (fun idx tx => (tx, idx)) txs)
    with (imap (fun idx tx => (tx, (0 + idx)%nat)) txs).
  rewrite imap_indices. apply NoDup_seq.
Qed.

Lemma selectAll_by_size (sel : gset nat) filtered :
  NoDup filtered.*2 ->
  selectAll sel filtered
  = if bool_decide (size sel = size (list_to_set filtered.*2 : gset nat)
                    /\ (list_to_set filtered.*2 : gset nat) <> ∅)
    then ∅ else list_to_set filtered.*2.
Proof.
  intros Hnd. unfold selectAll.
  rewrite (size_list_to_set filtered.*2 Hnd), length_fmap.
  destruct filtered as [|x filtered]; simpl.
  - rewrite andb_false_r. by rewrite bool_decide_false by (intros [_ []]; done).
  - rewrite andb_true_r.
    destruct (size sel =? S (length filtered))%nat eqn:E.
    + apply Nat.eqb_eq in E. rewrite bool_decide_true; [done|].
      split; [done|]. intros Habs.
      assert (x.2 ∈ (∅ : gset nat)) as []%elem_of_empty.
      rewrite <- Habs. apply elem_of_union_l, elem_of_singleton. done.
    + apply Nat.eqb_neq in E. by rewrite bool_decide_false by (intros [? _]; done).
Qed.

(** C3, as amended.  Selecting all visible rows clears the selection when
    it has as many elements as there are visible rows and there is at least
    one of them, which is the case when the selection is the visible set;
    otherwise the selection becomes exactly the set of visible indices.
    Done twice from an empty selection it yields the empty selection again.
    The test compares sizes, not the sets. *)
Theorem select_all_compares_sizes c st term sf statuses txs :
  let filtered :=
    filteredUnmatched toLowerCase numberToString term sf statuses txs in
  let visible : gset nat := list_to_set filtered.*2 in
  let next := selectedOf c (commit st (selectAllOf c st filtered)) in
  (size (selectedOf c st) = size visible -> visible <> ∅ -> next = ∅)
  /\ (size (selectedOf c st) <> size visible \/ visible = ∅ -> next = visible)
  /\ (selectedOf c st = visible -> visible <> ∅ -> next = ∅)
  /\ (selectedOf c st = ∅ ->
      selectedOf c (commit (commit st (selectAllOf c st filtered))
                      (selectAllOf c (commit st (selectAllOf c st filtered))
                         filtered))
      = ∅).
Proof.
  intros filtered visible next.
  assert (Hnd : NoDup filtered.*2) by apply filteredUnmatched_NoDup.
  assert (Hnext : forall st', selectedOf c (commit st' (selectAllOf c st' filtered))
                  = selectAll (selectedOf c st') filtered) by (intros; by destruct c).
  unfold next. rewrite !Hnext, !selectAll_by_size by done. fold visible.
  split; [|split; [|split]].
  - intros Hs Hv. by rewrite bool_decide_true.
  - intros [Hs|Hv].
    + by rewrite bool_decide_false by (intros [? _]; done).
    + by rewrite bool_decide_false by (intros [_ ?]; done).
  - intros -> Hv. by rewrite bool_decide_true.
  - intros ->. rewrite size_empty.
    destruct (decide (visible = ∅)) as [Hv|Hv].
    + rewrite !bool_decide_false by (intros [_ ?]; done). exact Hv.
    + rewrite (bool_decide_false (0%nat = _ /\ _)).
      * by rewrite bool_decide_true.
      * intros [H0 _]. apply Hv. apply leibniz_equiv, size_empty_iff. done.
Qed.

(** The state in which the selection holds row 0 and the only visible row
    is row 1 arises from the filter itself: the second of two rows is
    tagged and the status filter shows the tagged rows. *)
Example only_tagged_row_visible :
  filteredUnmatched toLowerCase numberToString "" (only Investigating)
    {[1%nat := Investigating]} [Scenario.fee; Scenario.transfer]
  = [(Scenario.transfer, 1%nat)].
Proof. reflexivity. Qed.

End Visible.

(** C3 fails as stated: the selection [{0}] differs from the visible set
    [{1}], so the specification asks for [{1}], but the two have the same
    size and the handler clears the selection. *)
Lemma select_all_clears_a_different_selection :
  selectAll {[0%nat]} [(Scenario.transfer, 1%nat)] = ∅
  /\ selectAllVisible {[0%nat]} [1%nat] = {[1%nat]}
  /\ selectAll {[0%nat]} [(Scenario.transfer, 1%nat)]
     <> selectAllVisible {[0%nat]} [(Scenario.transfer, 1%nat)].*2.
Proof.
  assert (H1 : selectAll {[0%nat]} [(Scenario.transfer, 1%nat)] = ∅)
    by (vm_compute; reflexivity).
  assert (H2 : selectAllVisible {[0%nat]} [1%nat] = {[1%nat]}).
  { unfold selectAllVisible. rewrite bool_decide_false; [vm_compute; reflexivity|].
    intros [Heq _].
    assert (H : 0%nat ∈ (list_to_set [1%nat] : gset nat))
      by (rewrite <- Heq; by apply elem_of_singleton).
    rewrite elem_of_list_to_set, elem_of_cons, elem_of_nil in H.
    destruct H as [?|[]]; discriminate. }
  split; [exact H1|]. split; [exact H2|].
  simpl. rewrite H1, H2. intros Habs.
  assert (H : 1%nat ∈ (∅ : gset nat)) by (rewrite Habs; by apply elem_of_singleton).
  by apply elem_of_empty in H.
Qed.

Lemma select_all_compares_sizes_witness :
  selectedOf bank
    (commit (mkState {[0%nat]} ∅ {[1%nat := Investigating]} ∅)
       (selectAllOf bank (mkState {[0%nat]} ∅ {[1%nat := Investigating]} ∅)
          (filteredUnmatched (fun s => s) (fun _ => "") "" (only Investigating)
             {[1%nat := Investigating]} [Scenario.fee; Scenario.transfer])))
  = ∅.
Proof.
  destruct (select_all_compares_sizes (fun s => s) (fun _ => "") bank
           (mkState {[0%nat]} ∅ {[1%nat := Investigating]} ∅) ""
           (only Investigating) {[1%nat := Investigating]}
           [Scenario.fee; Scenario.transfer]) as (Hsize & _).
  apply Hsize.
  - vm_compute. reflexivity.
  - simpl. intros Habs.
    assert (H : 1%nat ∈ (∅ : gset nat)).
    { rewrite <- Habs. apply elem_of_list_to_set. simpl. apply list_elem_of_here. }
    by apply elem_of_empty in H.
Defined.

Lemma bulk_status_witness :
  let st := mkState {[2%nat; 5%nat]} {[0%nat]} {[5%nat := Investigating; 7%nat := Reviewed]} ∅ in
  let st' := commit st (applyBulkStatus st bank Cleared) in
  bankStatuses st' !! 2%nat = Some Cleared
  /\ bankStatuses st' !! 5%nat = Some Cleared
  /\ bankStatuses st' !! 7%nat = Some Reviewed
  /\ selectedBankIndices st' = ∅
  /\ selectedLedgerIndices st' = {[0%nat]}.
Proof.
  intros st st'.
  destruct (bulk_status st bank Cleared)
    as [(next & _ & Hnext & _ & Hst & Hsel & _ & Hother) _].
  change (statusesOf bank st' = next) in Hst.
  change (bankStatuses st') with (statusesOf bank st').
  rewrite Hst, !Hnext.
  repeat split; vm_compute; reflexivity.
Defined.

End ReviewFacts.

(** ** The PDF report *)

Section DownloadFacts.
Import Types Download DownloadSpec.

Variable formatNumber : float -> string.

Lemma omap_fmap_compose {A B C} (f : B -> option C) (g : A -> B) (l : list A) :
  omap f (g <$> l) = omap (fun x => f (g x)) l.
Proof.
  induction l as [|x l IH]; [done|].
  cbn [fmap list_fmap omap list_omap] in *. by rewrite IH.
Qed.

Lemma filterByIndex_shift {A} (keep : nat -> bool) (g : nat -> nat) (l : list A) :
  (filter (fun x : A * nat => keep x.2) (imap (fun i x => (x, g i)) l)).*1
  = omap (fun i => if keep (g i) then l !! i else None) (seq 0 (length l)).
Proof.
  revert g. induction l as [|x l IH]; intros g; [done|].
  rewrite imap_cons, filter_cons. cbn [length seq omap list_omap].
  rewrite <- fmap_S_seq.
  rewrite omap_fmap_compose.
  change ((fun i (x : A) => (x, g i)) ∘ S) with (fun i (x : A) => (x, g (S i))).
  specialize (IH (fun i => g (S i))). cbn [lookup list_lookup] in *.
  destruct (decide (keep (x, g 0%nat).2)) as [Hk|Hk]; simpl in Hk.
  - apply Is_true_true in Hk. rewrite Hk. cbn. by rewrite IH.
  - apply Is_true_false in Hk. rewrite Hk. by rewrite IH.
Qed.

Lemma filterByIndex_positions {A} (selected : gset nat) (l : list A) :
  filterByIndex (fun i => bool_decide (i ∈ selected)) l
  = atSelectedPositions selected l.
Proof. apply (filterByIndex_shift _ (fun i => i)). Qed.

Lemma unmatchedSection_rows included name columns config rows :
  unmatchedSection formatNumber included name columns config rows
  = if included && negb (bool_decide (rows = [])) then
      [mkSection
         (name +:+ " (" +:+ pretty (length rows) +:+ ")"
               +:+ (if onlySelectedItems config then " [Filtered]" else ""))
         columns (txRow formatNumber <$> rows)]
    else [].
Proof.
  unfold unmatchedSection. destruct included; [|done].
  by destruct rows.
Qed.

(** C6.  With [onlySelectedItems] set, the report is: the executive
    summary if included; the verified matches if included and there is at
    least one, with one row per matched pair whatever the selections; then,
    for the bank and for the ledger, if included and if at least one row
    is left, a section whose rows are the transactions at the selected
    positions of the full unmatched collection and whose heading carries
    their number and [[Filtered]].  With the summary and the bank items
    included, the matches and the ledger entries excluded, and position 0
    selected among two unmatched bank items, the report is the executive
    summary followed by the section "3. Unmatched Bank Items (1)
    [Filtered]" with the first item as its only row. *)
Theorem pdf_only_selected :
  (forall result config selB selL,
     onlySelectedItems config = true ->
     let bankRows := atSelectedPositions selB (unmatchedBankTransactions result) in
     let ledgerRows := atSelectedPositions selL (unmatchedLedgerEntries result) in
     generatePdf formatNumber result config (Some selB) (Some selL)
     = executiveSummary formatNumber config (summary result)
       ++ (if includeMatches config
              && negb (bool_decide (matchedTransactions result = []))
           then [mkSection
                   ("2. Verified Matches ("
                      +:+ pretty (length (matchedTransactions result)) +:+ ")")
                   ["Bank Date"; "Statement Narrative"; "Ledger Date";
                    "Internal Reference"; "Amount"]
                   (matchRow formatNumber <$> matchedTransactions result)]
           else [])
       ++ (if includeUnmatchedBank config && negb (bool_decide (bankRows = []))
           then [mkSection
                   ("3. Unmatched Bank Items (" +:+ pretty (length bankRows)
                      +:+ ") [Filtered]")
                   ["Date"; "Transaction Description"; "Value"]
                   (txRow formatNumber <$> bankRows)]
           else [])
       ++ (if includeUnmatchedLedger config && negb (bool_decide (ledgerRows = []))
           then [mkSection
                   ("4. Unmatched Ledger Entries (" +:+ pretty (length ledgerRows)
                      +:+ ") [Filtered]")
                   ["Date"; "General Ledger Description"; "Value"]
                   (txRow formatNumber <$> ledgerRows)]
           else []))
  /\ (forall s matched a b ledgerEntries selL,
       generatePdf formatNumber
         (mkResult s matched [a; b] ledgerEntries)
         (mkConfig true false true false true) (Some {[0%nat]}) selL
       = executiveSummary formatNumber (mkConfig true false true false true) s
         ++ [mkSection "3. Unmatched Bank Items (1) [Filtered]"
               ["Date"; "Transaction Description"; "Value"]
               [txRow formatNumber a]]).
Proof.
  split.
  - intros result config selB selL Hsel bankRows ledgerRows.
    unfold generatePdf, exported. rewrite Hsel.
    rewrite !filterByIndex_positions, !unmatchedSection_rows, Hsel.
    fold bankRows ledgerRows.
    unfold verifiedMatches.
    by destruct (matchedTransactions result).
  - intros s matched a b ledgerEntries selL.
    unfold generatePdf, exported, verifiedMatches. cbn [includeMatches
      includeUnmatchedBank includeUnmatchedLedger onlySelectedItems
      unmatchedBankTransactions matchedTransactions summary andb].
    rewrite filterByIndex_positions.
    assert (Hrows : atSelectedPositions {[0%nat]} [a; b] = [a]).
    { unfold atSelectedPositions. cbn [length seq omap list_omap].
      rewrite bool_decide_true by (by apply elem_of_singleton).
      rewrite bool_decide_false by (by rewrite elem_of_singleton).
      reflexivity. }
    rewrite Hrows. reflexivity.
Qed.

End DownloadFacts.

Section DownloadExamples.
Import Types Download DownloadSpec.

Lemma pdf_only_selected_witness :
  generatePdf (fun _ => "0.00")
    (mkResult (mkSummary 0 2 0 0 425 0 0 0 "2024-03-31") []
       [Scenario.fee; Scenario.transfer] [])
    (mkConfig false true true true true) (Some {[1%nat]}) (Some ∅)
  = [mkSection "3. Unmatched Bank Items (1) [Filtered]"
       ["Date"; "Transaction Description"; "Value"]
       [[Text "2024-03-12"; Text "Transfer"; Text "GHS 0.00"]]].
Proof.
  destruct (pdf_only_selected (fun _ => "0.00")) as [H _].
  rewrite H by reflexivity.
  vm_compute. reflexivity.
Defined.

End DownloadExamples.

(** ** The dashboard *)

Section DashboardFacts.
Import Types Dashboard.

(** C9.  The variance row is highlighted as balanced (green) exactly when
    [abs (bankBalance - ledgerBalance) < 0.01] and as out of balance (red)
    otherwise, and it shows [bankBalance - ledgerBalance]; balances of 5000
    and 5000.005 are balanced, balances of 5000 and 4999.98 are not. *)
Theorem variance_check :
  (forall s, varianceHighlight s = Green
             <-> (abs (bankBalance s - ledgerBalance s) <? 0.01) = true)
  /\ (forall s, varianceHighlight s = Red
                <-> (abs (bankBalance s - ledgerBalance s) <? 0.01) = false)
  /\ (forall s, totalVariance s = bankBalance s - ledgerBalance s)
  /\ (forall mc bc lc mt d,
        varianceHighlight (mkSummary mc bc lc mt 1000 700 5000.005 5000 d) = Green)
  /\ (forall mc bc lc mt d,
        varianceHighlight (mkSummary mc bc lc mt 1000 700 4999.98 5000 d) = Red).
Proof.
  split; [|split; [|split; [|split]]].
  - intros s. unfold varianceHighlight. by destruct (abs _ <? _).
  - intros s. unfold varianceHighlight. by destruct (abs _ <? _).
  - done.
  - intros. vm_compute. reflexivity.
  - intros. vm_compute. reflexivity.
Qed.

(** The figures behind the two examples: the differences are about -0.005
    and 0.02. *)
Example variance_examples :
  (abs (5000 - 5000.005) <? 0.01) = true
  /\ (abs (5000 - 4999.98) <? 0.01) = false
  /\ (abs (5000 - 5000.005) <? 0.0051) = true
  /\ (0.0199 <? abs (5000 - 4999.98)) = true.
Proof. repeat split; vm_compute; reflexivity. Qed.

Section SortFacts.
Context {A : Type}.
Variable comparefn : A -> A -> float.

Lemma insert_Permutation x l : insert comparefn x l ≡ₚ x :: l.
Proof.
  induction l as [|y l IH]; simpl; [done|].
  destruct (0 <? comparefn x y); [|done].
  rewrite IH. apply Permutation_swap.
Qed.

Lemma sort_Permutation l : sort comparefn l ≡ₚ l.
Proof.
  induction l as [|x l IH]; simpl; [done|].
  rewrite insert_Permutation. by rewrite IH.
Qed.

(** Stability: elements that never compare as "greater" to each other keep
    their relative order. *)
Lemma insert_filter (P : A -> Prop) `{!forall x, Decision (P x)} x l :
  (forall a b, P a -> P b -> (0 <? comparefn a b) = false) ->
  filter P (insert comparefn x l) = filter P (x :: l).
Proof.
  intros Htie. induction l as [|y l IH]; simpl; [done|].
  destruct (0 <? comparefn x y) eqn:E; [|done].
  rewrite (filter_cons _ y), IH, !(filter_cons _ x), (filter_cons _ y).
  destruct (decide (P y)) as [Hy|Hy]; [|done].
  destruct (decide (P x)) as [Hx|Hx]; [|done].
  rewrite (Htie x y Hx Hy) in E. discriminate.
Qed.

Lemma sort_filter (P : A -> Prop) `{!forall x, Decision (P x)} l :
  (forall a b, P a -> P b -> (0 <? comparefn a b) = false) ->
  filter P (sort comparefn l) = filter P l.
Proof.
  intros Htie. induction l as [|x l IH]; simpl; [done|].
  rewrite insert_filter by done. by rewrite !filter_cons, IH.
Qed.

(** Order: when the comparator decides a transitive relation [R] on the
    elements that satisfy [ok], sorting such elements arranges them
    along [R]. *)
Variable ok : A -> Prop.
Variable R : A -> A -> Prop.
Hypothesis R_trans : forall x y z, R x y -> R y z -> R x z.
Hypothesis moved : forall x y, ok x -> ok y -> (0 <? comparefn x y) = true -> R y x.
Hypothesis kept : forall x y, ok x -> ok y -> (0 <? comparefn x y) = false -> R x y.

Lemma insert_sorted x l :
  ok x -> Forall ok l -> StronglySorted R l -> StronglySorted R (insert comparefn x l).
Proof.
  intros Hx Hl Hs. induction Hs as [|y l Hs IH Hy]; simpl.
  - repeat constructor.
  - apply Forall_cons in Hl as [Hoy Hl].
    destruct (0 <? comparefn x y) eqn:E.
    + constructor; [by apply IH|].
      rewrite insert_Permutation. constructor; [by apply moved|done].
    + constructor; [by constructor|].
      constructor; [by apply kept|].
      eapply Forall_impl; [exact Hy|]. intros z Hz.
      eapply R_trans; [by apply kept|done].
Qed.

Lemma sort_sorted l : Forall ok l -> StronglySorted R (sort comparefn l).
Proof.
  induction 1 as [|x l Hx Hl IH]; simpl; [constructor|].
  apply insert_sorted; [done| |done].
  by rewrite sort_Permutation.
Qed.

End SortFacts.

Lemma StronglySorted_weaken {A} (R1 R2 : A -> A -> Prop) l :
  (forall x y, R1 x y -> R2 x y) -> StronglySorted R1 l -> StronglySorted R2 l.
Proof.
  intros HR. induction 1 as [|x l Hs IH Hx]; constructor; [done|].
  eapply Forall_impl; [exact Hx|]. auto.
Qed.

(** The comparator of [topUnmatched] orders numbers by decreasing amount. *)
Lemma sort_by_amount_descending (l : list Transaction) :
  Forall (fun t => is_nan (amount t) = false) l ->
  StronglySorted (fun a b => (amount b <=? amount a) = true)
    (sort (fun a b => amount b - amount a) l).
Proof.
  intros Hl.
  apply (StronglySorted_weaken
           (fun a b => is_nan (amount a) = false /\ is_nan (amount b) = false
                       /\ (Binary64.rank (amount b) <= Binary64.rank (amount a))%Z)).
  { intros a b (Ha & Hb & Hab). rewrite leb_rank by done. by apply Z.leb_le. }
  apply (sort_sorted _ (fun t => is_nan (amount t) = false)); [| | |done].
  - intros x y z (? & ? & ?) (? & ? & ?). repeat split; try done. lia.
  - intros x y Hx Hy H. rewrite sub_pos_rank in H by done.
    apply Z.ltb_lt in H. repeat split; try done. lia.
  - intros x y Hx Hy H. rewrite sub_pos_rank in H by done.
    apply Z.ltb_ge in H. done.
Qed.

(** Transactions whose amounts are equal as numbers are never reordered. *)
Lemma sort_by_amount_stable (v : float) (l : list Transaction) :
  filter (fun t => (amount t =? v) = true) (sort (fun a b => amount b - amount a) l)
  = filter (fun t => (amount t =? v) = true) l.
Proof.
  apply sort_filter. intros a b Ha Hb.
  apply eqb_true_rank in Ha as (Na & _ & Ra), Hb as (Nb & _ & Rb).
  rewrite sub_pos_rank by done. apply Z.ltb_ge. lia.
Qed.

(** For amounts that are numbers the comparator is consistent, and then
    the outcome of a stable sort is determined: a rearrangement of [l]
    that is in descending order and keeps equal amounts in their order is
    the list [sort] returns. *)
Lemma stable_sorted_unique (l1 l2 : list Transaction) :
  Forall (fun t => is_nan (amount t) = false) l1 ->
  l1 ≡ₚ l2 ->
  StronglySorted (fun a b => (amount b <=? amount a) = true) l1 ->
  StronglySorted (fun a b => (amount b <=? amount a) = true) l2 ->
  (forall v, filter (fun t => (amount t =? v) = true) l1
             = filter (fun t => (amount t =? v) = true) l2) ->
  l1 = l2.
Proof.
  intros Hn. revert l2.
  induction Hn as [|x1 l1 Hx1 Hn IH]; intros l2 Hp Hs1 Hs2 Hf.
  - by apply Permutation_nil_l in Hp.
  - destruct l2 as [|x2 l2]; [by apply Permutation_nil_r in Hp|].
    assert (Hn2 : Forall (fun t => is_nan (amount t) = false) (x2 :: l2)).
    { rewrite <- Hp. by constructor. }
    apply Forall_cons in Hn2 as [Hx2 Hn2].
    apply StronglySorted_inv in Hs1 as [Hs1 Hh1], Hs2 as [Hs2 Hh2].
    assert (Hle : forall a b, is_nan (amount a) = false ->
                    is_nan (amount b) = false ->
                    (a = b \/ (amount b <=? amount a) = true) ->
                    (Binary64.rank (amount b) <= Binary64.rank (amount a))%Z).
    { intros a b Ha Hb [->|H]; [lia|].
      rewrite leb_rank in H by done. by apply Z.leb_le. }
    assert (H21 : (Binary64.rank (amount x2) <= Binary64.rank (amount x1))%Z).
    { apply Hle; try done.
      assert (Hin : x2 ∈ x1 :: l1) by (rewrite Hp; apply list_elem_of_here).
      apply elem_of_cons in Hin as [?|Hin]; [by left|right].
      by eapply Forall_forall in Hh1. }
    assert (H12 : (Binary64.rank (amount x1) <= Binary64.rank (amount x2))%Z).
    { apply Hle; try done.
      assert (Hin : x1 ∈ x2 :: l2) by (rewrite <- Hp; apply list_elem_of_here).
      apply elem_of_cons in Hin as [?|Hin]; [by left|right].
      by eapply Forall_forall in Hh2. }
    assert (E1 : (amount x1 =? amount x1) = true).
    { rewrite eqb_rank by done. apply Z.eqb_refl. }
    assert (E2 : (amount x2 =? amount x1) = true).
    { rewrite eqb_rank by done. apply Z.eqb_eq. lia. }
    pose proof (Hf (amount x1)) as H0.
    rewrite !filter_cons, !decide_True in H0 by done.
    injection H0 as <- _.
    f_equal. apply IH; try done.
    + by apply Permutation_cons_inv in Hp.
    + intros v. specialize (Hf v). rewrite !filter_cons in Hf.
      destruct (decide ((amount x1 =? v) = true)); [by injection Hf|done].
Qed.

(** C8.  [topUnmatched] takes the bank items followed by the ledger
    entries, sorts them and keeps the first 5; with fewer than 5 unmatched
    items all of them are returned.  The sorted list is a rearrangement of
    the input.  When no amount is [NaN] it is in descending order of
    amount, transactions of equal amount keep the relative order they have
    in the concatenated input, and it is the only rearrangement with these
    two properties. *)
Theorem top_unmatched result :
  let all := unmatchedBankTransactions result ++ unmatchedLedgerEntries result in
  let sorted := sort (fun a b => amount b - amount a) all in
  topUnmatched result = take 5 sorted
  /\ sorted ≡ₚ all
  /\ length (topUnmatched result) = (length all `min` 5)%nat
  /\ ((length all < 5)%nat ->
      topUnmatched result = sorted /\ topUnmatched result ≡ₚ all)
  /\ (Forall (fun t => is_nan (amount t) = false) all ->
      StronglySorted (fun a b => (amount b <=? amount a) = true) sorted
      /\ (forall v, filter (fun t => (amount t =? v) = true) sorted
                    = filter (fun t => (amount t =? v) = true) all)
      /\ (forall l,
            l ≡ₚ all ->
            StronglySorted (fun a b => (amount b <=? amount a) = true) l ->
            (forall v, filter (fun t => (amount t =? v) = true) l
                       = filter (fun t => (amount t =? v) = true) all) ->
            l = sorted)).
Proof.
  intros all sorted.
  assert (Hperm : sorted ≡ₚ all) by apply sort_Permutation.
  assert (Hlen : length sorted = length all) by (by rewrite Hperm).
  split; [done|]. split; [done|].
  unfold topUnmatched. fold all sorted. split; [|split].
  - rewrite length_take, Hlen. lia.
  - intros Hlt. rewrite take_ge by lia. done.
  - intros Hn.
    assert (Hs : StronglySorted (fun a b => (amount b <=? amount a) = true) sorted)
      by (by apply sort_by_amount_descending).
    assert (Hst : forall v, filter (fun t => (amount t =? v) = true) sorted
                    = filter (fun t => (amount t =? v) = true) all)
      by (intros v; apply sort_by_amount_stable).
    split; [done|]. split; [done|].
    intros l Hl Hsl Hfl. apply stable_sorted_unique; try done.
    + by rewrite Hl.
    + by rewrite Hl, Hperm.
    + intros v. by rewrite Hfl, Hst.
Qed.

End DashboardFacts.

Section DashboardExamples.
Import Types Dashboard.

(** Two items of amount 25 around a larger one: the larger one moves to the
    front and the two equal ones keep their order. *)
Example largest_first_example :
  topUnmatched
    (mkResult (mkSummary 0 2 1 0 50 400 0 0 "2024-03-31") []
       [Scenario.fee; Scenario.transfer]
       [mkTransaction "2024-03-11" "Charge" 25 credit None])
  = [Scenario.transfer; Scenario.fee;
     mkTransaction "2024-03-11" "Charge" 25 credit None].
Proof. vm_compute. reflexivity. Qed.

Lemma top_unmatched_witness :
  StronglySorted (fun a b => (amount b <=? amount a) = true)
    (sort (fun a b => amount b - amount a)
       ([Scenario.fee; Scenario.transfer]
        ++ [mkTransaction "2024-03-11" "Charge" 25 credit None]))
  /\ topUnmatched
       (mkResult (mkSummary 0 2 1 0 50 400 0 0 "2024-03-31") []
          [Scenario.fee; Scenario.transfer]
          [mkTransaction "2024-03-11" "Charge" 25 credit None])
     = sort (fun a b => amount b - amount a)
         ([Scenario.fee; Scenario.transfer]
          ++ [mkTransaction "2024-03-11" "Charge" 25 credit None]).
Proof.
  destruct (top_unmatched
              (mkResult (mkSummary 0 2 1 0 50 400 0 0 "2024-03-31") []
                 [Scenario.fee; Scenario.transfer]
                 [mkTransaction "2024-03-11" "Charge" 25 credit None]))
    as (_ & _ & _ & Hall & Hsorted).
  split.
  - apply Hsorted. repeat constructor.
  - apply Hall. simpl. lia.
Defined.

End DashboardExamples.

(** ** The review handlers next to the claims *)

Section ReviewActionFacts.
Import Types Review ReviewSpec ReviewActions ReviewActionsSpec.

Lemma toggle_elem_of (s : gset nat) idx j :
  j ∈ toggle s idx <-> (if decide (j = idx) then j ∉ s else j ∈ s).
Proof.
  unfold toggle. case_bool_decide as Hin;
    [rewrite elem_of_difference | rewrite elem_of_union];
    rewrite elem_of_singleton; destruct (decide (j = idx)) as [->|]; tauto.
Qed.

Lemma toggle_twice (s : gset nat) idx : toggle (toggle s idx) idx = s.
Proof.
  apply set_eq. intros j. rewrite toggle_elem_of.
  destruct (decide (j = idx)) as [->|Hne].
  - rewrite toggle_elem_of. rewrite decide_True by done.
    split; [apply dec_stable | tauto].
  - rewrite toggle_elem_of. by rewrite decide_False.
Qed.

Lemma state_eq (st st' : State) :
  selectedBankIndices st = selectedBankIndices st' ->
  selectedLedgerIndices st = selectedLedgerIndices st' ->
  bankStatuses st = bankStatuses st' ->
  ledgerStatuses st = ledgerStatuses st' ->
  st = st'.
Proof. destruct st, st'; simpl; congruence. Qed.

(** X1.  Clicking the checkbox of a row flips the membership of that row in
    the selection of its collection and of no other row; the other
    selection and both status maps stay as they are, and a second click on
    the same row restores the state. *)
Theorem toggle_flips_one_row c st idx :
  let st' := commit st (toggleOf c st idx) in
  (forall j, j ∈ selectedOf c st'
             <-> (if decide (j = idx) then j ∉ selectedOf c st
                  else j ∈ selectedOf c st))
  /\ selectedOf (other c) st' = selectedOf (other c) st
  /\ bankStatuses st' = bankStatuses st
  /\ ledgerStatuses st' = ledgerStatuses st
  /\ commit st' (toggleOf c st' idx) = st.
Proof.
  destruct c; cbn; (split; [intros j; apply toggle_elem_of|]);
    (repeat (split; [reflexivity|])); apply state_eq; cbn;
    try reflexivity; apply toggle_twice.
Qed.

Lemma shown_delete (m : gmap nat Status) idx j :
  shown (delete idx m) j = if decide (j = idx) then Default else shown m j.
Proof.
  unfold shown. destruct (decide (j = idx)) as [->|].
  - by rewrite lookup_delete_eq.
  - by rewrite lookup_delete_ne.
Qed.

(** X2.  Clicking the status badge of a row removes the tag of that row
    only: afterwards the row is listed under the filter [default] and under
    no other status, every other row is listed as before, both selections
    and the statuses of the other collection are untouched, and on a row
    without a tag the click changes nothing. *)
Theorem clear_single_status c st idx :
  let st' := commit st (clearSingleOf c st idx) in
  (forall s, matchesStatus (only s) (statusesOf c st') idx
             = bool_decide (s = Default))
  /\ (forall sf j, j <> idx ->
        matchesStatus sf (statusesOf c st') j
        = matchesStatus sf (statusesOf c st) j)
  /\ statusesOf (other c) st' = statusesOf (other c) st
  /\ selectedBankIndices st' = selectedBankIndices st
  /\ selectedLedgerIndices st' = selectedLedgerIndices st
  /\ (statusesOf c st !! idx = None -> st' = st).
Proof.
  assert (Hs : forall (m : gmap nat Status) s,
             matchesStatus (only s) (delete idx m) idx
             = bool_decide (s = Default)).
  { intros m s. cbn. rewrite lookup_delete_eq. cbn.
    apply bool_decide_ext. split; congruence. }
  assert (Ho : forall (m : gmap nat Status) sf j, j <> idx ->
             matchesStatus sf (delete idx m) j = matchesStatus sf m j).
  { intros m [|s] j Hj; cbn; [done|]. by rewrite lookup_delete_ne. }
  destruct c; cbn; (split; [apply Hs|]); (split; [apply Ho|]);
    (repeat (split; [reflexivity|])); intros Hn; apply state_eq; cbn;
    try reflexivity; by apply delete_id.
Qed.

Section Rows.

Variable toLowerCase : string -> string.
Variable numberToString : float -> string.

Lemma elem_of_imap_pair {A} (l : list A) (x : A) (i : nat) :
  (x, i) ∈ imap (fun idx tx => (tx, idx)) l <-> l !! i = Some x.
Proof.
  rewrite elem_of_lookup_imap. split.
  - intros (j & y & Heq & Hl). by simplify_eq.
  - intros Hl. by exists i, x.
Qed.

Lemma elem_of_filteredUnmatched term sf statuses txs tx idx :
  (tx, idx) ∈ filteredUnmatched toLowerCase numberToString term sf statuses txs
  <-> txs !! idx = Some tx
      /\ matchesSearch toLowerCase numberToString term tx = true
      /\ matchesStatus sf statuses idx = true.
Proof.
  unfold filteredUnmatched. rewrite list_elem_of_filter, elem_of_imap_pair.
  cbn. rewrite andb_True, !Is_true_true. tauto.
Qed.

Lemma seq_sorted (n len : nat) : StronglySorted lt (seq n len).
Proof.
  revert n. induction len as [|len IH]; intros n; cbn; constructor; [apply IH|].
  apply Forall_forall. intros j Hj. apply elem_of_seq in Hj. lia.
Qed.

Lemma StronglySorted_sublist {A} (R : A -> A -> Prop) (l k : list A) :
  sublist l k -> StronglySorted R k -> StronglySorted R l.
Proof.
  induction 1 as [|x l k Hs IH|x l k Hs IH]; intros Hk; [done| |].
  - apply StronglySorted_inv in Hk as [Hk Hx]. constructor; [by apply IH|].
    eapply Forall_forall. intros y Hy. eapply Forall_forall in Hx; [exact Hx|].
    eapply sublist_subseteq in Hs. by apply Hs.
  - apply StronglySorted_inv in Hk as [Hk _]. by apply IH.
Qed.

(** X3.  The rows shown for a collection are exactly the rows of the
    original array that match the search term and the status filter, each
    paired with its position in the original array, in increasing order of
    that position. *)
Theorem filtered_rows_keep_their_position term sf statuses txs :
  let filtered :=
    filteredUnmatched toLowerCase numberToString term sf statuses txs in
  (forall tx idx,
     (tx, idx) ∈ filtered
     <-> txs !! idx = Some tx
         /\ matchesSearch toLowerCase numberToString term tx = true
         /\ matchesStatus sf statuses idx = true)
  /\ StronglySorted lt filtered.*2.
Proof.
  split; [apply elem_of_filteredUnmatched|].
  eapply StronglySorted_sublist; [|apply (seq_sorted 0 (length txs))].
  rewrite <- (imap_indices txs 0). unfold filteredUnmatched.
  apply fmap_sublist, sublist_filter.
Qed.

End Rows.

End ReviewActionFacts.

Section ReviewCompositions.
Import Types Review ReviewSpec ReviewActions ReviewActionsSpec.

Lemma shown_entryFor status : default Default (entryFor status) = status.
Proof. by destruct status. Qed.

Lemma commit_app st us vs : commit st (us ++ vs) = commit (commit st us) vs.
Proof. apply fold_left_app. Qed.

Lemma tagAll_elements_empty status (m : gmap nat Status) :
  tagAll status (elements (∅ : gset nat)) m = m.
Proof. by rewrite elements_empty. Qed.

Lemma size_pos_false (s : gset nat) : (0 <? size s)%nat = false -> s = ∅.
Proof. intros H. apply Nat.ltb_ge in H. apply leibniz_equiv, size_empty_inv. lia. Qed.

Lemma resetSelected_commit st :
  commit st (resetSelected st)
  = mkState ∅ ∅
      (tagAll Default (elements (selectedBankIndices st)) (bankStatuses st))
      (tagAll Default (elements (selectedLedgerIndices st)) (ledgerStatuses st)).
Proof.
  destruct st as [sb sl mb ml]. unfold resetSelected.
  cbn [selectedBankIndices selectedLedgerIndices].
  destruct (0 <? size sb)%nat eqn:Hb, (0 <? size sl)%nat eqn:Hl;
    try (apply size_pos_false in Hb as ->);
    try (apply size_pos_false in Hl as ->);
    by rewrite ?tagAll_elements_empty.
Qed.

(** X4.  The Reset button of the bulk bar: at the next render both
    selections are empty, every row that was selected has lost its tag, and
    every other row keeps the entry it had. *)
Theorem reset_selected_untags st c i :
  let st' := commit st (resetSelected st) in
  selectedOf c st' = ∅
  /\ hasSelection st' = false
  /\ statusesOf c st' !! i
     = (if decide (i ∈ selectedOf c st) then None else statusesOf c st !! i).
Proof.
  cbn zeta. rewrite resetSelected_commit.
  split; [by destruct c|]. split; [done|].
  destruct c; cbn [statusesOf selectedOf bankStatuses ledgerStatuses];
    rewrite tagAll_lookup; cbn [entryFor];
    (destruct (decide (i ∈ elements _)) as [Hi|Hi];
     rewrite elem_of_elements in Hi;
     [by rewrite decide_True|by rewrite decide_False]).
Qed.

(** X5.  After a bulk action, every row that was selected is listed under
    the filter of the status just applied and under no other status filter
    (for [default]: under the filter [default]); a row that was not
    selected is listed under the same filters as before. *)
Theorem bulk_status_then_filter st c status sf i :
  let st' := commit st (applyBulkStatus st c status) in
  matchesStatus sf (statusesOf c st') i
  = if decide (i ∈ selectedOf c st)
    then match sf with all => true | only s => bool_decide (status = s) end
    else matchesStatus sf (statusesOf c st) i.
Proof.
  cbn zeta. destruct sf as [|s]; cbn [matchesStatus]; [by destruct (decide _)|].
  rewrite bulk_lookup. destruct (decide (i ∈ selectedOf c st)); [|done].
  by rewrite shown_entryFor.
Qed.

Section Views.

Variable toLowerCase : string -> string.
Variable numberToString : float -> string.

Lemma filter_by_status {A} (P : A -> bool) (class : A -> Status) (l : list A) :
  length (filter (fun x => P x) l)
  = (length (filter (fun x => P x && bool_decide (class x = Default)) l)
     + length (filter (fun x => P x && bool_decide (class x = Investigating)) l)
     + length (filter (fun x => P x && bool_decide (class x = Cleared)) l)
     + length (filter (fun x => P x && bool_decide (class x = Reviewed)) l))%nat.
Proof.
  induction l as [|x l IH]; [done|].
  rewrite !filter_cons.
  destruct (P x) eqn:Hp, (class x) eqn:Hc; cbn;
    repeat match goal with
    | |- context [bool_decide (?a = ?b)] =>
        first [rewrite (bool_decide_eq_true_2 (a = b)) by done
              |rewrite (bool_decide_eq_false_2 (a = b)) by done]
    end; cbn; repeat (case_decide; try tauto); cbn; lia.
Qed.

(** X6.  The four status filters split the unfiltered view: a row is
    listed under a status filter exactly when it is listed without one and
    is shown with that status, and the four views together have as many
    rows as the unfiltered view. *)
Theorem status_views_partition term statuses txs :
  let view sf :=
    filteredUnmatched toLowerCase numberToString term sf statuses txs in
  (forall s tx idx,
     (tx, idx) ∈ view (only s)
     <-> (tx, idx) ∈ view all /\ shown statuses idx = s)
  /\ length (view all)
     = (length (view (only Default)) + length (view (only Investigating))
        + length (view (only Cleared)) + length (view (only Reviewed)))%nat.
Proof.
  cbn zeta. split.
  - intros s tx idx. rewrite !elem_of_filteredUnmatched. cbn.
    rewrite bool_decide_eq_true. unfold shown. tauto.
  - unfold filteredUnmatched.
    pose proof (filter_by_status
      (fun i : Transaction * nat => matchesSearch toLowerCase numberToString term i.1)
      (fun i => default Default (statuses !! i.2))
      (imap (fun idx tx => (tx, idx)) txs)) as H.
    cbn [matchesStatus]. etrans; [|exact H].
    f_equal. apply list_filter_iff. intros i. by rewrite andb_true_r.
Qed.

End Views.

End ReviewCompositions.

(** ** Selecting and exporting *)

Section ExportFacts.
Import Types Review ReviewSpec ReviewActions ReviewActionsSpec Download.

Variable formatNumber : float -> string.

Lemma filter_ext_elem {A} (P Q : A -> Prop) `{!forall x, Decision (P x)}
    `{!forall x, Decision (Q x)} (l : list A) :
  (forall x, x ∈ l -> (P x <-> Q x)) -> filter P l = filter Q l.
Proof.
  induction l as [|x l IH]; intros Hall; [done|].
  rewrite !filter_cons.
  assert (Hx : P x <-> Q x) by (apply Hall; left).
  rewrite IH by (intros y Hy; apply Hall; by right).
  destruct (decide (P x)), (decide (Q x)); tauto.
Qed.

Lemma selectAll_from_empty filtered :
  selectAll ∅ filtered = list_to_set filtered.*2.
Proof.
  unfold selectAll. rewrite size_empty.
  by destruct filtered.
Qed.

Section Visible.

Variable toLowerCase : string -> string.
Variable numberToString : float -> string.

Lemma exported_visible config term sf statuses txs :
  onlySelectedItems config = true ->
  exported config
    (Some (list_to_set
             (filteredUnmatched toLowerCase numberToString term sf statuses txs).*2))
    txs
  = (filteredUnmatched toLowerCase numberToString term sf statuses txs).*1.
Proof.
  intros Hc. unfold exported. rewrite Hc. unfold filterByIndex.
  f_equal. unfold filteredUnmatched at 2. apply filter_ext_elem.
  intros [tx idx] Hin. apply elem_of_imap_pair in Hin. cbn.
  rewrite bool_decide_spec, elem_of_list_to_set, list_elem_of_fmap. split.
  - intros ([tx' idx'] & Heq & Hf). cbn in Heq. subst idx'.
    apply elem_of_filteredUnmatched in Hf as (Hl & Hs & Ht).
    assert (tx' = tx) as -> by congruence.
    by rewrite Hs, Ht.
  - intros Hp. apply andb_True in Hp as [Hs Ht].
    exists (tx, idx). split; [done|].
    apply elem_of_filteredUnmatched. by rewrite <- !Is_true_true.
Qed.

(** X7.  Selecting all visible rows of a collection, starting from an
    empty selection, and then exporting only the selected items puts into
    the report exactly the rows that were visible, in the order they were
    shown. *)
Theorem select_all_then_export c st result config term sf :
  onlySelectedItems config = true ->
  selectedOf c st = ∅ ->
  let filtered :=
    filteredUnmatched toLowerCase numberToString term sf (statusesOf c st)
      (rowsOf c result) in
  let st' := commit st (selectAllOf c st filtered) in
  exported config (Some (selectedOf c st')) (rowsOf c result) = filtered.*1.
Proof.
  intros Hc He. cbn zeta.
  assert (Hs : selectedOf c (commit st (selectAllOf c st
                 (filteredUnmatched toLowerCase numberToString term sf
                    (statusesOf c st) (rowsOf c result))))
               = list_to_set
                   (filteredUnmatched toLowerCase numberToString term sf
                      (statusesOf c st) (rowsOf c result)).*2).
  { destruct c; cbn in *; rewrite He; apply selectAll_from_empty. }
  rewrite Hs. by apply exported_visible.
Qed.

End Visible.

Lemma filterByIndex_empty {A} (l : list A) :
  filterByIndex (fun i => bool_decide (i ∈ (∅ : gset nat))) l = [].
Proof.
  unfold filterByIndex.
  rewrite (filter_ext_elem _ (fun _ => False)); [|intros x _; cbn].
  - induction (imap _ l) as [|x k IH]; [done|].
    rewrite filter_cons. by destruct (decide False).
  - done.
Qed.

(** X8.  When no row is selected while the export is still configured for
    the selected items only, the report has no section of unmatched items,
    whatever the unmatched lists hold: it consists of the summary and the
    matches. *)
Theorem export_without_selection st result config :
  hasSelection st = false ->
  onlySelectedItems config = true ->
  handlePdfExport formatNumber st result config
  = executiveSummary formatNumber config (summary result)
    ++ verifiedMatches formatNumber config (matchedTransactions result).
Proof.
  intros Hs Hc. unfold hasSelection in Hs. apply orb_false_iff in Hs as [Hb Hl].
  apply size_pos_false in Hb, Hl.
  unfold handlePdfExport, generatePdf, exported. rewrite Hb, Hl, Hc.
  rewrite !filterByIndex_empty. unfold unmatchedSection. cbn.
  destruct (includeUnmatchedBank config), (includeUnmatchedLedger config);
    by rewrite ?app_nil_r.
Qed.

(** X9.  In every section of the report the table is not empty and each
    of its rows has one cell per column. *)
Theorem report_tables_are_rectangular result config selB selL section :
  section ∈ generatePdf formatNumber result config selB selL ->
  body section <> []
  /\ Forall (fun row => length row = length (head section)) (body section).
Proof.
  assert (Hu : forall included name columns rows,
             length columns = 3%nat ->
             section ∈ unmatchedSection formatNumber included name columns config rows ->
             body section <> []
             /\ Forall (fun row => length row = length (head section)) (body section)).
  { intros included name columns rows Hlen. unfold unmatchedSection.
    destruct included; [|by intros ?%elem_of_nil].
    destruct rows as [|tx rows]; cbn; [by intros ?%elem_of_nil|].
    intros ->%list_elem_of_singleton. cbn. split; [done|].
    constructor; [by rewrite Hlen|].
    apply Forall_fmap, Forall_forall. intros; cbn. by rewrite Hlen. }
  unfold generatePdf. rewrite !elem_of_app. intros [H|[H|[H|H]]].
  - unfold executiveSummary in H. destruct (includeSummary config);
      [|by apply elem_of_nil in H].
    apply list_elem_of_singleton in H as ->. cbn. split; [done|].
    by repeat constructor.
  - unfold verifiedMatches in H.
    destruct (includeMatches config); [|by apply elem_of_nil in H].
    destruct (matchedTransactions result) as [|p ps];
      [by apply elem_of_nil in H|].
    cbn in H. apply list_elem_of_singleton in H as ->. cbn. split; [done|].
    constructor; [done|]. by apply Forall_fmap, Forall_forall.
  - eapply Hu; [|exact H]. done.
  - eapply Hu; [|exact H]. done.
Qed.

End ExportFacts.

(** ** The CSV report and the file names *)

Section CsvFacts.
Import Types Csv CsvSpec.

Variable numberToString : float -> string.
Variable toLowerCase : string -> string.

Lemma append_nil (b : string) : "" +:+ b = b.
Proof. reflexivity. Qed.

Lemma append_cons (x : ascii) (a b : string) :
  String x a +:+ b = String x (a +:+ b).
Proof. reflexivity. Qed.

Lemma string_app_assoc (a b c : string) : (a +:+ b) +:+ c = a +:+ (b +:+ c).
Proof.
  induction a as [|x a IH]; rewrite ?append_nil, ?append_cons; congruence.
Qed.

Lemma string_app_nil_r (a : string) : a +:+ "" = a.
Proof.
  induction a as [|x a IH]; rewrite ?append_nil, ?append_cons; congruence.
Qed.

Lemma readRow_field (f rest g : string) (gs : list string) :
  readRow Pending rest = Some (g :: gs) ->
  readRow Inside (doubleQuotes f +:+ String quote rest) = Some ((f +:+ g) :: gs).
Proof.
  intros Hrest. induction f as [|c f IH]; cbn [doubleQuotes].
  - rewrite !append_nil. cbn. exact Hrest.
  - destruct (Ascii.eqb c quote) eqn:Hc; rewrite !append_cons; cbn.
    + apply Ascii.eqb_eq in Hc as ->. by rewrite IH.
    + rewrite Hc. by rewrite IH.
Qed.

Lemma readRow_cells (m : Mode) (x : string) (xs : list string) :
  m = Start \/ m = AfterComma ->
  readRow m
    (String.concat ","
       (map (fun f => String quote (doubleQuotes f) +:+ String quote "") (x :: xs)))
  = Some (x :: xs).
Proof.
  revert m x. induction xs as [|y xs IH]; intros m x Hm.
  - cbn [map String.concat].
    assert (Hin : readRow Inside (doubleQuotes x +:+ String quote "")
                  = Some [x]).
    { rewrite (readRow_field x "" "" []) by done. by rewrite string_app_nil_r. }
    rewrite append_cons. destruct Hm as [-> | ->]; cbn; exact Hin.
  - change (map ?f (x :: y :: xs)) with (f x :: map f (y :: xs)).
    cbn [String.concat]. cbn beta.
    set (C := String.concat "," (map _ (y :: xs))).
    assert (HC : readRow AfterComma C = Some (y :: xs)) by (apply IH; by right).
    clearbody C.
    assert (Hin : readRow Inside
                    ((doubleQuotes x +:+ String quote "") +:+ "," +:+ C)
                  = Some (x :: y :: xs)).
    { rewrite string_app_assoc, !append_cons, !append_nil.
      rewrite (readRow_field x _ "" (y :: xs)); [by rewrite string_app_nil_r|].
      cbn. by rewrite HC. }
    rewrite !append_cons. destruct Hm as [-> | ->]; cbn; exact Hin.
Qed.

(** X10.  A row written by [toCsvRow] reads back as the texts of its
    values, whatever characters they hold (commas, quotes and line breaks
    included): the row has one quoted field per value and no field is split
    or merged. *)
Theorem csv_row_round_trip (arr : list Field) :
  readRow Start (toCsvRow numberToString arr) = Some (map (text numberToString) arr).
Proof.
  unfold toCsvRow.
  rewrite <- (map_map (text numberToString)
                (fun f => String quote (doubleQuotes f) +:+ String quote "")).
  destruct arr as [|v arr]; [done|].
  change (map (text numberToString) (v :: arr))
    with (text numberToString v :: map (text numberToString) arr).
  apply readRow_cells. by left.
Qed.

Lemma isAlnum_lower_safe (c : ascii) :
  isSafe (lowerAscii (if isAlnum c then c else "_"%char)) = true
  /\ (N_of_ascii (if isAlnum c then c else "_"%char) < 128)%N.
Proof.
  destruct c as [[] [] [] [] [] [] [] []]; vm_compute; by split.
Qed.

Lemma replaceNonAlnum_ascii (s : string) : isAscii (replaceNonAlnum s).
Proof.
  unfold isAscii. induction s as [|c s IH]; cbn; constructor; [|done].
  apply isAlnum_lower_safe.
Qed.

Lemma asciiToLower_replace_safe (s : string) :
  Forall (fun c => isSafe c = true)
    (String.list_ascii_of_string (asciiToLower (replaceNonAlnum s))).
Proof.
  induction s as [|c s IH]; cbn; constructor; [|done].
  apply isAlnum_lower_safe.
Qed.

Lemma asciiToLower_replace_length (s : string) :
  String.length (asciiToLower (replaceNonAlnum s)) = String.length s.
Proof. induction s as [|c s IH]; cbn; [done|by rewrite IH]. Qed.

Lemma list_ascii_app (a b : string) :
  String.list_ascii_of_string (a +:+ b)
  = String.list_ascii_of_string a ++ String.list_ascii_of_string b.
Proof.
  induction a as [|x a IH]; rewrite ?append_nil, ?append_cons; cbn; congruence.
Qed.

Lemma string_length_app (a b : string) :
  String.length (a +:+ b) = (String.length a + String.length b)%nat.
Proof.
  induction a as [|x a IH]; rewrite ?append_nil, ?append_cons; cbn; congruence.
Qed.

(** X11.  On a host whose [toLowerCase] lowers ASCII text letter by letter,
    the prefix the report file names take from the company name holds only
    lower-case ASCII letters, digits and underscores, and is one character
    longer than the name; for an empty name there is no prefix. *)
Theorem safe_company_name (companyName : string) :
  (forall s, isAscii s -> toLowerCase s = asciiToLower s) ->
  Forall (fun c => isSafe c = true)
    (String.list_ascii_of_string (safeCompanyName toLowerCase companyName))
  /\ String.length (safeCompanyName toLowerCase companyName)
     = (if String.eqb companyName "" then 0 else S (String.length companyName))%nat.
Proof.
  intros Hlower. unfold safeCompanyName.
  destruct (String.eqb companyName "") eqn:He; [by split|].
  rewrite Hlower by apply replaceNonAlnum_ascii. split.
  - rewrite list_ascii_app. apply Forall_app. split.
    + apply asciiToLower_replace_safe.
    + by repeat constructor.
  - rewrite string_length_app, asciiToLower_replace_length. cbn. lia.
Qed.

End CsvFacts.

(** ** The charts of the dashboard *)

Section ChartFacts.
Import Types Charts Binary64.

Lemma is_zero_rank x : is_zero x = true -> is_nan x = false /\ rank x = 0%Z.
Proof.
  unfold is_zero. intros H. apply eqb_true_rank in H as (Hx & _ & Hr).
  split; [done|]. rewrite Hr. by vm_compute.
Qed.

Lemma maxFrom_nan highest numbers :
  Exists (fun x => is_nan x = true) numbers ->
  is_nan (maxFrom highest numbers) = true.
Proof.
  intros H. revert highest. induction H as [x l Hx|x l _ IH]; intros highest.
  - cbn. by rewrite Hx.
  - cbn. destruct (is_nan x); [done|].
    destruct (_ && _); [apply IH|]. destruct (highest <? x); apply IH.
Qed.

Lemma maxFrom_rank highest numbers :
  is_nan highest = false ->
  Forall (fun x => is_nan x = false) numbers ->
  is_nan (maxFrom highest numbers) = false
  /\ (rank highest <= rank (maxFrom highest numbers))%Z
  /\ Forall (fun x => (rank x <= rank (maxFrom highest numbers))%Z) numbers.
Proof.
  intros Hh Hall. revert highest Hh.
  induction Hall as [|x l Hx Hl IH]; intros highest Hh; cbn [maxFrom].
  - repeat split; [done|lia|constructor].
  - rewrite Hx.
    destruct (is_zero x && negb (get_sign x) && is_zero highest && get_sign highest)
      eqn:Hz.
    + apply andb_true_iff in Hz as [Hz _]. apply andb_true_iff in Hz as [Hz Hzh].
      apply andb_true_iff in Hz as [Hzx _].
      apply is_zero_rank in Hzx as [_ Hrx]. apply is_zero_rank in Hzh as [_ Hrh].
      destruct (IH x Hx) as (Hn & Hle & Hrest).
      repeat split; [done|lia|]. by constructor.
    + destruct (highest <? x) eqn:Hlt; rewrite ltb_rank in Hlt by done.
      * apply Z.ltb_lt in Hlt. destruct (IH x Hx) as (Hn & Hle & Hrest).
        repeat split; [done|lia|]. by constructor.
      * apply Z.ltb_ge in Hlt. destruct (IH highest Hh) as (Hn & Hle & Hrest).
        repeat split; [done|lia|]. constructor; [lia|done].
Qed.

Lemma numbers_or_nan (data : list Datum) :
  Forall (fun d => is_nan (value d) = false) data
  \/ Exists (fun d => is_nan (value d) = true) data.
Proof.
  induction data as [|d data [IH|IH]]; [by left| |right; by right].
  destruct (is_nan (value d)) eqn:Hd; [right; by left|left; by constructor].
Qed.

(** X12.  The scale of the bar chart is never zero, so no bar height is
    the result of a division by zero.  When every value is a number the
    scale is at least 1 and at least every value; when some value is [NaN]
    the scale is [NaN]. *)
Theorem bar_chart_scale (data : list Datum) :
  (maxValue data =? 0) = false
  /\ (Forall (fun d => is_nan (value d) = false) data ->
      (1 <=? maxValue data) = true
      /\ Forall (fun d => (value d <=? maxValue data) = true) data)
  /\ (Exists (fun d => is_nan (value d) = true) data ->
      is_nan (maxValue data) = true).
Proof.
  assert (Hnum : Forall (fun d => is_nan (value d) = false) data ->
                 is_nan (maxValue data) = false
                 /\ (rank 1 <= rank (maxValue data))%Z
                 /\ Forall (fun d => (rank (value d) <= rank (maxValue data))%Z) data).
  { intros Hall. unfold maxValue, mathMax.
    destruct (maxFrom_rank neg_infinity ((value <$> data) ++ [1])) as (Hn & _ & Hr).
    - done.
    - rewrite Forall_app, Forall_fmap. split; [done|by repeat constructor].
    - rewrite Forall_app in Hr. destruct Hr as [Hr H1].
      rewrite Forall_fmap in Hr. rewrite Forall_singleton in H1. done. }
  assert (Hnan : Exists (fun d => is_nan (value d) = true) data ->
                 is_nan (maxValue data) = true).
  { intros Hex. apply maxFrom_nan. rewrite Exists_app, Exists_fmap. by left. }
  split; [|split; [|done]].
  - destruct (numbers_or_nan data) as [Hall|Hex].
    + destruct (Hnum Hall) as (Hn & H1 & _).
      rewrite eqb_rank by done. apply Z.eqb_neq.
      assert (0 < rank 1)%Z by (by vm_compute).
      assert (rank 0 = 0)%Z by (by vm_compute). lia.
    + specialize (Hnan Hex).
      destruct (maxValue data =? 0) eqn:He; [|done].
      apply eqb_true_rank in He as (Hn & _). congruence.
  - intros Hall. destruct (Hnum Hall) as (Hn & H1 & Hr). split.
    + rewrite leb_rank by done. by apply Z.leb_le.
    + rewrite Forall_forall in Hall, Hr. apply Forall_forall. intros d Hd.
      rewrite leb_rank by (by try apply Hall). by apply Z.leb_le, Hr.
Qed.

Section Division.
Local Open Scope Z_scope.

Lemma div_eucl_mul (a b : Z) : b <> 0 -> Z.div_eucl (b * a) b = (a, 0).
Proof.
  intros Hb. pose proof (Z.div_mul a b Hb) as Hq. pose proof (Z.mod_mul a b Hb) as Hr.
  rewrite (Z.mul_comm a b) in Hq, Hr.
  unfold Z.div, Z.modulo in Hq, Hr. destruct (Z.div_eucl (b * a) b). by subst.
Qed.

Lemma SFdiv_core_self (m : positive) (e : Z) :
  SFdiv_core_binary prec emax (Zpos m) e (Zpos m) e = (2 ^ 53, -53, loc_Exact).
Proof.
  unfold SFdiv_core_binary.
  replace (Zdigits2 (Zpos m) + e - (Zdigits2 (Zpos m) + e)) with 0 by lia.
  replace (e - e) with 0 by lia.
  change (Z.min (fexp prec emax 0) 0) with (-53).
  change (0 - -53) with 53. cbv zeta iota beta.
  rewrite Z.shiftl_mul_pow2 by lia.
  rewrite div_eucl_mul by lia.
  unfold new_location, new_location_even, new_location_odd.
  by destruct (Z.even (Zpos m)).
Qed.

Lemma SFdiv_self (s : bool) (m : positive) (e : Z) :
  SFdiv prec emax (S754_finite s m e) (S754_finite s m e) = Prim2SF 1.
Proof.
  unfold SFdiv. rewrite SFdiv_core_self. rewrite xorb_nilpotent. by vm_compute.
Qed.

Lemma finite_nonzero (x : float) :
  is_finite x = true -> (x =? 0)%float = false ->
  exists s m e, Prim2SF x = S754_finite s m e.
Proof.
  unfold is_finite, is_nan, is_infinity. intros Hf Hz.
  apply negb_true_iff, orb_false_iff in Hf as [Hn Hi].
  apply negb_false_iff in Hn.
  rewrite FloatAxioms.eqb_spec in Hn, Hi, Hz. rewrite abs_spec in Hi.
  destruct (Prim2SF x) as [sz|si| |s m e]; [| | |by eauto].
  - by destruct sz.
  - by destruct si.
  - done.
Qed.

Lemma div_self (x : float) :
  is_finite x = true -> (x =? 0)%float = false -> (x / x)%float = 1%float.
Proof.
  intros Hf Hz. destruct (finite_nonzero x Hf Hz) as (s & m & e & Hx).
  apply Prim2SF_inj. rewrite div_spec, Hx. apply SFdiv_self.
Qed.

Lemma zero_div_finite (x : float) :
  is_finite x = true -> (x =? 0)%float = false ->
  ((0 / x) * 360 =? 0)%float = true.
Proof.
  intros Hf Hz. destruct (finite_nonzero x Hf Hz) as (s & m & e & Hx).
  rewrite FloatAxioms.eqb_spec, mul_spec, div_spec, Hx.
  by destruct s.
Qed.

End Division.

Lemma segmentsFrom_items total c data :
  item <$> segmentsFrom total c data = data.
Proof.
  revert c. induction data as [|d data IH]; intros c; cbn; [done|].
  by rewrite IH.
Qed.

Lemma segmentsFrom_head total c data s :
  head (segmentsFrom total c data) = Some s ->
  startAngle s = (c / total) * 360.
Proof. destruct data; cbn; [done|]. by intros [= <-]. Qed.

Lemma segmentsFrom_next total c data i s1 s2 :
  segmentsFrom total c data !! i = Some s1 ->
  segmentsFrom total c data !! S i = Some s2 ->
  startAngle s2 = endAngle s1.
Proof.
  revert c i. induction data as [|d data IH]; intros c i; cbn; [done|].
  destruct i as [|i]; cbn.
  - intros [= <-] H2. cbn. apply (segmentsFrom_head total _ data).
    by rewrite head_lookup.
  - apply IH.
Qed.

Lemma segmentsFrom_last total c data s :
  last (segmentsFrom total c data) = Some s ->
  endAngle s = (fold_left (fun s i => s + value i) data c / total) * 360.
Proof.
  revert c. induction data as [|d data IH]; intros c; [done|].
  destruct data as [|d' data].
  - cbn. by intros [= <-].
  - intros H. apply (IH (c + value d)). exact H.
Qed.

(** X13.  When the values of the donut chart add up to a finite total
    other than zero, the chart has one segment per value, in order; the
    first segment starts at angle zero, every further segment starts at the
    very angle at which the one before it ends, and the last segment ends
    at exactly 360 degrees. *)
Theorem donut_segments_tile_the_circle data total segments :
  donutChart data = Some (total, segments) ->
  is_finite total = true ->
  item <$> segments = data
  /\ (forall s, head segments = Some s -> (startAngle s =? 0) = true)
  /\ (forall i s1 s2,
        segments !! i = Some s1 -> segments !! S i = Some s2 ->
        startAngle s2 = endAngle s1)
  /\ (forall s, last segments = Some s -> endAngle s = 360).
Proof.
  unfold donutChart. destruct (sumBy value data =? 0) eqn:Hz; [done|].
  intros [= <- <-] Hf. split; [apply segmentsFrom_items|]. split; [|split].
  - intros s Hs. rewrite (segmentsFrom_head _ _ _ _ Hs).
    by apply zero_div_finite.
  - intros i s1 s2. apply segmentsFrom_next.
  - intros s Hs. rewrite (segmentsFrom_last _ _ _ _ Hs).
    fold (sumBy value data). by rewrite div_self.
Qed.

Lemma is_zero_spec x : is_zero x = true <-> exists s, Prim2SF x = S754_zero s.
Proof.
  unfold is_zero. rewrite FloatAxioms.eqb_spec.
  change (Prim2SF 0) with (S754_zero false).
  destruct (Prim2SF x) as [s|[]| |[] m e]; cbn; split; try done; eauto;
    by intros (s' & [=]).
Qed.

Lemma add_zero x y : is_zero x = true -> is_zero y = true -> is_zero (x + y) = true.
Proof.
  rewrite !is_zero_spec, add_spec. intros (sx & ->) (sy & ->).
  destruct sx, sy; cbn; eauto.
Qed.

Lemma sum_of_zeros (data : list Datum) (acc : float) :
  is_zero acc = true ->
  Forall (fun d => is_zero (value d) = true) data ->
  is_zero (fold_left (fun s i => s + value i) data acc) = true.
Proof.
  intros Hacc Hall. revert acc Hacc.
  induction Hall as [|d data Hd _ IH]; intros acc Hacc; cbn; [done|].
  apply IH. by apply add_zero.
Qed.

(** X14.  The donut chart is replaced by its placeholder exactly when the
    values add up to zero, which is the case when every value is zero and
    in particular when there is no value; a total that is not a number is
    not caught and still draws segments. *)
Theorem donut_placeholder data :
  (donutChart data = None <-> (sumBy value data =? 0) = true)
  /\ (Forall (fun d => is_zero (value d) = true) data -> donutChart data = None)
  /\ (is_nan (sumBy value data) = true -> donutChart data <> None).
Proof.
  assert (Hiff : donutChart data = None <-> (sumBy value data =? 0) = true).
  { unfold donutChart. by destruct (sumBy value data =? 0). }
  split; [exact Hiff|]. split.
  - intros Hall. apply Hiff. by apply (sum_of_zeros data 0).
  - intros Hn Hnone. apply Hiff in Hnone.
    apply eqb_true_rank in Hnone as (Hx & _). congruence.
Qed.

End ChartFacts.

(** ** Stored settings and the handlers of the application *)

Section AppFacts.
Import App.

(** X15.  The theme and the company name are read back as they were
    stored, storing one of them does not disturb the other, and a browser
    that holds neither starts in dark mode with an empty company name. *)
Theorem stored_settings_round_trip (isDark : bool) (companyName : string)
    (localStorage : gmap string string) :
  Theme.initialIsDark (Theme.persist isDark localStorage) = isDark
  /\ initialCompanyName (persistCompanyName companyName localStorage) = companyName
  /\ Theme.initialIsDark (persistCompanyName companyName localStorage)
     = Theme.initialIsDark localStorage
  /\ initialCompanyName (Theme.persist isDark localStorage)
     = initialCompanyName localStorage
  /\ Theme.initialIsDark ∅ = true
  /\ initialCompanyName ∅ = "".
Proof.
  unfold Theme.initialIsDark, Theme.persist, initialCompanyName,
    persistCompanyName, COMPANY_NAME_STORAGE_KEY.
  repeat split.
  - rewrite lookup_insert_eq. by destruct isDark.
  - by rewrite lookup_insert_eq.
  - by rewrite lookup_insert_ne.
  - by rewrite lookup_insert_ne.
Qed.

Section Handlers.

Context {File Result_ : Type}.
Variable errorText : Exn -> string.



(** X16.  What the user sees after pressing the reconcile button.  With
    both files chosen: the results of a successful run, under the company
    name entered, with no error left; or the form with the message of the
    failure and no result left, not even an earlier one.  In neither case
    is the application left loading.  With a file missing nothing runs:
    only the request to upload both files is set. *)
Theorem reconcile_outcome (st : @App.State File Result_) (outcome : Result Result_) :
  let st' := commit st (handleReconcile errorText st outcome) in
  match bankStatement st, ledger st with
  | Some _, Some _ =>
      match outcome with
      | Ok r =>
          renderContent st' = ResultsView r (companyName st)
          /\ error st' = None
      | Throw err =>
          renderContent st' = FormView (Some (errorText err))
          /\ result st' = None
      end
  | _, _ =>
      st' = commit st
              [setError
                 (Some "Please upload both a bank statement and a general ledger.")]
  end.
Proof.
  destruct st as [name date [b|] [l|] res loading err p]; cbn; try done.
  destruct outcome; by cbn.
Qed.

(** X17.  Loading the sample data never replaces a company name the user
    has entered: the two sample files are chosen, the error is cleared, the
    result is kept, and the company name becomes the sample company only
    if it was empty.  The reconcile handler run afterwards passes its check
    for missing files: whatever the request yields later, its first setter
    calls are those that start a run. *)
Theorem load_sample_keeps_company_name (st : @App.State File Result_) (bankFile ledgerFile : File)
    (outcome : Result Result_) :
  let st' := commit st (handleLoadSampleData st bankFile ledgerFile) in
  companyName st'
  = (if String.eqb (companyName st) "" then "Sample Logistics Ltd."
     else companyName st)
  /\ bankStatement st' = Some bankFile
  /\ ledger st' = Some ledgerFile
  /\ error st' = None
  /\ result st' = result st
  /\ exists rest,
       handleReconcile errorText st' outcome
       = [setIsLoading true; setError None; setResult None] ++ rest.
Proof.
  destruct st as [name date b l res loading err p]; cbn.
  destruct (String.eqb name ""); cbn; repeat split; eauto.
Qed.

End Handlers.

End AppFacts.

(** ** Loading the reconciliation service *)

Section ServiceInitFacts.
Import ServiceInit.

(** X18.  Whatever the environment holds for the API key, a key, an empty
    string or nothing at all, evaluating the service module throws the
    error that the key is not set: the client is never built. *)
Theorem service_module_never_loads (API_KEY : JsVal) :
  load API_KEY = Failed "API_KEY environment variable is not set".
Proof.
  unfold load, jsOr. cbn [truthy]. by destruct (negb (truthy API_KEY)).
Qed.

End ServiceInitFacts.

(** ** The progress shown while a reconciliation runs *)

Section ProgressFacts.
Import App Binary64 Bounded.

Section Rounding.
Local Open Scope Z_scope.

Lemma shr_fexp_nonneg m e l :
  0 <= m -> 0 <= shr_m (fst (shr_fexp prec emax m e l)).
Proof.
  intros Hm. unfold shr_fexp, shr.
  set (mrs := shr_record_of_loc m l).
  assert (Hmrs : shr_m mrs = m) by (by destruct l as [|[]]).
  destruct (fexp prec emax (Zdigits2 m + e) - e) as [|n|n]; cbn [fst];
    [lia| |lia].
  rewrite iter_shr_m by lia. apply Z.div_pos; lia.
Qed.

Lemma round_nearest_even_nonneg m l : 0 <= m -> 0 <= round_nearest_even m l.
Proof.
  intros Hm. destruct l as [|[]]; cbn [round_nearest_even]; try lia.
  destruct (Z.even m); lia.
Qed.

Lemma binary_round_aux_number sx m e l :
  0 <= m -> is_number (binary_round_aux prec emax sx m e l) = true.
Proof.
  intros Hm. unfold binary_round_aux.
  pose proof (shr_fexp_nonneg m e l Hm) as H1.
  destruct (shr_fexp prec emax m e l) as [mrs1 e1]. cbn [fst] in H1.
  pose proof (shr_fexp_nonneg _ e1 loc_Exact
                (round_nearest_even_nonneg _ (loc_of_shr_record mrs1) H1)) as H2.
  destruct (shr_fexp prec emax _ e1 loc_Exact) as [mrs2 e2]. cbn [fst] in H2.
  destruct (shr_m mrs2) as [|p|p]; [done| |lia].
  by destruct (e2 <=? emax - prec).
Qed.

Lemma binary_normalize_number z e b :
  is_number (binary_normalize prec emax z e b) = true.
Proof.
  unfold binary_normalize, binary_round.
  destruct z as [|p|p]; [done| |];
    destruct (shl_align _ _ _) as [mz ez]; by apply binary_round_aux_number.
Qed.

End Rounding.

Lemma is_finite_bounded x : is_finite x = true -> bounded_number (Prim2SF x) = true.
Proof.
  unfold is_finite, is_nan, is_infinity. intros Hf.
  apply negb_true_iff, orb_false_iff in Hf as [Hn Hi].
  apply negb_false_iff in Hn.
  rewrite FloatAxioms.eqb_spec in Hn, Hi. rewrite abs_spec in Hi.
  by destruct (Prim2SF x) as [sz|[]| |s m e].
Qed.

Lemma is_finite_number x : is_finite x = true -> is_nan x = false.
Proof.
  unfold is_finite. intros Hf.
  by apply negb_true_iff, orb_false_iff in Hf as [Hn _].
Qed.

Lemma add_number x y :
  is_finite x = true -> is_nan y = false -> is_nan (x + y) = false.
Proof.
  intros Hx Hy. apply is_finite_bounded in Hx. apply is_nan_number in Hy.
  apply number_is_nan. rewrite add_spec. unfold SF64add.
  destruct (Prim2SF x) as [sx|sx| |sx mx ex], (Prim2SF y) as [sy|sy| |sy my ey];
    try done; cbn [SFadd].
  - by destruct sx, sy.
  - apply binary_normalize_number.
Qed.

Lemma sub_number x y :
  is_finite x = true -> is_finite y = true -> is_nan (x - y) = false.
Proof.
  intros Hx Hy. apply is_finite_bounded in Hx, Hy.
  apply number_is_nan. rewrite sub_spec. unfold SF64sub.
  destruct (Prim2SF x) as [sx|sx| |sx mx ex], (Prim2SF y) as [sy|sy| |sy my ey];
    try done; cbn [SFsub].
  - by destruct sx, sy.
  - apply binary_normalize_number.
Qed.

Lemma mul_number x y :
  is_nan x = false -> is_finite y = true -> (y =? 0) = false ->
  is_nan (x * y) = false.
Proof.
  intros Hx Hy Hz. apply is_nan_number in Hx.
  destruct (finite_nonzero y Hy Hz) as (sy & my & ey & Ey).
  apply number_is_nan. rewrite mul_spec, Ey. unfold SF64mul.
  destruct (Prim2SF x) as [sx|sx| |sx mx ex]; try done; cbn [SFmul].
  by apply binary_round_aux_number.
Qed.

Lemma minFrom_rank lowest numbers :
  is_nan lowest = false ->
  Forall (fun x => is_nan x = false) numbers ->
  is_nan (minFrom lowest numbers) = false
  /\ (rank (minFrom lowest numbers) <= rank lowest)%Z
  /\ Forall (fun x => (rank (minFrom lowest numbers) <= rank x)%Z) numbers.
Proof.
  intros Hh Hall. revert lowest Hh.
  induction Hall as [|x l Hx Hl IH]; intros lowest Hh; cbn [minFrom].
  - repeat split; [done|lia|constructor].
  - rewrite Hx.
    destruct (is_zero x && get_sign x && is_zero lowest && negb (get_sign lowest))
      eqn:Hz.
    + apply andb_true_iff in Hz as [Hz _]. apply andb_true_iff in Hz as [Hz Hzh].
      apply andb_true_iff in Hz as [Hzx _].
      apply is_zero_rank in Hzx as [_ Hrx]. apply is_zero_rank in Hzh as [_ Hrh].
      destruct (IH x Hx) as (Hn & Hle & Hrest).
      repeat split; [done|lia|]. by constructor.
    + destruct (x <? lowest) eqn:Hlt; rewrite ltb_rank in Hlt by done.
      * apply Z.ltb_lt in Hlt. destruct (IH x Hx) as (Hn & Hle & Hrest).
        repeat split; [done|lia|]. by constructor.
      * apply Z.ltb_ge in Hlt. destruct (IH lowest Hh) as (Hn & Hle & Hrest).
        repeat split; [done|lia|]. constructor; [lia|done].
Qed.

(** X19.  One tick of the progress, for a finite progress and a finite
    random number: the new progress is a number; from a progress of at most
    98 it is at most 98; and a progress of 98 or more is left as it
    is. *)
Theorem progress_tick_is_capped (random prev : float) :
  is_finite random = true ->
  is_finite prev = true ->
  is_nan (tick random prev) = false
  /\ ((prev <=? 98) = true -> (tick random prev <=? 98) = true)
  /\ ((98 <=? prev) = true -> tick random prev = prev).
Proof.
  intros Hr Hp. pose proof (is_finite_number prev Hp) as Hpn.
  unfold tick. destruct (98 <=? prev) eqn:Hge; [done|].
  set (increment := if prev <? 40 then 4.0 else
                    if prev <? 70 then 1.5 else
                    if prev <? 90 then 0.5 else 0.1).
  assert (Hi : is_finite increment = true).
  { unfold increment. by repeat destruct (prev <? _). }
  assert (Hy : is_nan (prev + (increment + (random - 0.5) * 0.2)) = false).
  { apply add_number; [done|]. apply add_number; [done|].
    apply mul_number; [|done|done]. by apply sub_number. }
  destruct (minFrom_rank infinity [prev + (increment + (random - 0.5) * 0.2); 98])
    as (Hn & _ & Hall); [done|by repeat constructor|].
  fold (mathMin [prev + (increment + (random - 0.5) * 0.2); 98]) in Hn, Hall.
  split; [done|]. split; [|done]. intros _.
  rewrite Forall_cons in Hall. destruct Hall as [_ Hall].
  rewrite Forall_singleton in Hall.
  rewrite leb_rank by done. by apply Z.leb_le.
Qed.

End ProgressFacts.

(** ** More about the sanitizer *)

Section TotalsFacts.
Import Service Spec Binary64.

Section Sums.
Local Open Scope Z_scope.

Lemma binary_round_aux_nonneg m e l :
  0 <= m ->
  SFleb (S754_zero false) (binary_round_aux prec emax false m e l) = true.
Proof.
  intros Hm. unfold binary_round_aux.
  pose proof (shr_fexp_nonneg m e l Hm) as H1.
  destruct (shr_fexp prec emax m e l) as [mrs1 e1]. cbn [fst] in H1.
  pose proof (shr_fexp_nonneg _ e1 loc_Exact
                (round_nearest_even_nonneg _ (loc_of_shr_record mrs1) H1)) as H2.
  destruct (shr_fexp prec emax _ e1 loc_Exact) as [mrs2 e2]. cbn [fst] in H2.
  destruct (shr_m mrs2) as [|p|p]; [done| |lia].
  by destruct (e2 <=? emax - prec).
Qed.

Lemma SFadd_nonneg x y :
  SFleb (S754_zero false) x = true -> SFleb (S754_zero false) y = true ->
  SFleb (S754_zero false) (SFadd prec emax x y) = true.
Proof.
  destruct x as [sx|[]| |[] mx ex], y as [sy|[]| |[] my ey]; try done.
  - by destruct sx, sy.
  - intros _ _. cbn [SFadd cond_Zopp].
    match goal with
    | |- context [(Zpos ?a + Zpos ?b)] =>
        change (Zpos a + Zpos b) with (Zpos (a + b)); generalize (a + b)%positive
    end.
    intros m. cbn [binary_normalize]. unfold binary_round.
    destruct (shl_align m _ _) as [mz ez].
    by apply binary_round_aux_nonneg.
Qed.

End Sums.

Lemma add_nonneg x y :
  (0 <=? x) = true -> (0 <=? y) = true -> (0 <=? x + y) = true.
Proof.
  rewrite !leb_spec, add_spec. apply SFadd_nonneg.
Qed.

Lemma fold_add_nonneg {A} (g : A -> float) (l : list A) (acc : float) :
  (0 <=? acc) = true ->
  Forall (fun i => (0 <=? g i) = true) l ->
  (0 <=? fold_left (fun s i => s + g i) l acc) = true.
Proof.
  intros Hacc Hall. revert acc Hacc.
  induction Hall as [|i l Hi Hl IH]; intros acc Hacc; cbn; [done|].
  apply IH. by apply add_nonneg.
Qed.

Lemma sumBy_nonneg {A} (g : A -> float) (l : list A) :
  Forall (fun i => (0 <=? g i) = true) l -> (0 <=? sumBy g l) = true.
Proof. by apply fold_add_nonneg. Qed.

Variable parseFloat : JsVal -> Result float.

(** X20.  The three totals of a sanitized result are numbers and are not
    negative, whatever the raw amounts were. *)
Theorem totals_are_not_negative raw r :
  sanitize parseFloat raw = Ok r ->
  (0 <=? matchedTotal (summary r)) = true
  /\ (0 <=? unmatchedBankTotal (summary r)) = true
  /\ (0 <=? unmatchedLedgerTotal (summary r)) = true
  /\ is_nan (matchedTotal (summary r)) = false
  /\ is_nan (unmatchedBankTotal (summary r)) = false
  /\ is_nan (unmatchedLedgerTotal (summary r)) = false.
Proof.
  intros H. destruct (sanitize_coerces parseFloat raw r H) as (Hm & Hb & Hl).
  apply sanitize_Ok in H as (_ & _ & _ & _ & ->). cbn.
  assert (H1 : (0 <=? sumBy (fun i => amount (bankTransaction i))
                        (matchedTransactions r)) = true).
  { apply sumBy_nonneg. eapply Forall2_Forall_r; [exact Hm|].
    apply Forall_forall. intros p _ out [Hp _]. by eapply coerces_nonneg. }
  assert (H2 : (0 <=? sumBy amount (unmatchedBankTransactions r)) = true).
  { apply sumBy_nonneg. eapply Forall2_Forall_r; [exact Hb|].
    apply Forall_forall. intros v _ t Hvt. by eapply coerces_nonneg. }
  assert (H3 : (0 <=? sumBy amount (unmatchedLedgerEntries r)) = true).
  { apply sumBy_nonneg. eapply Forall2_Forall_r; [exact Hl|].
    apply Forall_forall. intros v _ t Hvt. by eapply coerces_nonneg. }
  repeat split; try done; by apply nonneg_is_number.
Qed.

(** X21.  Every failure of a reconciliation reaches the caller wrapped as
    the error of a failed reconciliation, with the original failure as its
    cause: the failure of the request or of the parsing of the answer, or
    the exception the sanitizer raised; and the call succeeds exactly when
    the answer parses and is well formed. *)
Theorem failures_are_wrapped (parsed : Result JsVal) :
  match reconcileFiles parseFloat parsed with
  | Ok r => exists raw, parsed = Ok raw /\ sanitize parseFloat raw = Ok r
  | Throw e =>
      exists cause,
        e = Error_failed cause
        /\ (parsed = Throw cause
            \/ exists raw, parsed = Ok raw /\ sanitize parseFloat raw = Throw cause)
  end
  /\ succeeds (reconcileFiles parseFloat parsed)
     = match parsed with
       | Ok raw => wellFormed parseFloat raw
       | Throw _ => false
       end.
Proof.
  unfold reconcileFiles. destruct parsed as [raw|cause]; cbn.
  - rewrite <- succeeds_sanitize.
    destruct (sanitize parseFloat raw) as [r|e] eqn:Hs; cbn; split; eauto 8.
  - split; eauto.
Qed.

End TotalsFacts.

Section Resanitize.
Import Service Spec Returned.

Variable parseFloat : JsVal -> Result float.

Lemma abs_abs x : abs (abs x) = abs x.
Proof.
  apply Prim2SF_inj. rewrite !abs_spec. by destruct (Prim2SF x).
Qed.

Lemma absOrZero_idem x : absOrZero (absOrZero x) = absOrZero x.
Proof.
  unfold absOrZero. rewrite abs_is_nan.
  destruct (is_nan x) eqn:Hx.
  - change (is_nan 0) with false. cbv iota. apply abs_abs.
  - rewrite Hx. apply abs_abs.
Qed.

Lemma lookup_foldr_delete_in {V} (m : gmap string V) ks k :
  k ∈ ks -> foldr delete m ks !! k = None.
Proof.
  induction ks as [|k' ks IH]; [by intros ?%elem_of_nil|].
  intros Hk. cbn. destruct (decide (k' = k)) as [->|Hne].
  - apply lookup_delete_eq.
  - rewrite lookup_delete_ne by done. apply IH.
    apply elem_of_cons in Hk as [Hk|Hk]; [congruence|done].
Qed.

Lemma summaryObject_recomputed (m : gmap string JsVal) n1 n2 n3 t1 t2 t3 :
  foldr delete
    (summaryObject (mkSummary (foldr delete m recomputed) n1 n2 n3 t1 t2 t3))
    recomputed
  = foldr delete m recomputed.
Proof.
  apply map_eq. intros k. destruct (decide (k ∈ recomputed)) as [Hk|Hk].
  - by rewrite !lookup_foldr_delete_in.
  - rewrite lookup_foldr_delete by done.
    by rewrite summaryObject_passedThrough.
Qed.

(** A sanitized transaction: no [amount] among the copied properties, and
    an amount that is a coerced number. *)
Lemma withParsedAmount_canonical v t :
  withParsedAmount parseFloat v = Ok t ->
  others t !! "amount" = None /\ exists x, amount t = absOrZero x.
Proof.
  intros H. apply withParsedAmount_Ok in H as (_ & Ho & x & _ & Hx).
  split; [|by exists x]. rewrite Ho. apply lookup_delete_eq.
Qed.

Lemma mapR_fmap_id {A} (f : JsVal -> Result A) (g : A -> JsVal) (l : list A) :
  Forall (fun x => f (g x) = Ok x) l -> mapR f (g <$> l) = Ok l.
Proof.
  induction 1 as [|x l Hx Hl IH]; cbn; [done|]. by rewrite Hx, IH.
Qed.

Hypothesis parseFloat_number :
  forall x, exists y, parseFloat (JNum x) = Ok y /\ absOrZero y = absOrZero x.

Lemma withParsedAmount_txValue t :
  others t !! "amount" = None -> (exists x, amount t = absOrZero x) ->
  withParsedAmount parseFloat (txValue t) = Ok t.
Proof.
  intros Ho (x & Hx). destruct t as [o a]. cbn [others amount] in *.
  assert (Hid : absOrZero a = a) by (rewrite Hx; apply absOrZero_idem).
  unfold withParsedAmount, getProp, txValue, txObject. cbn.
  rewrite lookup_insert_eq. cbn.
  destruct (parseFloat_number a) as (y & Hy & Habs).
  destruct (parseAmount parseFloat (JNum a)) as [n|e] eqn:Hp.
  - apply parseAmount_Ok in Hp as (y' & Hy' & ->).
    rewrite Hy in Hy'. injection Hy' as <-. cbn.
    rewrite delete_insert_eq, delete_id by done.
    do 2 f_equal. etrans; [exact Habs|exact Hid].
  - unfold parseAmount in Hp. by rewrite Hy in Hp.
Qed.

Lemma sanitizePair_pairValue p :
  withParsedAmount parseFloat (txValue (bankTransaction p)) = Ok (bankTransaction p) ->
  withParsedAmount parseFloat (txValue (ledgerTransaction p))
  = Ok (ledgerTransaction p) ->
  sanitizePair parseFloat (pairValue p) = Ok p.
Proof.
  intros Hb Hl. destruct p as [b l].
  cbn [bankTransaction ledgerTransaction] in *.
  unfold sanitizePair, getProp, pairValue.
  cbn [nullish ownProps bankTransaction ledgerTransaction].
  rewrite (lookup_insert_ne _ "ledgerTransaction" "bankTransaction") by done.
  rewrite !lookup_insert_eq.
  cbn -[withParsedAmount]. rewrite Hb. cbn -[withParsedAmount]. by rewrite Hl.
Qed.

Lemma resultValue_fields r :
  field (resultValue r) "matchedTransactions"
  = JArr (pairValue <$> matchedTransactions r)
  /\ field (resultValue r) "unmatchedBankTransactions"
     = JArr (txValue <$> unmatchedBankTransactions r)
  /\ field (resultValue r) "unmatchedLedgerEntries"
     = JArr (txValue <$> unmatchedLedgerEntries r)
  /\ field (resultValue r) "summary" = JObj (summaryObject (summary r)).
Proof.
  unfold field, resultValue. cbn [ownProps].
  repeat split; rewrite ?lookup_insert_ne by done; by rewrite lookup_insert_eq.
Qed.

(** X22.  On a host whose [parseFloat] reads a number back as itself, up to
    the sign of zero, sanitizing a result the sanitizer has returned gives
    that same result: nothing is coerced, dropped or recomputed
    differently the second time. *)
Theorem sanitize_is_idempotent raw r :
  sanitize parseFloat raw = Ok r ->
  sanitize parseFloat (resultValue r) = Ok r.
Proof.
  intros H. apply sanitize_Ok in H as (_ & Hm & Hb & Hl & Hs).
  assert (Htx : forall raws txs,
             Forall2 (fun x y => withParsedAmount parseFloat x = Ok y) raws txs ->
             mapR (withParsedAmount parseFloat) (txValue <$> txs) = Ok txs).
  { intros raws txs Hall. apply mapR_fmap_id.
    eapply Forall2_Forall_r; [exact Hall|]. apply Forall_forall.
    intros v _ t Hvt. apply withParsedAmount_canonical in Hvt as [Ho Hx].
    by apply withParsedAmount_txValue. }
  assert (Hpairs : mapR (sanitizePair parseFloat)
                     (pairValue <$> matchedTransactions r)
                   = Ok (matchedTransactions r)).
  { apply mapR_fmap_id. eapply Forall2_Forall_r; [exact Hm|].
    apply Forall_forall. intros v _ p Hp.
    apply sanitizePair_Ok in Hp as (_ & H1 & H2).
    apply withParsedAmount_canonical in H1 as [Ho1 Hx1].
    apply withParsedAmount_canonical in H2 as [Ho2 Hx2].
    apply sanitizePair_pairValue; by apply withParsedAmount_txValue. }
  assert (Hg : forall k,
             getProp (resultValue r) k = Ok (field (resultValue r) k)) by done.
  destruct (resultValue_fields r) as (F1 & F2 & F3 & F4).
  unfold sanitize, collection. rewrite !Hg, F1, F2, F3, F4.
  cbn [mbind Result_bind jsOr truthy callMap].
  rewrite Hpairs. cbn [mbind Result_bind]. rewrite (Htx _ _ Hb).
  cbn [mbind Result_bind]. rewrite (Htx _ _ Hl). cbn [mbind Result_bind mret Result_ret].
  destruct r as [s m b l]. cbn [Service.summary] in *. f_equal.
  rewrite Hs. cbn [ownProps]. rewrite summaryObject_recomputed. done.
Qed.

End Resanitize.

(** ** The properties above on concrete inputs *)

Section MoreExamples.
Import Types Review ReviewSpec ReviewActions ReviewActionsSpec Download.

Lemma select_all_then_export_witness :
  let filtered :=
    filteredUnmatched (fun s => s) (fun _ => "") "" (only Investigating)
      (statusesOf bank Sample.review) (rowsOf bank Sample.result) in
  let st' := commit Sample.review (selectAllOf bank Sample.review filtered) in
  filtered.*1 = [Scenario.transfer]
  /\ exported Sample.selectedOnly (Some (selectedOf bank st'))
       (rowsOf bank Sample.result)
     = filtered.*1.
Proof.
  split; [by vm_compute|].
  apply (select_all_then_export (fun s => s) (fun _ => "") bank Sample.review
           Sample.result Sample.selectedOnly "" (only Investigating));
    reflexivity.
Defined.

Lemma export_without_selection_witness :
  handlePdfExport (fun _ => "0.00") Sample.review Sample.result Sample.selectedOnly
  = executiveSummary (fun _ => "0.00") Sample.selectedOnly (summary Sample.result)
    ++ verifiedMatches (fun _ => "0.00") Sample.selectedOnly
         (matchedTransactions Sample.result).
Proof.
  apply (export_without_selection (fun _ => "0.00") Sample.review Sample.result
           Sample.selectedOnly); reflexivity.
Defined.

Lemma report_tables_are_rectangular_witness :
  Sample.summarySection
    ∈ generatePdf (fun _ => "0.00") Sample.result Sample.everything None None
  /\ body Sample.summarySection <> []
  /\ Forall (fun row => length row = length (head Sample.summarySection))
       (body Sample.summarySection).
Proof.
  assert (H : Sample.summarySection
              ∈ generatePdf (fun _ => "0.00") Sample.result Sample.everything
                  None None) by (vm_compute; apply list_elem_of_here).
  split; [exact H|].
  exact (report_tables_are_rectangular (fun _ => "0.00") Sample.result
           Sample.everything None None Sample.summarySection H).
Defined.

Lemma safe_company_name_witness :
  Csv.safeCompanyName CsvSpec.asciiToLower "Acme & Co." = "acme___co__"
  /\ Forall (fun c => CsvSpec.isSafe c = true)
       (String.list_ascii_of_string
          (Csv.safeCompanyName CsvSpec.asciiToLower "Acme & Co."))
  /\ String.length (Csv.safeCompanyName CsvSpec.asciiToLower "Acme & Co.")
     = 11%nat.
Proof.
  split; [by vm_compute|].
  exact (safe_company_name CsvSpec.asciiToLower "Acme & Co."
           (fun s _ => eq_refl)).
Defined.

Lemma donut_segments_tile_the_circle_witness :
  Charts.donutChart Sample.counts
  = Some (5, Charts.segmentsFrom 5 0 Sample.counts)
  /\ forall s,
       last (Charts.segmentsFrom 5 0 Sample.counts) = Some s ->
       Charts.endAngle s = 360.
Proof.
  split; [by vm_compute|].
  destruct (donut_segments_tile_the_circle Sample.counts 5
              (Charts.segmentsFrom 5 0 Sample.counts)) as (_ & _ & _ & H);
    [by vm_compute|reflexivity|exact H].
Defined.

Lemma progress_tick_is_capped_witness :
  is_finite 0.25 = true /\ is_finite 10 = true
  /\ is_nan (App.tick 0.25 10) = false
  /\ ((10 <=? 98) = true -> (App.tick 0.25 10 <=? 98) = true)
  /\ ((98 <=? 10) = true -> App.tick 0.25 10 = 10).
Proof.
  split; [reflexivity|]. split; [reflexivity|].
  apply (progress_tick_is_capped 0.25 10); reflexivity.
Defined.

Lemma host_reads_numbers_back (x : float) :
  exists y, Host.parseFloat (JNum x) = Ok y
            /\ Spec.absOrZero y = Spec.absOrZero x.
Proof.
  exists (if is_zero x then 0 else x). split; [done|].
  destruct (is_zero x) eqn:Hz; [|done].
  unfold Spec.absOrZero. destruct (is_zero_rank x Hz) as [Hn _].
  rewrite Hn. by rewrite (is_zero_abs x Hz).
Qed.

Lemma totals_are_not_negative_witness :
  exists r,
    Service.sanitize Host.parseFloat Scenario.untidy = Ok r
    /\ (0 <=? Service.matchedTotal (Service.summary r)) = true
    /\ (0 <=? Service.unmatchedBankTotal (Service.summary r)) = true
    /\ (0 <=? Service.unmatchedLedgerTotal (Service.summary r)) = true
    /\ is_nan (Service.matchedTotal (Service.summary r)) = false
    /\ is_nan (Service.unmatchedBankTotal (Service.summary r)) = false
    /\ is_nan (Service.unmatchedLedgerTotal (Service.summary r)) = false.
Proof.
  eexists. split.
  - vm_compute. reflexivity.
  - apply (totals_are_not_negative Host.parseFloat Scenario.untidy).
    vm_compute. reflexivity.
Defined.

Lemma sanitize_is_idempotent_witness :
  exists r,
    Service.sanitize Host.parseFloat Scenario.untidy = Ok r
    /\ Service.sanitize Host.parseFloat (Returned.resultValue r) = Ok r.
Proof.
  eexists. split.
  - vm_compute. reflexivity.
  - apply (sanitize_is_idempotent Host.parseFloat host_reads_numbers_back
             Scenario.untidy).
    vm_compute. reflexivity.
Defined.

End MoreExamples.
